(** * fsfix: test fixtures over a temporary directory tree

    A shallow embedding of the Go package [fsfix] (root_fixture.go,
    dir_fixture.go with the repository fixture, file_fixture.go, and the
    revision of root_fixture.go kept in src/unnamed/part_003), and the
    properties its specification states about it.

    Conventions of the embedding.
    - Go strings ([dt.DirPath], [dt.Filepath], [dt.RelFilepath],
      [dt.PathSegments] are all string types) are [string].
    - Go [int] permissions are [Z]; the conversion [os.FileMode(n)] to a
      32-bit unsigned value is written out as [n mod 2^32].
    - [*testing.T] is a test identity [Tid].  The [t] a method receives is
      the one of the running test and is not nil, so [t.Helper()] has no
      effect here; a struct field that holds one is an [option Tid], [None]
      being the nil pointer.
    - The fixture structs are reached through pointers and updated in place
      in Go; here every method returns the updated struct, and a parent
      owns its children.  A value of the interface type [Fixture] (the
      [Parent] field, the [pf] argument) carries the fields of the pointee
      that the interface methods read.  A call that ends in [t.FailNow] or
      in a panic returns no struct: what it had assigned before it stopped
      is not looked at afterwards.
    - Every call to the file system and to the test context is an effect of
      the monad [M]: it threads the file-system state, collects the calls
      and reports in order, and distinguishes a normal return from
      [t.FailNow] and from a run-time panic. *)

From Stdlib Require Import String Ascii List ZArith Bool DecimalString.
Import ListNotations.

Set Warnings "-register-all".

Open Scope string_scope.
Open Scope Z_scope.

(** ** Basic types *)

(** A [*testing.T], by identity. *)
Definition Tid := nat.

(** [time.Time] as an offset from the zero instant; [Time.IsZero]. *)
Definition Time := Z.
Definition IsZero (tm : Time) : bool := tm =? 0.

(** A Go [error]: nil, or a message. *)
Definition error := option string.

Definition is_nil (e : error) : bool :=
  match e with None => true | Some _ => false end.

Definition error_text (e : error) : string :=
  match e with None => "<nil>" | Some m => m end.

(** [os.FileMode(n)] for an [int] n: a uint32 conversion. *)
Definition FileMode (n : Z) : Z := n mod 2 ^ 32.

(** The octal literals of the source. *)
Definition perm_0644 : Z := 6 * 64 + 4 * 8 + 4.
Definition perm_0755 : Z := 7 * 64 + 5 * 8 + 5.

(** ** The boundary: path helpers and file system of package dt *)

(** The path helpers of [github.com/mikeschinkel/go-dt] that the package
    calls.  They are not part of this repository: the embedding takes them
    as an interface. *)
Class PathOps := {
  DirPathJoin : string -> string -> string;
  FilepathJoin : string -> string -> string;
  Filepath_Dir : string -> string;
  DirPath_Clean : string -> string;
  DirPath_IsAbs : string -> bool;
  DirPath_VolumeName : string -> string;
  PathSeparator : string;
  dt_TempDir : string;
  (** [target.Rel(base)]: the segments leading from [base] to [target]. *)
  DirPath_Rel : string -> string -> string * error;
  PathSegments_HasDotDotPrefix : string -> bool
}.

(** The file-system primitives the package calls. *)
Inductive FsCall :=
| MkdirTemp (dir pattern : string)
| MkdirAll (path : string) (mode : Z)
| WriteFile (path data : string) (mode : Z)
| ChangeFileTimes (path : string) (atime mtime : Time)
| RemoveAll (path : string).

Record FsResult := mkFsResult { res_path : string; res_err : error }.

(** A file system: a state and the result of each primitive on it. *)
Class FileSystem := {
  fs_state : Type;
  fs_exec : FsCall -> fs_state -> FsResult * fs_state;
  (** What [os.Stat] would tell: the path is a directory. *)
  fs_IsDir : fs_state -> string -> bool
}.

(** ** Test context and effects *)

(** A report to the test context: [t.Errorf] or [t.Fatalf], with the format
    string and the arguments of the call. *)
Record Report := mkReport {
  rp_fatal : bool;
  rp_t : Tid;
  rp_format : string;
  rp_args : list string
}.

Inductive Event :=
| FsCalled (c : FsCall) (r : FsResult)
| Reported (r : Report).

(** How a call ends: it returns, the running test is stopped by
    [t.FailNow] (runtime.Goexit of the test's goroutine), or the program
    panics. *)
Inductive Outcome (A : Type) :=
| Ok (a : A)
| FailNow (t : Tid)
| Panic (msg : string).
Arguments Ok {A} a.
Arguments FailNow {A} t.
Arguments Panic {A} msg.

Record Run (S A : Type) := mkRun {
  out : Outcome A;
  st : S;
  evs : list Event
}.
Arguments mkRun {S A} out st evs.
Arguments out {S A} r.
Arguments st {S A} r.
Arguments evs {S A} r.

Definition M (S A : Type) : Type := S -> Run S A.

Definition ret {S A} (a : A) : M S A := fun s => mkRun (Ok a) s [].

Definition bind {S A B} (m : M S A) (k : A -> M S B) : M S B :=
  fun s =>
    let r := m s in
    match out r with
    | Ok a => let r' := k a (st r) in mkRun (out r') (st r') (evs r ++ evs r')
    | FailNow t => mkRun (FailNow t) (st r) (evs r)
    | Panic msg => mkRun (Panic msg) (st r) (evs r)
    end.

Notation "x <- m ;; k" := (bind m (fun x => k))
  (at level 61, m at next level, right associativity).
Notation "m ;; k" := (bind m (fun _ => k))
  (at level 61, right associativity).

Definition panic {S A} (msg : string) : M S A := fun s => mkRun (Panic msg) s [].

Definition when {S} (b : bool) (m : M S unit) : M S unit :=
  if b then m else ret tt.

(** [for _, x := range xs { f(x) }] over a slice of pointers: the pointees
    are updated in order. *)
Definition range {S A} (f : A -> M S A) : list A -> M S (list A) :=
  fix loop (xs : list A) : M S (list A) :=
    match xs with
    | [] => ret []
    | x :: xs' => x' <- f x ;; r <- loop xs' ;; ret (x' :: r)
    end.

(** [t.Errorf]: the failure is recorded and the caller goes on. *)
Definition t_Errorf {S} (t : Tid) (format : string) (args : list string) : M S unit :=
  fun s => mkRun (Ok tt) s [Reported (mkReport false t format args)].

(** [t.Fatalf]: the failure is recorded and the test is stopped. *)
Definition t_Fatalf {S A} (t : Tid) (format : string) (args : list string) : M S A :=
  fun s => mkRun (FailNow t) s [Reported (mkReport true t format args)].

Definition nil_dereference : string :=
  "runtime error: invalid memory address or nil pointer dereference".

(** A method call through a [*testing.T] field: nil panics. *)
Definition deref_t {S} (t : option Tid) : M S Tid :=
  match t with
  | Some tid => ret tid
  | None => panic nil_dereference
  end.

(** Whether a run recorded a failure, and whether it touched the disk. *)
Definition is_report (e : Event) : bool :=
  match e with Reported _ => true | FsCalled _ _ => false end.

Definition is_fs_call (e : Event) : bool :=
  match e with FsCalled _ _ => true | Reported _ => false end.

Definition failed (l : list Event) : bool := existsb is_report l.

Definition fs_calls (l : list Event) : list FsCall :=
  flat_map (fun e => match e with FsCalled c _ => [c] | Reported _ => [] end) l.

Section Effects.
Context {FS : FileSystem}.

Definition fs_call (c : FsCall) : M fs_state FsResult :=
  fun s => let (r, s') := fs_exec c s in mkRun (Ok r) s' [FsCalled c r].

Definition dt_MkdirTemp (dir pattern : string) : M fs_state (string * error) :=
  r <- fs_call (MkdirTemp dir pattern) ;; ret (res_path r, res_err r).

Definition dt_MkdirAll (path : string) (mode : Z) : M fs_state error :=
  r <- fs_call (MkdirAll path mode) ;; ret (res_err r).

Definition dt_WriteFile (path data : string) (mode : Z) : M fs_state error :=
  r <- fs_call (WriteFile path data mode) ;; ret (res_err r).

Definition dt_ChangeFileTimes (path : string) (atime mtime : Time) : M fs_state error :=
  r <- fs_call (ChangeFileTimes path atime mtime) ;; ret (res_err r).

Definition dt_RemoveAll (path : string) : M fs_state error :=
  r <- fs_call (RemoveAll path) ;; ret (res_err r).
End Effects.

(** ** The data model *)

(** A value of the interface type [Fixture]: a pointer to a root, directory
    or repository fixture, with the fields of the pointee that [Dir] and
    [RelativePath] read.  For a repository these are the fields of its
    embedded directory fixture, whose [Dir], [Name] and [Parent] it
    promotes. *)
Inductive Fixture :=
| RootFixturePtr (DirPrefix tempDir : string) (created : bool) (t : option Tid)
| DirFixturePtr (Name dir : string) (created : bool) (t : option Tid)
    (Parent : option Fixture)
| RepoFixturePtr (Name dir : string) (created : bool) (t : option Tid)
    (Parent : option Fixture).

(** file_fixture.go: [FileFixture], in two parts so that a content function
    can take the fixture it belongs to. *)
Record FileData := mkFileData {
  ff_Filepath : string;
  ff_Name : string;
  ff_Content : string;
  ff_Permissions : Z;
  ff_DirPermissions : Z;
  ff_ModifiedTime : Time;
  ff_DoNotCreate : bool;
  ff_Parent : option Fixture;
  ff_created : bool;
  ff_t : option Tid
}.

(** [type ContentFunc func(ff *FileFixture) string], read as a function of
    the fixture's fields at the time of the call. *)
Definition ContentFunc := FileData -> string.

Record FileFixture := mkFileFixture {
  ff_data :> FileData;
  ff_ContentFunc : option ContentFunc
}.

Record FileFixtureArgs := mkFileFixtureArgs {
  ffa_Name : string;
  ffa_Content : string;
  ffa_ContentFunc : option ContentFunc;
  ffa_ModifiedTime : Time;
  ffa_Permissions : Z;
  ffa_DirPermissions : Z;
  ffa_DoNotCreate : bool;
  ffa_Parent : option Fixture
}.

(** dir_fixture.go: [DirFixture] and [RepoFixture]; [ChildFixture] is what a
    [ChildFixtures] slice holds, a [*DirFixture] or a [*RepoFixture]. *)
Inductive DirFixture :=
| mkDirFixture (Name : string) (FileFixtures : list FileFixture)
    (ChildFixtures : list ChildFixture) (ModifiedTime : Time)
    (Permissions : Z) (dir : string) (Parent : option Fixture)
    (created : bool) (t : option Tid)
with ChildFixture :=
| DirChild (df : DirFixture)
| RepoChild (rf : RepoFixture)
with RepoFixture :=
| mkRepoFixture (embedded : DirFixture) (created : bool) (t : option Tid).

Definition df_Name (df : DirFixture) : string :=
  let 'mkDirFixture x _ _ _ _ _ _ _ _ := df in x.
Definition df_FileFixtures (df : DirFixture) : list FileFixture :=
  let 'mkDirFixture _ x _ _ _ _ _ _ _ := df in x.
Definition df_ChildFixtures (df : DirFixture) : list ChildFixture :=
  let 'mkDirFixture _ _ x _ _ _ _ _ _ := df in x.
Definition df_ModifiedTime (df : DirFixture) : Time :=
  let 'mkDirFixture _ _ _ x _ _ _ _ _ := df in x.
Definition df_Permissions (df : DirFixture) : Z :=
  let 'mkDirFixture _ _ _ _ x _ _ _ _ := df in x.
Definition df_dir (df : DirFixture) : string :=
  let 'mkDirFixture _ _ _ _ _ x _ _ _ := df in x.
Definition df_Parent (df : DirFixture) : option Fixture :=
  let 'mkDirFixture _ _ _ _ _ _ x _ _ := df in x.
Definition df_created (df : DirFixture) : bool :=
  let 'mkDirFixture _ _ _ _ _ _ _ x _ := df in x.
Definition df_t (df : DirFixture) : option Tid :=
  let 'mkDirFixture _ _ _ _ _ _ _ _ x := df in x.

Definition repo_DirFixture (rf : RepoFixture) : DirFixture :=
  let 'mkRepoFixture x _ _ := rf in x.
Definition repo_created (rf : RepoFixture) : bool :=
  let 'mkRepoFixture _ x _ := rf in x.
Definition repo_t (rf : RepoFixture) : option Tid :=
  let 'mkRepoFixture _ _ x := rf in x.

Record DirFixtureArgs := mkDirFixtureArgs {
  dfa_Files : list FileFixture;
  dfa_Permissions : Z;
  dfa_ModifiedTime : Time;
  dfa_Parent : option Fixture
}.

Record RepoFixtureArgs := mkRepoFixtureArgs {
  rfa_Files : list FileFixture;
  rfa_Permissions : Z;
  rfa_ModifiedTime : Time;
  rfa_Parent : option Fixture
}.

(** A value of type [any] as the type switch of [AddFileFixtures] tells its
    variadic arguments apart: a [dt.Filename], a [dt.RelFilepath], a
    [*FileFixtureArgs] (nil or not), or a value of any other type, given by
    what the verbs [%T] and [%v] print of it. *)
Inductive any :=
| any_Filename (v : string)
| any_RelFilepath (v : string)
| any_FileFixtureArgs (p : option FileFixtureArgs)
| any_other (T v : string).

(** root_fixture.go: the closure stored in [cleanupFunc] by [Create]; it
    captures the fixture and the [t] of that call. *)
Inductive CleanupFunc :=
| RemoveTempDir (t : Tid).

Record RootFixture := mkRootFixture {
  rf_DirPrefix : string;
  rf_tempDir : string;
  rf_FileFixtures : list FileFixture;
  rf_ChildFixtures : list ChildFixture;
  rf_cleanupFunc : option CleanupFunc;
  rf_created : bool;
  rf_t : option Tid
}.

(** Assignments to single fields. *)
Definition set_ff_Filepath (v : string) (d : FileData) : FileData :=
  mkFileData v (ff_Name d) (ff_Content d) (ff_Permissions d) (ff_DirPermissions d)
    (ff_ModifiedTime d) (ff_DoNotCreate d) (ff_Parent d) (ff_created d) (ff_t d).
Definition set_ff_Content (v : string) (d : FileData) : FileData :=
  mkFileData (ff_Filepath d) (ff_Name d) v (ff_Permissions d) (ff_DirPermissions d)
    (ff_ModifiedTime d) (ff_DoNotCreate d) (ff_Parent d) (ff_created d) (ff_t d).
Definition set_ff_Parent (v : option Fixture) (d : FileData) : FileData :=
  mkFileData (ff_Filepath d) (ff_Name d) (ff_Content d) (ff_Permissions d)
    (ff_DirPermissions d) (ff_ModifiedTime d) (ff_DoNotCreate d) v (ff_created d) (ff_t d).
Definition set_ff_created (v : bool) (d : FileData) : FileData :=
  mkFileData (ff_Filepath d) (ff_Name d) (ff_Content d) (ff_Permissions d)
    (ff_DirPermissions d) (ff_ModifiedTime d) (ff_DoNotCreate d) (ff_Parent d) v (ff_t d).

Definition with_data (f : FileData -> FileData) (ff : FileFixture) : FileFixture :=
  mkFileFixture (f (ff_data ff)) (ff_ContentFunc ff).

Definition set_df_FileFixtures (v : list FileFixture) (df : DirFixture) : DirFixture :=
  mkDirFixture (df_Name df) v (df_ChildFixtures df) (df_ModifiedTime df)
    (df_Permissions df) (df_dir df) (df_Parent df) (df_created df) (df_t df).
Definition set_df_ChildFixtures (v : list ChildFixture) (df : DirFixture) : DirFixture :=
  mkDirFixture (df_Name df) (df_FileFixtures df) v (df_ModifiedTime df)
    (df_Permissions df) (df_dir df) (df_Parent df) (df_created df) (df_t df).
Definition set_df_dir (v : string) (df : DirFixture) : DirFixture :=
  mkDirFixture (df_Name df) (df_FileFixtures df) (df_ChildFixtures df)
    (df_ModifiedTime df) (df_Permissions df) v (df_Parent df) (df_created df) (df_t df).
Definition set_df_Parent (v : option Fixture) (df : DirFixture) : DirFixture :=
  mkDirFixture (df_Name df) (df_FileFixtures df) (df_ChildFixtures df)
    (df_ModifiedTime df) (df_Permissions df) (df_dir df) v (df_created df) (df_t df).
Definition set_df_created (v : bool) (df : DirFixture) : DirFixture :=
  mkDirFixture (df_Name df) (df_FileFixtures df) (df_ChildFixtures df)
    (df_ModifiedTime df) (df_Permissions df) (df_dir df) (df_Parent df) v (df_t df).

Definition set_repo_DirFixture (v : DirFixture) (rf : RepoFixture) : RepoFixture :=
  mkRepoFixture v (repo_created rf) (repo_t rf).
Definition set_repo_created (v : bool) (rf : RepoFixture) : RepoFixture :=
  mkRepoFixture (repo_DirFixture rf) v (repo_t rf).

Definition set_rf_tempDir (v : string) (rf : RootFixture) : RootFixture :=
  mkRootFixture (rf_DirPrefix rf) v (rf_FileFixtures rf) (rf_ChildFixtures rf)
    (rf_cleanupFunc rf) (rf_created rf) (rf_t rf).
Definition set_rf_FileFixtures (v : list FileFixture) (rf : RootFixture) : RootFixture :=
  mkRootFixture (rf_DirPrefix rf) (rf_tempDir rf) v (rf_ChildFixtures rf)
    (rf_cleanupFunc rf) (rf_created rf) (rf_t rf).
Definition set_rf_ChildFixtures (v : list ChildFixture) (rf : RootFixture) : RootFixture :=
  mkRootFixture (rf_DirPrefix rf) (rf_tempDir rf) (rf_FileFixtures rf) v
    (rf_cleanupFunc rf) (rf_created rf) (rf_t rf).
Definition set_rf_cleanupFunc (v : option CleanupFunc) (rf : RootFixture) : RootFixture :=
  mkRootFixture (rf_DirPrefix rf) (rf_tempDir rf) (rf_FileFixtures rf)
    (rf_ChildFixtures rf) v (rf_created rf) (rf_t rf).
Definition set_rf_created (v : bool) (rf : RootFixture) : RootFixture :=
  mkRootFixture (rf_DirPrefix rf) (rf_tempDir rf) (rf_FileFixtures rf)
    (rf_ChildFixtures rf) (rf_cleanupFunc rf) v (rf_t rf).

(** Taking the address of a fixture as a [Fixture]. *)
Definition RootFixture_ptr (rf : RootFixture) : Fixture :=
  RootFixturePtr (rf_DirPrefix rf) (rf_tempDir rf) (rf_created rf) (rf_t rf).
Definition DirFixture_ptr (df : DirFixture) : Fixture :=
  DirFixturePtr (df_Name df) (df_dir df) (df_created df) (df_t df) (df_Parent df).
Definition RepoFixture_ptr (rf : RepoFixture) : Fixture :=
  let df := repo_DirFixture rf in
  RepoFixturePtr (df_Name df) (df_dir df) (df_created df) (df_t df) (df_Parent df).

(** ** The package *)

Section Package.
Context {PO : PathOps} {FS : FileSystem}.

Local Abbreviation Eff := (M fs_state).

(** *** fixture.go: the methods of [Fixture] that a child calls *)

(** root_fixture.go: [RootFixture.ensureCreated], on the fields it reads. *)
Definition RootFixture_ensureCreated' (DirPrefix : string) (created : bool)
    (t : option Tid) : Eff unit :=
  if negb created then
    tid <- deref_t t ;;
    t_Fatalf tid "RootFixture '%s' has not yet been created" [DirPrefix]
  else ret tt.

(** dir_fixture.go: [DirFixture.ensureCreated], on the fields it reads;
    [df.t.Helper()] comes first. *)
Definition DirFixture_ensureCreated' (Name : string) (created : bool)
    (t : option Tid) : Eff unit :=
  tid <- deref_t t ;;
  if negb created then
    t_Fatalf tid "DirFixture '%s' has not yet been created" [Name]
  else ret tt.

(** [pf.Dir()] through the interface: [RootFixture.Dir], or
    [DirFixture.Dir], which a repository promotes. *)
Definition Fixture_Dir (pf : Fixture) : Eff string :=
  match pf with
  | RootFixturePtr DirPrefix tempDir created t =>
      RootFixture_ensureCreated' DirPrefix created t ;;
      ret tempDir
  | DirFixturePtr Name dir created t _
  | RepoFixturePtr Name dir created t _ =>
      DirFixture_ensureCreated' Name created t ;;
      ret dir
  end.

(** [pf.RelativePath()] through the interface; [None] is the nil
    dereference of a fixture whose [Parent] was never set. *)
Fixpoint Fixture_RelativePath (pf : Fixture) : option string :=
  match pf with
  | RootFixturePtr _ _ _ _ => Some "."
  | DirFixturePtr Name _ _ _ Parent
  | RepoFixturePtr Name _ _ _ Parent =>
      match Parent with
      | Some p =>
          match Fixture_RelativePath p with
          | Some r => Some (DirPathJoin r Name)
          | None => None
          end
      | None => None
      end
  end.

(** *** file_fixture.go *)

(** [&FileFixtureArgs{}], which stands in for a nil [args].  The two
    permission defaults are also written into the caller's struct; a struct
    passed twice arrives with the same defaults the second time. *)
Definition FileFixtureArgs_zero : FileFixtureArgs :=
  mkFileFixtureArgs "" "" None 0 0 0 false None.

Definition newFileFixture (t : Tid) (name : string)
    (args : option FileFixtureArgs) : FileFixture :=
  let args := match args with None => FileFixtureArgs_zero | Some a => a end in
  let Permissions :=
    if ffa_Permissions args =? 0 then perm_0644 else ffa_Permissions args in
  let DirPermissions :=
    if ffa_DirPermissions args =? 0 then perm_0755 else ffa_DirPermissions args in
  mkFileFixture
    (mkFileData "" name (ffa_Content args) Permissions DirPermissions
       (ffa_ModifiedTime args) (ffa_DoNotCreate args) (ffa_Parent args)
       false (Some t))
    (ffa_ContentFunc args).

Definition FileFixture_RelativePath (ff : FileFixture) : option string :=
  match ff_Parent ff with
  | Some p =>
      match Fixture_RelativePath p with
      | Some r => Some (FilepathJoin r (ff_Name ff))
      | None => None
      end
  | None => None
  end.

Definition FileFixture_ensureCreated (ff : FileFixture) : Eff unit :=
  tid <- deref_t (ff_t ff) ;;
  if negb (ff_created ff) then
    t_Fatalf tid "FileFixture '%s' has not yet been created" [ff_Name ff]
  else ret tt.

Definition FileFixture_createFile (t : Tid) (ff : FileFixture) : Eff FileFixture :=
  if ff_DoNotCreate ff then ret ff
  else
    when (ff_Permissions ff =? 0)
      (t_Errorf t "File permissions not set for %s" [ff_Filepath ff]) ;;
    err <- dt_MkdirAll (Filepath_Dir (ff_Filepath ff))
             (FileMode (ff_DirPermissions ff)) ;;
    when (negb (is_nil err))
      (t_Errorf t "Failed to create test file directory %s"
         [Filepath_Dir (ff_Filepath ff)]) ;;
    let ff :=
      match ff_ContentFunc ff with
      | Some f => with_data (set_ff_Content (f (ff_data ff))) ff
      | None => ff
      end in
    err <- dt_WriteFile (ff_Filepath ff) (ff_Content ff)
             (FileMode (ff_Permissions ff)) ;;
    when (negb (is_nil err))
      (t_Errorf t "Failed to create test file %s" [ff_Filepath ff]) ;;
    (if negb (IsZero (ff_ModifiedTime ff)) then
       err <- dt_ChangeFileTimes (ff_Filepath ff) (ff_ModifiedTime ff)
                (ff_ModifiedTime ff) ;;
       when (negb (is_nil err))
         (t_Errorf t "Failed to set modification time for %s" [ff_Filepath ff])
     else ret tt) ;;
    ret ff.

Definition FileFixture_Create (t : Tid) (ff : FileFixture) (pf : Fixture)
    : Eff FileFixture :=
  let ff := with_data (set_ff_created true) ff in
  let ff := with_data (set_ff_Parent (Some pf)) ff in
  d <- Fixture_Dir pf ;;
  let ff := with_data (set_ff_Filepath (FilepathJoin d (ff_Name ff))) ff in
  FileFixture_createFile t ff.

(** *** dir_fixture.go *)

Definition DirFixtureArgs_zero : DirFixtureArgs := mkDirFixtureArgs [] 0 0 None.

Definition newDirFixture (t : Tid) (name : string)
    (args : option DirFixtureArgs) : DirFixture :=
  let args := match args with None => DirFixtureArgs_zero | Some a => a end in
  let Permissions :=
    if dfa_Permissions args =? 0 then perm_0755 else dfa_Permissions args in
  mkDirFixture name (dfa_Files args) [] (dfa_ModifiedTime args) Permissions ""
    (dfa_Parent args) false (Some t).

Definition DirFixture_RelativePath (df : DirFixture) : option string :=
  Fixture_RelativePath (DirFixture_ptr df).

Definition DirFixture_ensureCreated (df : DirFixture) : Eff unit :=
  DirFixture_ensureCreated' (df_Name df) (df_created df) (df_t df).

Definition DirFixture_Dir (df : DirFixture) : Eff string :=
  DirFixture_ensureCreated df ;;
  ret (df_dir df).

Definition DirFixture_MakeDir (df : DirFixture) (fp : string) : Eff string :=
  DirFixture_ensureCreated df ;;
  ret (DirPathJoin (df_dir df) fp).

Definition RepoFixture_ensureCreated (rf : RepoFixture) : Eff unit :=
  tid <- deref_t (repo_t rf) ;;
  if negb (repo_created rf) then
    t_Fatalf tid "RepoFixture '%s' has not yet been created"
      [df_Name (repo_DirFixture rf)]
  else ret tt.

(** [DirFixture.createWithParent] and [RepoFixture.createWithParent];
    [ChildFixture_createWithParent] is the call through the interface. *)
Fixpoint DirFixture_createWithParent (t : Tid) (df : DirFixture) (pf : Fixture)
    {struct df} : Eff DirFixture :=
  let df := set_df_created true df in
  d <- Fixture_Dir pf ;;
  let df := set_df_dir (DirPathJoin d (df_Name df)) df in
  when (df_Permissions df =? 0)
    (t_Errorf t "File permissions not set for %s" [df_dir df]) ;;
  err <- dt_MkdirAll (df_dir df) (FileMode (df_Permissions df)) ;;
  when (negb (is_nil err))
    (t_Errorf t "Failed to create testing directory %s" [df_dir df]) ;;
  files <- range (fun file => FileFixture_Create t file (DirFixture_ptr df))
             (df_FileFixtures df) ;;
  children <- range (fun child =>
                       ChildFixture_createWithParent t child (DirFixture_ptr df))
                (df_ChildFixtures df) ;;
  ret (set_df_ChildFixtures children (set_df_FileFixtures files df))
with ChildFixture_createWithParent (t : Tid) (c : ChildFixture) (pf : Fixture)
    {struct c} : Eff ChildFixture :=
  match c with
  | DirChild df =>
      df' <- DirFixture_createWithParent t df pf ;;
      ret (DirChild df')
  | RepoChild rf =>
      rf' <- RepoFixture_createWithParent t rf pf ;;
      ret (RepoChild rf')
  end
with RepoFixture_createWithParent (t : Tid) (rf : RepoFixture) (parent : Fixture)
    {struct rf} : Eff RepoFixture :=
  let rf := set_repo_created true rf in
  df <- DirFixture_createWithParent t (repo_DirFixture rf) parent ;;
  let rf := set_repo_DirFixture df rf in
  let gitDir := DirPathJoin (df_dir (repo_DirFixture rf)) ".git" in
  err <- dt_MkdirAll gitDir perm_0755 ;;
  when (negb (is_nil err))
    (t_Errorf t "Failed to create .git directory within %s; %v"
       [df_dir (repo_DirFixture rf); error_text err]) ;;
  ret rf.

(** The repository fixture, second half of dir_fixture.go. *)

Definition RepoFixtureArgs_zero : RepoFixtureArgs := mkRepoFixtureArgs [] 0 0 None.

Definition newRepoFixture (t : Tid) (name : string)
    (args : option RepoFixtureArgs) : RepoFixture :=
  let args := match args with None => RepoFixtureArgs_zero | Some a => a end in
  let Permissions :=
    if rfa_Permissions args =? 0 then perm_0755 else rfa_Permissions args in
  mkRepoFixture
    (newDirFixture t name
       (Some (mkDirFixtureArgs [] Permissions (rfa_ModifiedTime args)
                (rfa_Parent args))))
    false (Some t).

Definition RepoFixture_RelativePath (rf : RepoFixture) : option string :=
  Fixture_RelativePath (RepoFixture_ptr rf).

(** [RepoFixture.Dir] is the promoted [DirFixture.Dir]. *)
Definition RepoFixture_Dir (rf : RepoFixture) : Eff string :=
  DirFixture_Dir (repo_DirFixture rf).

Definition RepoFixture_GitPath (rf : RepoFixture) : Eff string :=
  d <- RepoFixture_Dir rf ;;
  ret (DirPathJoin d ".git").

Definition RepoFixture_RelativeGitPath (rf : RepoFixture) : option string :=
  match RepoFixture_RelativePath rf with
  | Some r => Some (DirPathJoin r ".git")
  | None => None
  end.

Definition RepoFixture_MakeDir (rf : RepoFixture) (fp : string) : Eff string :=
  RepoFixture_ensureCreated rf ;;
  ret (DirPathJoin (df_dir (repo_DirFixture rf)) fp).

(** The attach methods of a directory fixture.  The caller keeps the
    pointer to the child; here the updated parent and the child are both
    returned. *)
Definition DirFixture_AddDirFixture (df : DirFixture) (t : Tid) (name : string)
    (args : option DirFixtureArgs) : Eff (DirFixture * DirFixture) :=
  let cf := newDirFixture t name args in
  let cf := set_df_Parent (Some (DirFixture_ptr df)) cf in
  let df := set_df_ChildFixtures (df_ChildFixtures df ++ [DirChild cf]) df in
  ret (df, cf).

Definition DirFixture_AddRepoFixture (df : DirFixture) (t : Tid) (name : string)
    (args : option RepoFixtureArgs) : Eff (DirFixture * RepoFixture) :=
  let cf := newRepoFixture t name args in
  let cf := set_repo_DirFixture
              (set_df_Parent (Some (DirFixture_ptr df)) (repo_DirFixture cf)) cf in
  let df := set_df_ChildFixtures (df_ChildFixtures df ++ [RepoChild cf]) df in
  ret (df, cf).

Definition DirFixture_AddFileFixture (df : DirFixture) (t : Tid) (name : string)
    (args : option FileFixtureArgs) : Eff (DirFixture * FileFixture) :=
  let ff := newFileFixture t name args in
  let ff := with_data (set_ff_Parent (Some (DirFixture_ptr df))) ff in
  let df := set_df_FileFixtures (df_FileFixtures df ++ [ff]) df in
  ret (df, ff).

(** [DirFixture.AddFileFixtures]: one [AddFileFixture] per argument, in
    order; [ffa.Name] on a nil [*FileFixtureArgs] is a nil dereference. *)
Fixpoint DirFixture_AddFileFixtures (df : DirFixture) (t : Tid)
    (defaults : option FileFixtureArgs) (args : list any) {struct args}
    : Eff DirFixture :=
  match args with
  | [] => ret df
  | f :: args' =>
      df <- match f with
            | any_Filename ffa =>
                r <- DirFixture_AddFileFixture df t ffa defaults ;; ret (fst r)
            | any_RelFilepath ffa =>
                r <- DirFixture_AddFileFixture df t ffa defaults ;; ret (fst r)
            | any_FileFixtureArgs None => panic nil_dereference
            | any_FileFixtureArgs (Some ffa) =>
                (if (ffa_Name ffa =? "")%string then
                   t_Fatalf t
                     "Name not set for file fixure being added to dir fixture '%s'"
                     [df_Name df]
                 else ret tt) ;;
                r <- DirFixture_AddFileFixture df t (ffa_Name ffa) (Some ffa) ;;
                ret (fst r)
            | any_other T v =>
                t_Fatalf t
                  "Invalid type '%T' passed for file fixure being added to dir fixture: '%v'"
                  [T; v]
            end ;;
      DirFixture_AddFileFixtures df t defaults args'
  end.

(** The attach methods of a repository fixture, on the promoted slices of
    its embedded directory fixture. *)
Definition RepoFixture_AddRepoFixture (rf : RepoFixture) (t : Tid) (name : string)
    (args : option RepoFixtureArgs) : Eff (RepoFixture * RepoFixture) :=
  let child := newRepoFixture t name args in
  let child := set_repo_DirFixture
                 (set_df_Parent (Some (RepoFixture_ptr rf)) (repo_DirFixture child))
                 child in
  let df := repo_DirFixture rf in
  let rf := set_repo_DirFixture
              (set_df_ChildFixtures (df_ChildFixtures df ++ [RepoChild child]) df) rf in
  ret (rf, child).

Definition RepoFixture_AddDirFixture (rf : RepoFixture) (t : Tid) (name : string)
    (args : option DirFixtureArgs) : Eff (RepoFixture * DirFixture) :=
  let child := newDirFixture t name args in
  let child := set_df_Parent (Some (RepoFixture_ptr rf)) child in
  let df := repo_DirFixture rf in
  let rf := set_repo_DirFixture
              (set_df_ChildFixtures (df_ChildFixtures df ++ [DirChild child]) df) rf in
  ret (rf, child).

Definition RepoFixture_AddFileFixture (rf : RepoFixture) (t : Tid) (name : string)
    (args : option FileFixtureArgs) : Eff (RepoFixture * FileFixture) :=
  let child := newFileFixture t name args in
  let child := with_data (set_ff_Parent (Some (RepoFixture_ptr rf))) child in
  let df := repo_DirFixture rf in
  let rf := set_repo_DirFixture
              (set_df_FileFixtures (df_FileFixtures df ++ [child]) df) rf in
  ret (rf, child).

(** [RepoFixture.AddFileFixtures]: its type switch has no case for
    [dt.Filename], which falls to the default. *)
Fixpoint RepoFixture_AddFileFixtures (rf : RepoFixture) (t : Tid)
    (defaults : option FileFixtureArgs) (args : list any) {struct args}
    : Eff RepoFixture :=
  match args with
  | [] => ret rf
  | f :: args' =>
      rf <- match f with
            | any_RelFilepath ffa =>
                r <- RepoFixture_AddFileFixture rf t ffa defaults ;; ret (fst r)
            | any_FileFixtureArgs None => panic nil_dereference
            | any_FileFixtureArgs (Some ffa) =>
                (if (ffa_Name ffa =? "")%string then
                   t_Fatalf t
                     "Name not set for file fixure being added to project fixture '%s'"
                     [df_Name (repo_DirFixture rf)]
                 else ret tt) ;;
                r <- RepoFixture_AddFileFixture rf t (ffa_Name ffa) (Some ffa) ;;
                ret (fst r)
            | any_Filename v =>
                t_Fatalf t
                  "Invalid type '%T' passed for file fixure being added to project fixture: '%v'"
                  ["dt.Filename"; v]
            | any_other T v =>
                t_Fatalf t
                  "Invalid type '%T' passed for file fixure being added to project fixture: '%v'"
                  [T; v]
            end ;;
      RepoFixture_AddFileFixtures rf t defaults args'
  end.

(** *** root_fixture.go *)

Definition RootFixture_RelativePath (rf : RootFixture) : string := ".".

Definition RootFixture_ensureCreated (rf : RootFixture) : Eff unit :=
  RootFixture_ensureCreated' (rf_DirPrefix rf) (rf_created rf) (rf_t rf).

Definition RootFixture_Dir (rf : RootFixture) : Eff string :=
  RootFixture_ensureCreated rf ;;
  ret (rf_tempDir rf).

Definition RootFixture_createWithParent (rf : RootFixture) (t : Tid)
    (pf : Fixture) : Eff unit :=
  panic "createWithParent is not relevant as RootFixture should be the root".

(** A call of the closure [cleanupFunc]; it reads [rf.tempDir] when it
    runs. *)
Definition call_cleanupFunc (rf : RootFixture) (f : CleanupFunc) : Eff unit :=
  match f with
  | RemoveTempDir t =>
      err <- dt_RemoveAll (rf_tempDir rf) ;;
      when (negb (is_nil err))
        (t_Errorf t "Failed to remove temp directory '%s'; %v"
           [rf_tempDir rf; error_text err])
  end.

Definition RootFixture_Create (rf : RootFixture) (t : Tid) : Eff RootFixture :=
  let rf := set_rf_created true rf in
  r <- dt_MkdirTemp "" (rf_DirPrefix rf ++ "-*") ;;
  let rf := set_rf_tempDir (fst r) rf in
  when (negb (is_nil (snd r)))
    (t_Errorf t "Failed to create temp directory using '%s'; %v"
       [rf_DirPrefix rf ++ "-*"; error_text (snd r)]) ;;
  let rf := set_rf_cleanupFunc (Some (RemoveTempDir t)) rf in
  children <- range (fun cf =>
                       ChildFixture_createWithParent t cf (RootFixture_ptr rf))
                (rf_ChildFixtures rf) ;;
  files <- range (fun ff => FileFixture_Create t ff (RootFixture_ptr rf))
             (rf_FileFixtures rf) ;;
  ret (set_rf_FileFixtures files (set_rf_ChildFixtures children rf)).

Definition NewRootFixture (dirPrefix : string) : RootFixture :=
  mkRootFixture dirPrefix "" [] [] None false None.

Definition RootFixture_AddRepoFixture (rf : RootFixture) (t : Tid) (name : string)
    (args : option RepoFixtureArgs) : Eff (RootFixture * RepoFixture) :=
  let pf := newRepoFixture t name args in
  let pf := set_repo_DirFixture
              (set_df_Parent (Some (RootFixture_ptr rf)) (repo_DirFixture pf)) pf in
  let rf := set_rf_ChildFixtures (rf_ChildFixtures rf ++ [RepoChild pf]) rf in
  ret (rf, pf).

Definition RootFixture_AddDirFixture (rf : RootFixture) (t : Tid) (name : string)
    (args : option DirFixtureArgs) : Eff (RootFixture * DirFixture) :=
  let df := newDirFixture t name args in
  let df := set_df_Parent (Some (RootFixture_ptr rf)) df in
  let rf := set_rf_ChildFixtures (rf_ChildFixtures rf ++ [DirChild df]) rf in
  ret (rf, df).

Definition RootFixture_AddFileFixture (rf : RootFixture) (t : Tid) (name : string)
    (args : option FileFixtureArgs) : Eff (RootFixture * FileFixture) :=
  let ff := newFileFixture t name args in
  let ff := with_data (set_ff_Parent (Some (RootFixture_ptr rf))) ff in
  let rf := set_rf_FileFixtures (rf_FileFixtures rf ++ [ff]) rf in
  ret (rf, ff).

Definition RootFixture_TempDir (rf : RootFixture) : Eff string :=
  RootFixture_ensureCreated rf ;;
  ret (rf_tempDir rf).

Definition RootFixture_Cleanup (rf : RootFixture) : Eff unit :=
  RootFixture_ensureCreated rf ;;
  match rf_cleanupFunc rf with
  | Some f => call_cleanupFunc rf f
  | None => panic nil_dereference
  end.

(** [RemoveFiles] as root_fixture.go has it. *)
Definition RootFixture_RemoveFiles (rf : RootFixture) (t : Tid) : Eff unit :=
  RootFixture_ensureCreated rf ;;
  if (rf_tempDir rf =? "")%string then ret tt
  else if (rf_tempDir rf =? "/")%string then ret tt
  else if (String.length (rf_tempDir rf) <=? String.length "/tmp/x")%nat then ret tt
  else
    err <- dt_RemoveAll (rf_tempDir rf) ;;
    if negb (is_nil err) then
      t_Fatalf t "failed to remove temporary files: %s" [error_text err]
    else ret tt.
End Package.

(** *** src/unnamed/part_003: the revision of root_fixture.go

    It differs from root_fixture.go in [RemoveFiles], which checks the path
    against the file-system root and the temp root before it deletes (and in
    passing the parent to the constructors, which does not change what the
    attach methods build). *)
Module Revised.
Section Guard.
Context {PO : PathOps} {FS : FileSystem}.

Definition RootFixture_RemoveFiles (rf : RootFixture) (t : Tid)
    : M fs_state unit :=
  RootFixture_ensureCreated rf ;;
  if (rf_tempDir rf =? "")%string then ret tt
  else
    let tempDir := DirPath_Clean (rf_tempDir rf) in
    if negb (DirPath_IsAbs tempDir) then ret tt
    else
      let rootDir := DirPath_VolumeName tempDir ++ PathSeparator in
      if (tempDir =? rootDir)%string then ret tt
      else
        let tmpRoot := DirPath_Clean dt_TempDir in
        if (tempDir =? tmpRoot)%string then ret tt
        else
          let (rel, err) := DirPath_Rel tempDir tmpRoot in
          if negb (is_nil err) then ret tt
          else if (rel =? ".")%string then ret tt
          else if PathSegments_HasDotDotPrefix rel then ret tt
          else
            err <- dt_RemoveAll (rf_tempDir rf) ;;
            if negb (is_nil err) then
              t_Fatalf t "failed to remove temporary files %q: %v"
                [tempDir; error_text err]
            else ret tt.
End Guard.
End Revised.

(** ** A platform to run the package on

    The theorems below hold for every [PathOps] and every [FileSystem].
    This instance, the lexical path rules of a Unix system with temp root
    [/tmp] and a file system held in memory, is there to run the package on
    concrete trees. *)

Module Unix.

(** [strings.Split(s, "/")]. *)
Fixpoint segments (s : string) : list string :=
  match s with
  | EmptyString => [""]
  | String c s' =>
      if Ascii.eqb c "/" then "" :: segments s'
      else match segments s' with
           | [] => [String c ""]
           | seg :: rest => String c seg :: rest
           end
  end.

(** The elements a cleaned path keeps, innermost first in [stack]. *)
Fixpoint clean_segments (rooted : bool) (stack segs : list string) : list string :=
  match segs with
  | [] => rev stack
  | seg :: rest =>
      if (seg =? "")%string then clean_segments rooted stack rest
      else if (seg =? ".")%string then clean_segments rooted stack rest
      else if (seg =? "..")%string then
        match stack with
        | top :: stack' =>
            if (top =? "..")%string then clean_segments rooted (".." :: stack) rest
            else clean_segments rooted stack' rest
        | [] =>
            if rooted then clean_segments rooted [] rest
            else clean_segments rooted [".."] rest
        end
      else clean_segments rooted (seg :: stack) rest
  end.

Definition IsAbs (p : string) : bool := String.prefix "/" p.

(** The elements of the cleaned path [p]. *)
Definition elements (p : string) : list string :=
  clean_segments (IsAbs p) [] (segments p).

Definition of_elements (rooted : bool) (l : list string) : string :=
  if rooted then "/" ++ String.concat "/" l
  else match l with [] => "." | _ => String.concat "/" l end.

(** [filepath.Clean]. *)
Definition Clean (p : string) : string := of_elements (IsAbs p) (elements p).

(** [filepath.Join] of two elements. *)
Definition Join (a b : string) : string :=
  if (a =? "")%string then (if (b =? "")%string then "" else Clean b)
  else if (b =? "")%string then Clean a
  else Clean (a ++ "/" ++ b).

(** [filepath.Dir]. *)
Definition Dir (p : string) : string :=
  match rev (segments p) with
  | [] => "."
  | _ :: front =>
      match front with
      | [] => "."
      | _ => Clean (String.concat "/" (rev front) ++ "/")
      end
  end.

(** What is left of two element lists after their common front. *)
Fixpoint strip_common (b t : list string) : list string * list string :=
  match b, t with
  | x :: b', y :: t' => if (x =? y)%string then strip_common b' t' else (b, t)
  | _, _ => (b, t)
  end.

(** [filepath.Rel(base, target)]. *)
Definition Rel (target base : string) : string * error :=
  if (Clean target =? Clean base)%string then (".", None)
  else if negb (Bool.eqb (IsAbs base) (IsAbs target)) then
    ("", Some ("Rel: can't make " ++ target ++ " relative to " ++ base))
  else
    let (b, t) := strip_common (elements base) (elements target) in
    match b with
    | [] => (String.concat "/" t, None)
    | x :: _ =>
        if (x =? "..")%string then
          ("", Some ("Rel: can't make " ++ target ++ " relative to " ++ base))
        else (String.concat "/" (map (fun _ => "..") b ++ t), None)
    end.

Definition HasDotDotPrefix (rel : string) : bool :=
  (rel =? "..")%string || String.prefix "../" rel.

Definition TempDir : string := "/tmp".

#[export] Instance paths : PathOps := {|
  DirPathJoin := Join;
  FilepathJoin := Join;
  Filepath_Dir := Dir;
  DirPath_Clean := Clean;
  DirPath_IsAbs := IsAbs;
  DirPath_VolumeName := fun _ => "";
  PathSeparator := "/";
  dt_TempDir := TempDir;
  DirPath_Rel := Rel;
  PathSegments_HasDotDotPrefix := HasDotDotPrefix
|}.

(** The file system in memory: the directories, the files with their
    content, and a counter for the names [MkdirTemp] makes up. *)
Record MemFs := mkMemFs {
  mem_dirs : list string;
  mem_files : list (string * string);
  mem_next : nat
}.

Definition is_dir (s : MemFs) (p : string) : bool :=
  existsb (String.eqb p) (mem_dirs s).

Definition is_file (s : MemFs) (p : string) : bool :=
  existsb (fun e => String.eqb p (fst e)) (mem_files s).

(** [os.ReadFile]. *)
Definition read (s : MemFs) (p : string) : option string :=
  match find (fun e => String.eqb p (fst e)) (mem_files s) with
  | Some e => Some (snd e)
  | None => None
  end.

Definition has_slash (p : string) : bool :=
  negb (length (segments p) =? 1)%nat.

(** The path and its ancestors, as [MkdirAll] creates them. *)
Fixpoint ancestors (rooted : bool) (front rest : list string) : list string :=
  match rest with
  | [] => []
  | x :: rest' =>
      of_elements rooted (front ++ [x]) :: ancestors rooted (front ++ [x]) rest'
  end.

Definition under (p q : string) : bool :=
  (q =? p)%string || String.prefix (p ++ "/") q.

Definition number (n : nat) : string :=
  DecimalString.NilZero.string_of_uint (Nat.to_uint n).

Definition fs_ok (p : string) : FsResult := mkFsResult p None.
Definition fs_err (op p why : string) : FsResult :=
  mkFsResult "" (Some (op ++ " " ++ p ++ ": " ++ why)).

Definition exec_in (tmp : string) (c : FsCall) (s : MemFs) : FsResult * MemFs :=
  match c with
  | MkdirTemp dir pattern =>
      if has_slash pattern then
        (fs_err "mkdirtemp" pattern "pattern contains path separator", s)
      else
        let base := if (dir =? "")%string then tmp else dir in
        let stem :=
          match rev (list_ascii_of_string pattern) with
          | "*"%char :: front => string_of_list_ascii (rev front)
          | _ => pattern
          end in
        let p := base ++ "/" ++ stem ++ number (mem_next s) in
        (fs_ok p, mkMemFs (p :: mem_dirs s) (mem_files s) (S (mem_next s)))
  | MkdirAll path mode =>
      let p := Clean path in
      if existsb (is_file s) (p :: ancestors (IsAbs p) [] (elements p)) then
        (fs_err "mkdir" path "not a directory", s)
      else
        (fs_ok "",
         mkMemFs (path :: p :: ancestors (IsAbs p) [] (elements p) ++ mem_dirs s)
           (mem_files s) (mem_next s))
  | WriteFile path data mode =>
      if is_dir s path then (fs_err "open" path "is a directory", s)
      else if negb (is_dir s (Dir path)) then
        (fs_err "open" path "no such file or directory", s)
      else
        (fs_ok "",
         mkMemFs (mem_dirs s)
           ((path, data) ::
              filter (fun e => negb (String.eqb path (fst e))) (mem_files s))
           (mem_next s))
  | ChangeFileTimes path atime mtime =>
      if is_file s path || is_dir s path then (fs_ok "", s)
      else (fs_err "chtimes" path "no such file or directory", s)
  | RemoveAll path =>
      (fs_ok "",
       mkMemFs (filter (fun d => negb (under path d)) (mem_dirs s))
         (filter (fun e => negb (under path (fst e))) (mem_files s))
         (mem_next s))
  end.

Definition exec : FsCall -> MemFs -> FsResult * MemFs := exec_in TempDir.

#[export] Instance fs : FileSystem := {|
  fs_state := MemFs;
  fs_exec := exec;
  fs_IsDir := is_dir
|}.

(** The same system with the environment's temp directory set to [tmp]
    (the variable TMPDIR), as [os.TempDir] and [os.MkdirTemp] read it. *)
Definition paths_in (tmp : string) : PathOps := {|
  DirPathJoin := Join;
  FilepathJoin := Join;
  Filepath_Dir := Dir;
  DirPath_Clean := Clean;
  DirPath_IsAbs := IsAbs;
  DirPath_VolumeName := fun _ => "";
  PathSeparator := "/";
  dt_TempDir := tmp;
  DirPath_Rel := Rel;
  PathSegments_HasDotDotPrefix := HasDotDotPrefix
|}.

Definition fs_in (tmp : string) : FileSystem := {|
  fs_state := MemFs;
  fs_exec := exec_in tmp;
  fs_IsDir := is_dir
|}.

(** A disk with the temp root and nothing else. *)
Definition empty_disk : MemFs := mkMemFs ["/tmp"; "/"] [] 0.

(** A disk where every removal is denied. *)
Definition denying_exec (c : FsCall) (s : MemFs) : FsResult * MemFs :=
  match c with
  | RemoveAll path => (fs_err "unlinkat" path "permission denied", s)
  | _ => exec c s
  end.

Definition denying_fs : FileSystem := {|
  fs_state := MemFs;
  fs_exec := denying_exec;
  fs_IsDir := is_dir
|}.

End Unix.

(** ** Vocabulary of the statements *)

(** [m], started in [s], returns [a] in state [s'] after the events [e]. *)
Definition returns {S A} (m : M S A) (s : S) (a : A) (s' : S) (e : list Event) : Prop :=
  m s = mkRun (Ok a) s' e.

(** The events of [if b { t.Errorf(format, args...) }]. *)
Definition report_if (b : bool) (t : Tid) (format : string) (args : list string)
    : list Event :=
  if b then [Reported (mkReport false t format args)] else [].

(** Equality of calls, and where a call stands among others. *)
Definition FsCall_eqb (a b : FsCall) : bool :=
  match a, b with
  | MkdirTemp d1 p1, MkdirTemp d2 p2 => ((d1 =? d2) && (p1 =? p2))%string
  | MkdirAll p1 m1, MkdirAll p2 m2 => (p1 =? p2)%string && (m1 =? m2)%Z
  | WriteFile p1 d1 m1, WriteFile p2 d2 m2 =>
      ((p1 =? p2) && (d1 =? d2))%string && (m1 =? m2)%Z
  | ChangeFileTimes p1 a1 m1, ChangeFileTimes p2 a2 m2 =>
      (p1 =? p2)%string && (a1 =? a2)%Z && (m1 =? m2)%Z
  | RemoveAll p1, RemoveAll p2 => (p1 =? p2)%string
  | _, _ => false
  end.

Fixpoint position (a : FsCall) (l : list FsCall) : option nat :=
  match l with
  | [] => None
  | c :: l' =>
      if FsCall_eqb c a then Some O
      else match position a l' with Some i => Some (S i) | None => None end
  end.

(** Both calls were made, [a] before [b]. *)
Definition precedes (a b : FsCall) (l : list FsCall) : bool :=
  match position a l, position b l with
  | Some i, Some j => (i <? j)%nat
  | _, _ => false
  end.

(** [b] is the call made right after [a]. *)
Definition follows_at_once (a b : FsCall) (l : list FsCall) : bool :=
  match position a l with
  | Some i =>
      match nth_error l (S i) with
      | Some c => FsCall_eqb c b
      | None => false
      end
  | None => false
  end.

Section Vocabulary.
Context {PO : PathOps} {FS : FileSystem}.

(** The leaf as [Create] hands it to [createFile]: marked created, attached
    to [pf], with its path resolved under the parent's directory [d]. *)
Definition FileFixture_resolved (ff : FileFixture) (pf : Fixture) (d : string)
    : FileFixture :=
  with_data (set_ff_Filepath (FilepathJoin d (ff_Name ff)))
    (with_data (set_ff_Parent (Some pf)) (with_data (set_ff_created true) ff)).

(** The content of a leaf once its content function, if any, has run. *)
Definition FileFixture_content (ff : FileFixture) : string :=
  match ff_ContentFunc ff with
  | Some f => f (ff_data ff)
  | None => ff_Content ff
  end.

(** The leaf as [createFile] leaves it. *)
Definition createFile_result (ff : FileFixture) : FileFixture :=
  if ff_DoNotCreate ff then ff
  else match ff_ContentFunc ff with
       | Some f => with_data (set_ff_Content (f (ff_data ff))) ff
       | None => ff
       end.

(** The file-system calls of [createFile], in order. *)
Definition createFile_calls (ff : FileFixture) : list FsCall :=
  if ff_DoNotCreate ff then []
  else
    [MkdirAll (Filepath_Dir (ff_Filepath ff)) (FileMode (ff_DirPermissions ff));
     WriteFile (ff_Filepath ff) (FileFixture_content ff)
       (FileMode (ff_Permissions ff))]
    ++ (if IsZero (ff_ModifiedTime ff) then []
        else [ChangeFileTimes (ff_Filepath ff) (ff_ModifiedTime ff)
                (ff_ModifiedTime ff)]).

(** The [WriteFile] calls among file-system calls. *)
Definition writes (l : list FsCall) : list FsCall :=
  filter (fun c => match c with WriteFile _ _ _ => true | _ => false end) l.

(** The guard of the specification on a path [p]: non-empty; once cleaned,
    absolute, not the root of its volume, not the temp root; and its
    relation to the temp root is computed, is not the temp root itself and
    does not climb out of it. *)
Definition deletion_permitted (p : string) : Prop :=
  p <> "" /\
  DirPath_IsAbs (DirPath_Clean p) = true /\
  DirPath_Clean p <> (DirPath_VolumeName (DirPath_Clean p) ++ PathSeparator)%string /\
  DirPath_Clean p <> DirPath_Clean dt_TempDir /\
  exists rel,
    DirPath_Rel (DirPath_Clean p) (DirPath_Clean dt_TempDir) = (rel, None) /\
    rel <> "." /\
    PathSegments_HasDotDotPrefix rel = false.

(** What root_fixture.go checks instead. *)
Definition longer_than_tmp_x (p : string) : bool :=
  negb (p =? "")%string && negb (p =? "/")%string &&
  negb (String.length p <=? String.length "/tmp/x")%nat.

(** A removal that the file system refused is among the events. *)
Definition removal_failed (e : list Event) : Prop :=
  exists p r, In (FsCalled (RemoveAll p) r) e /\ res_err r <> None.

(** The run that stops test [t] in state [s] with the fatal report of an
    [ensureCreated], and the run that panics on a nil pointer. *)
Definition stopped {A} (t : Tid) (kind name : string) (s : fs_state)
    : Run fs_state A :=
  mkRun (FailNow t) s
    [Reported (mkReport true t (kind ++ " '%s' has not yet been created") [name])].

Definition panicked {A} (s : fs_state) : Run fs_state A :=
  mkRun (Panic nil_dereference) s [].

(** The run of either [RemoveFiles] on a created root: a refusal, or the
    removal followed, when it failed, by a fatal report that stops the
    test. *)
Definition removal_run (rf : RootFixture) (t : Tid) (format : string)
    (args : error -> list string) (s : fs_state) : Run fs_state unit :=
  let r := fst (fs_exec (RemoveAll (rf_tempDir rf)) s) in
  let s' := snd (fs_exec (RemoveAll (rf_tempDir rf)) s) in
  match res_err r with
  | None => mkRun (Ok tt) s' [FsCalled (RemoveAll (rf_tempDir rf)) r]
  | Some _ =>
      mkRun (FailNow t) s'
        [FsCalled (RemoveAll (rf_tempDir rf)) r;
         Reported (mkReport true t format (args (res_err r)))]
  end.

(** The call does not return: it stops the test with a fatal report, or
    the program panics. *)
Definition aborts {A} (r : Run fs_state A) : Prop :=
  match out r with
  | Ok _ => False
  | FailNow t =>
      exists format args, In (Reported (mkReport true t format args)) (evs r)
  | Panic _ => True
  end.

(** The call did not end in a panic. *)
Definition no_panic {A} (o : Outcome A) : Prop :=
  match o with Panic _ => False | _ => True end.
End Vocabulary.


(** ** Vocabulary for trees *)

(** [P] holds of every element; a function, so that it can take a
    recursive call on the children of a fixture. *)
Fixpoint All {A} (P : A -> Prop) (l : list A) : Prop :=
  match l with
  | [] => True
  | x :: l' => P x /\ All P l'
  end.

Section Trees.
Context {PO : PathOps} {FS : FileSystem}.

(** The [Parent] field [p] points to a fixture whose relative path is
    [prel]. *)
Definition Parent_at (prel : string) (p : option Fixture) : Prop :=
  exists parent, p = Some parent /\ Fixture_RelativePath parent = Some prel.

(** A fixture as the attach methods leave it below a fixture whose relative
    path is [prel]: its [Parent] is that fixture, its [t] is the test it
    was built in, and the same holds of the fixtures attached to it. *)
Fixpoint DirFixture_attached (prel : string) (df : DirFixture) : Prop :=
  Parent_at prel (df_Parent df) /\
  df_t df <> None /\
  All (ChildFixture_attached (DirPathJoin prel (df_Name df))) (df_ChildFixtures df)
with ChildFixture_attached (prel : string) (c : ChildFixture) : Prop :=
  match c with
  | DirChild df => DirFixture_attached prel df
  | RepoChild rf => RepoFixture_attached prel rf
  end
with RepoFixture_attached (prel : string) (rf : RepoFixture) : Prop :=
  DirFixture_attached prel (repo_DirFixture rf).

Definition RootFixture_attached (rf : RootFixture) : Prop :=
  All (ChildFixture_attached ".") (rf_ChildFixtures rf).

(** The path relations of a leaf under a parent with directory [pdir] and
    relative path [prel]. *)
Definition FileFixture_paths (pdir prel : string) (ff : FileFixture) : Prop :=
  ff_Filepath ff = FilepathJoin pdir (ff_Name ff) /\
  FileFixture_RelativePath ff = Some (FilepathJoin prel (ff_Name ff)).

(** The path relations of a directory or repository fixture under such a
    parent, and of everything below it. *)
Fixpoint DirFixture_paths (pdir prel : string) (df : DirFixture) : Prop :=
  df_dir df = DirPathJoin pdir (df_Name df) /\
  DirFixture_RelativePath df = Some (DirPathJoin prel (df_Name df)) /\
  All (FileFixture_paths (df_dir df) (DirPathJoin prel (df_Name df)))
    (df_FileFixtures df) /\
  All (ChildFixture_paths (df_dir df) (DirPathJoin prel (df_Name df)))
    (df_ChildFixtures df)
with ChildFixture_paths (pdir prel : string) (c : ChildFixture) : Prop :=
  match c with
  | DirChild df => DirFixture_paths pdir prel df
  | RepoChild rf => RepoFixture_paths pdir prel rf
  end
with RepoFixture_paths (pdir prel : string) (rf : RepoFixture) : Prop :=
  RepoFixture_RelativePath rf =
    Some (DirPathJoin prel (df_Name (repo_DirFixture rf))) /\
  DirFixture_paths pdir prel (repo_DirFixture rf).

(** [RepoFixture.GitPath] of every repository below a fixture. *)
Fixpoint DirFixture_markers (df : DirFixture) : list string :=
  flat_map ChildFixture_markers (df_ChildFixtures df)
with ChildFixture_markers (c : ChildFixture) : list string :=
  match c with
  | DirChild df => DirFixture_markers df
  | RepoChild rf => RepoFixture_markers rf
  end
with RepoFixture_markers (rf : RepoFixture) : list string :=
  DirPathJoin (df_dir (repo_DirFixture rf)) ".git"
    :: DirFixture_markers (repo_DirFixture rf).

Definition RootFixture_markers (rf : RootFixture) : list string :=
  flat_map ChildFixture_markers (rf_ChildFixtures rf).

(** Where the markers of the repositories below a fixture belong, before
    anything is created: under a parent whose directory is [d], by the
    names of the tree. *)
Fixpoint DirFixture_marker_paths (d : string) (df : DirFixture) : list string :=
  flat_map (ChildFixture_marker_paths (DirPathJoin d (df_Name df)))
    (df_ChildFixtures df)
with ChildFixture_marker_paths (d : string) (c : ChildFixture) : list string :=
  match c with
  | DirChild df => DirFixture_marker_paths d df
  | RepoChild rf => RepoFixture_marker_paths d rf
  end
with RepoFixture_marker_paths (d : string) (rf : RepoFixture) : list string :=
  DirPathJoin (DirPathJoin d (df_Name (repo_DirFixture rf))) ".git"
    :: DirFixture_marker_paths d (repo_DirFixture rf).

(** The events [e] lead the file system from [s] to [s']: every call in
    them got the answer the file system gives in the state it was made
    in. *)
Inductive trace_ok : fs_state -> list Event -> fs_state -> Prop :=
| trace_nil s : trace_ok s [] s
| trace_report s r e s' : trace_ok s e s' -> trace_ok s (Reported r :: e) s'
| trace_call s c e s' :
    trace_ok (snd (fs_exec c s)) e s' ->
    trace_ok s (FsCalled c (fst (fs_exec c s)) :: e) s'.

(** No removal among the events. *)
Definition no_removal (e : list Event) : Prop :=
  forall p r, ~ In (FsCalled (RemoveAll p) r) e.

(** A computation whose events account for its effect on the file system
    and that removes nothing. *)
Definition faithful {A} (m : M fs_state A) : Prop :=
  forall s, trace_ok s (evs (m s)) (st (m s)) /\ no_removal (evs (m s)).

(** What the statements on the content of the disk ask of a file system: a
    [MkdirAll] that succeeds leaves a directory at its path, and only a
    removal makes a directory disappear. *)
Definition lawful : Prop :=
  (forall p m s,
     res_err (fst (fs_exec (MkdirAll p m) s)) = None ->
     fs_IsDir (snd (fs_exec (MkdirAll p m) s)) p = true) /\
  (forall c s p,
     (forall q, c <> RemoveAll q) ->
     fs_IsDir s p = true -> fs_IsDir (snd (fs_exec c s)) p = true).

(** The marker of every repository in [markers] was asked for during [e],
    with the default permissions. *)
Definition markers_called (markers : list string) (e : list Event) : Prop :=
  forall p, In p markers -> exists r, In (FsCalled (MkdirAll p perm_0755) r) e.

(** A directory fixture as [createWithParent] has resolved it under the
    parent's directory [d], and a root as [Create] has resolved it on the
    temp directory [tempDir]. *)
Definition DirFixture_resolved (df : DirFixture) (d : string) : DirFixture :=
  set_df_dir (DirPathJoin d (df_Name df)) (set_df_created true df).

Definition RootFixture_resolved (rf : RootFixture) (t : Tid) (tempDir : string)
    : RootFixture :=
  set_rf_cleanupFunc (Some (RemoveTempDir t))
    (set_rf_tempDir tempDir (set_rf_created true rf)).

(** The order of the calls of a directory fixture created under a parent
    whose directory is [d]: its own directory, then its file leaves, then
    its children. *)
Definition dir_then_files_then_children (t : Tid) (df : DirFixture)
    (pf : Fixture) (d : string) (s : fs_state) : Prop :=
  let df1 := DirFixture_resolved df d in
  let own := MkdirAll (df_dir df1) (FileMode (df_Permissions df)) in
  let files :=
    range (fun file => FileFixture_Create t file (DirFixture_ptr df1))
      (df_FileFixtures df) (snd (fs_exec own s)) in
  let children :=
    range (fun child => ChildFixture_createWithParent t child (DirFixture_ptr df1))
      (df_ChildFixtures df) (st files) in
  fs_calls (evs (DirFixture_createWithParent t df pf s)) =
    own :: fs_calls (evs files) ++ fs_calls (evs children).

(** The order of the calls of the root: its temp directory, then its
    children, then its file leaves. *)
Definition root_then_children_then_files (rf : RootFixture) (t : Tid)
    (s : fs_state) : Prop :=
  let own := MkdirTemp "" (rf_DirPrefix rf ++ "-*") in
  let rf1 := RootFixture_resolved rf t (res_path (fst (fs_exec own s))) in
  let children :=
    range (fun cf => ChildFixture_createWithParent t cf (RootFixture_ptr rf1))
      (rf_ChildFixtures rf) (snd (fs_exec own s)) in
  let files :=
    range (fun ff => FileFixture_Create t ff (RootFixture_ptr rf1))
      (rf_FileFixtures rf) (st children) in
  fs_calls (evs (RootFixture_Create rf t s)) =
    own :: fs_calls (evs children) ++ fs_calls (evs files).

(** [Create] returns; the repositories of the tree it returns have their
    markers where the names of the tree it was given put them, under the
    temp directory; the marker of every one of them was asked for with
    permissions 0755; a marker whose creation succeeded is a directory in
    the state [Create] leaves, and one whose creation failed was reported
    at once with [t.Errorf]. *)
Definition markers_made (rf : RootFixture) (t : Tid) (s : fs_state) : Prop :=
  let tempDir :=
    res_path (fst (fs_exec (MkdirTemp "" (rf_DirPrefix rf ++ "-*")) s)) in
  exists rf' s' e,
    returns (RootFixture_Create rf t) s rf' s' e /\
    RootFixture_markers rf' =
      flat_map (ChildFixture_marker_paths tempDir) (rf_ChildFixtures rf) /\
    forall p,
      In p (flat_map (ChildFixture_marker_paths tempDir) (rf_ChildFixtures rf)) ->
      exists r,
        In (FsCalled (MkdirAll p perm_0755) r) e /\
        (res_err r = None -> fs_IsDir s' p = true) /\
        (res_err r <> None ->
         exists e1 format args e2,
           e = (e1 ++ FsCalled (MkdirAll p perm_0755) r
                   :: Reported (mkReport false t format args) :: e2)%list).

(** At a repository created under a parent whose directory is [d], the
    embedded directory fixture is created first, with its file leaves and
    its children, at the parent's directory joined with its name; what
    follows is the creation of [.git] under that path and, if it failed,
    its report with [t.Errorf], and nothing else. *)
Definition marker_is_last_call (t : Tid) (repo : RepoFixture) (pf : Fixture)
    (d : string) (s : fs_state) : Prop :=
  let dir := DirPathJoin d (df_Name (repo_DirFixture repo)) in
  let marker := MkdirAll (DirPathJoin dir ".git") perm_0755 in
  exists df' s1 e1,
    returns (DirFixture_createWithParent t (repo_DirFixture repo) pf) s
      df' s1 e1 /\
    df_dir df' = dir /\
    exists rf',
      returns (RepoFixture_createWithParent t repo pf) s rf'
        (snd (fs_exec marker s1))
        (e1 ++
         FsCalled marker (fst (fs_exec marker s1))
         :: report_if (negb (is_nil (res_err (fst (fs_exec marker s1))))) t
              "Failed to create .git directory within %s; %v"
              [dir; error_text (res_err (fst (fs_exec marker s1)))]) /\
      repo_DirFixture rf' = df' /\
      RepoFixture_markers rf' =
        DirPathJoin dir ".git" :: DirFixture_markers df'.

(** The methods that attach a repository return without an event. *)
Definition attaching_makes_no_call (rf : RootFixture) (repo : RepoFixture)
    (t : Tid) (s : fs_state) : Prop :=
  forall name args,
    (exists r, returns (RootFixture_AddRepoFixture rf t name args) s r s []) /\
    (exists r, returns (DirFixture_AddRepoFixture (repo_DirFixture repo) t name args)
                 s r s []) /\
    (exists r, returns (RepoFixture_AddRepoFixture repo t name args) s r s []).

Definition RootFixture_paths (rf : RootFixture) : Prop :=
  RootFixture_RelativePath rf = "." /\
  All (FileFixture_paths (rf_tempDir rf) ".") (rf_FileFixtures rf) /\
  All (ChildFixture_paths (rf_tempDir rf) ".") (rf_ChildFixtures rf).
End Trees.

(** ** Vocabulary of the further properties *)

Section Further.
Context {PO : PathOps} {FS : FileSystem}.

(** The [created] flag of the fixture a [Fixture] value points to. *)
Definition Fixture_created (pf : Fixture) : bool :=
  match pf with
  | RootFixturePtr _ _ created _
  | DirFixturePtr _ _ created _ _
  | RepoFixturePtr _ _ created _ _ => created
  end.

(** The events of a run that goes on after every failure: calls that
    succeeded, calls that failed, each followed at once by a [t.Errorf] of
    test [t], and warnings about a permission field that is zero. *)
Inductive orderly (t : Tid) : list Event -> Prop :=
| orderly_nil : orderly t []
| orderly_succeeded c r e :
    res_err r = None -> orderly t e -> orderly t (FsCalled c r :: e)
| orderly_failed c r format args e :
    res_err r <> None -> orderly t e ->
    orderly t (FsCalled c r :: Reported (mkReport false t format args) :: e)
| orderly_warning args e :
    orderly t e ->
    orderly t
      (Reported (mkReport false t "File permissions not set for %s" args) :: e).

(** A computation that goes on after every failure and never stops the
    test. *)
Definition steady {A} (t : Tid) (m : M fs_state A) : Prop :=
  forall s, orderly t (evs (m s)) /\ forall t', out (m s) <> FailNow t'.

(** A [MkdirTemp] that succeeds leaves a directory at the path it
    returns. *)
Definition MkdirTemp_lawful : Prop :=
  forall dir pattern s,
    res_err (fst (fs_exec (MkdirTemp dir pattern) s)) = None ->
    fs_IsDir (snd (fs_exec (MkdirTemp dir pattern) s))
      (res_path (fst (fs_exec (MkdirTemp dir pattern) s))) = true.

(** The result of a call is an error. *)
Definition call_failed (r : FsResult) : bool := negb (is_nil (res_err r)).

(** The file-system calls of the creation of a directory fixture under a
    parent whose directory is [d]: its own directory, its file leaves in
    the order of the slice, its children in the order of the slice; a
    repository ends with its marker. *)
Fixpoint DirFixture_calls (d : string) (df : DirFixture) : list FsCall :=
  let dir := DirPathJoin d (df_Name df) in
  let pf := DirFixturePtr (df_Name df) dir true (df_t df) (df_Parent df) in
  MkdirAll dir (FileMode (df_Permissions df))
  :: flat_map (fun ff => createFile_calls (FileFixture_resolved ff pf dir))
       (df_FileFixtures df)
  ++ flat_map (ChildFixture_calls dir) (df_ChildFixtures df)
with ChildFixture_calls (d : string) (c : ChildFixture) : list FsCall :=
  match c with
  | DirChild df => DirFixture_calls d df
  | RepoChild rf => RepoFixture_calls d rf
  end
with RepoFixture_calls (d : string) (rf : RepoFixture) : list FsCall :=
  DirFixture_calls d (repo_DirFixture rf)
  ++ [MkdirAll (DirPathJoin (DirPathJoin d (df_Name (repo_DirFixture rf))) ".git")
        perm_0755].

(** The calls of [Create] on a root whose temp directory comes out as
    [tempDir]. *)
Definition RootFixture_calls (rf : RootFixture) (t : Tid) (tempDir : string)
    : list FsCall :=
  let pf := RootFixture_ptr (RootFixture_resolved rf t tempDir) in
  MkdirTemp "" (rf_DirPrefix rf ++ "-*")
  :: flat_map (ChildFixture_calls tempDir) (rf_ChildFixtures rf)
  ++ flat_map (fun ff => createFile_calls (FileFixture_resolved ff pf tempDir))
       (rf_FileFixtures rf).

(** Every fixture below [df] holds a test context: none of them was built
    as a struct literal with a nil [t]. *)
Fixpoint DirFixture_has_t (df : DirFixture) : Prop :=
  df_t df <> None /\ All ChildFixture_has_t (df_ChildFixtures df)
with ChildFixture_has_t (c : ChildFixture) : Prop :=
  match c with
  | DirChild df => DirFixture_has_t df
  | RepoChild rf => RepoFixture_has_t rf
  end
with RepoFixture_has_t (rf : RepoFixture) : Prop :=
  DirFixture_has_t (repo_DirFixture rf).

Definition RootFixture_has_t (rf : RootFixture) : Prop :=
  All ChildFixture_has_t (rf_ChildFixtures rf).

(** A warning about a permission field that is zero is among the
    events. *)
Definition permission_warning (e : list Event) : bool :=
  existsb (fun ev => match ev with
                     | Reported rp =>
                         (rp_format rp =? "File permissions not set for %s")%string
                     | FsCalled _ _ => false
                     end) e.

(** The shape of a tree: for every directory and repository its kind, its
    name, the names of its file leaves and the shapes of its children, each
    in the order of the slice. *)
Inductive Shape :=
| ShapeDir (repo : bool) (name : string) (files : list string)
    (children : list Shape).

Fixpoint DirFixture_shape (repo : bool) (df : DirFixture) : Shape :=
  ShapeDir repo (df_Name df) (map (fun ff : FileFixture => ff_Name ff)
                                (df_FileFixtures df))
    (map ChildFixture_shape (df_ChildFixtures df))
with ChildFixture_shape (c : ChildFixture) : Shape :=
  match c with
  | DirChild df => DirFixture_shape false df
  | RepoChild rf => RepoFixture_shape rf
  end
with RepoFixture_shape (rf : RepoFixture) : Shape :=
  DirFixture_shape true (repo_DirFixture rf).

(** What the type switch of [DirFixture.AddFileFixtures] makes of an
    argument: the name and the args of the leaf to attach, or nothing where
    the call does not return.  [RepoFixture.AddFileFixtures] has one case
    less. *)
Definition DirFixture_accepts (defaults : option FileFixtureArgs) (f : any)
    : option (string * option FileFixtureArgs) :=
  match f with
  | any_Filename v | any_RelFilepath v => Some (v, defaults)
  | any_FileFixtureArgs (Some ffa) =>
      if (ffa_Name ffa =? "")%string then None else Some (ffa_Name ffa, Some ffa)
  | any_FileFixtureArgs None | any_other _ _ => None
  end.

Definition RepoFixture_accepts (defaults : option FileFixtureArgs) (f : any)
    : option (string * option FileFixtureArgs) :=
  match f with
  | any_Filename _ => None
  | _ => DirFixture_accepts defaults f
  end.

(** The leaf [AddFileFixture] builds for a name and args, attached to the
    fixture [pf]. *)
Definition attached_leaf (t : Tid) (pf : Fixture)
    (leaf : string * option FileFixtureArgs) : FileFixture :=
  with_data (set_ff_Parent (Some pf)) (newFileFixture t (fst leaf) (snd leaf)).

(** The leaves attached for a list of arguments, as far as they are
    accepted. *)
Definition attached_leaves (t : Tid) (pf : Fixture)
    (accepts : any -> option (string * option FileFixtureArgs)) (args : list any)
    : list FileFixture :=
  flat_map (fun f => match accepts f with
                     | Some leaf => [attached_leaf t pf leaf]
                     | None => []
                     end) args.

(** How [AddFileFixtures] ends on an argument it does not accept, for the
    fixture kind named [kind] in the report. *)
Definition rejected {A} (t : Tid) (kind name : string) (f : any) (s : fs_state)
    : Run fs_state A :=
  match f with
  | any_FileFixtureArgs None => mkRun (Panic nil_dereference) s []
  | any_FileFixtureArgs (Some _) =>
      mkRun (FailNow t) s
        [Reported (mkReport true t
           ("Name not set for file fixure being added to " ++ kind ++ " fixture '%s'")
           [name])]
  | any_Filename v =>
      mkRun (FailNow t) s
        [Reported (mkReport true t
           ("Invalid type '%T' passed for file fixure being added to " ++ kind
            ++ " fixture: '%v'")
           ["dt.Filename"; v])]
  | any_RelFilepath v =>
      mkRun (FailNow t) s
        [Reported (mkReport true t
           ("Invalid type '%T' passed for file fixure being added to " ++ kind
            ++ " fixture: '%v'")
           ["dt.RelFilepath"; v])]
  | any_other T v =>
      mkRun (FailNow t) s
        [Reported (mkReport true t
           ("Invalid type '%T' passed for file fixure being added to " ++ kind
            ++ " fixture: '%v'")
           [T; v])]
  end.
End Further.

(** ** test/fuzz_test.go: the helpers of the corpus regression test *)

Module Corpus.

(** [string(data)] of a byte slice is the same bytes. *)
Definition extractStringFromCorpus (data : string) : string :=
  let str := data in
  if (0 <? String.length str)%nat then str else "".

Definition extractMultipleFromCorpus (data : string) : list string :=
  let str := extractStringFromCorpus data in
  [str].

End Corpus.

(** ** Scenarios

    Concrete fixtures, built with the attach methods.  In Go the handle an
    attach method returns and the pointer in the parent's slice are one
    object; here a child that was extended through its handle is stored
    back into its parent. *)

Module Scenario.
Import Unix.

Definition t : Tid := 1%nat.

(** A root as [Create] leaves it on the empty disk. *)
Definition created_root : Fixture :=
  RootFixturePtr "my-test" "/tmp/my-test-0" true None.

Definition missing_go : FileFixture :=
  newFileFixture t "missing.go"
    (Some (mkFileFixtureArgs "" "" None 0 0 0 true None)).

(** The content function of the dynamic-content example, for file 2; and a
    content function that reports the path of its leaf. *)
Definition text_file_2 : ContentFunc := fun _ => "Text File #2
".

Definition own_path : ContentFunc := fun ff => ("I am " ++ ff_Filepath ff)%string.

Definition file_2 : FileFixture :=
  newFileFixture t "file-2.txt"
    (Some (mkFileFixtureArgs "" "" (Some text_file_2) 0 0 0 false None)).

Definition self_aware : FileFixture :=
  newFileFixture t "me.txt"
    (Some (mkFileFixtureArgs "" "" (Some own_path) 0 0 0 false None)).


(** A root whose temp directory was made while TMPDIR was the relative
    directory [scratch]. *)
Definition relative_root : RootFixture :=
  mkRootFixture "my-test" "scratch/my-test-0" [] [] (Some (RemoveTempDir t))
    true None.

(** The root [NewRootFixture "my-test"] as [Create] returns it on the empty
    disk, with the disk and the events of that call. *)
Definition my_test : RootFixture :=
  mkRootFixture "my-test" "/tmp/my-test-0" [] [] (Some (RemoveTempDir t)) true None.

Definition my_test_disk : MemFs := mkMemFs ["/tmp/my-test-0"; "/tmp"; "/"] [] 1.

Definition my_test_events : list Event :=
  [FsCalled (MkdirTemp "" "my-test-*") (mkFsResult "/tmp/my-test-0" None)].

(** Storing a child back where the attach method put it. *)
Definition RootFixture_store (c : ChildFixture) (rf : RootFixture) : RootFixture :=
  set_rf_ChildFixtures (removelast (rf_ChildFixtures rf) ++ [c]) rf.

Definition RepoFixture_store (c : ChildFixture) (rf : RepoFixture) : RepoFixture :=
  let df := repo_DirFixture rf in
  set_repo_DirFixture
    (set_df_ChildFixtures (removelast (df_ChildFixtures df) ++ [c]) df) rf.

(** The tree

      my-test-*/
        test.json            "test data"
        proj/                a repository
          main.txt           "hi"
          src/
            missing.go       not to be created
            file-2.txt       from a content function  *)
Definition build_tree : M MemFs RootFixture :=
  let tf := NewRootFixture "my-test" in
  a <- RootFixture_AddFileFixture tf t "test.json"
         (Some (mkFileFixtureArgs "" "test data" None 0 0 0 false None)) ;;
  b <- RootFixture_AddRepoFixture (fst a) t "proj" None ;;
  c <- RepoFixture_AddFileFixture (snd b) t "main.txt"
         (Some (mkFileFixtureArgs "" "hi" None 0 0 0 false None)) ;;
  d <- RepoFixture_AddDirFixture (fst c) t "src" None ;;
  e <- DirFixture_AddFileFixture (snd d) t "missing.go"
         (Some (mkFileFixtureArgs "" "" None 0 0 0 true None)) ;;
  f <- DirFixture_AddFileFixture (fst e) t "file-2.txt"
         (Some (mkFileFixtureArgs "" "" (Some text_file_2) 0 0 0 false None)) ;;
  let pf := RepoFixture_store (DirChild (fst f)) (fst d) in
  ret (RootFixture_store (RepoChild pf) (fst b)).

(** A repository with a file leaf named [.git], as a work tree has it. *)
Definition build_worktree : M MemFs RootFixture :=
  let tf := NewRootFixture "my-test" in
  b <- RootFixture_AddRepoFixture tf t "proj" None ;;
  c <- RepoFixture_AddFileFixture (snd b) t ".git"
         (Some (mkFileFixtureArgs "" "gitdir: elsewhere" None 0 0 0 false None)) ;;
  ret (RootFixture_store (RepoChild (fst c)) (fst b)).

Definition worktree : RootFixture :=
  match out (build_worktree empty_disk) with
  | Ok rf => rf
  | _ => NewRootFixture "my-test"
  end.

Definition tree : RootFixture :=
  match out (build_tree empty_disk) with
  | Ok rf => rf
  | _ => NewRootFixture "my-test"
  end.

(** A leaf written as a struct literal, with no permissions and no test
    context, handed over in [DirFixtureArgs.Files]; and a root with a
    directory built from it. *)
Definition raw_leaf : FileFixture :=
  mkFileFixture (mkFileData "" "raw.txt" "raw" 0 0 0 false None false None) None.

Definition build_raw_tree : M MemFs RootFixture :=
  let tf := NewRootFixture "my-test" in
  a <- RootFixture_AddDirFixture tf t "d"
         (Some (mkDirFixtureArgs [raw_leaf] 0 0 None)) ;;
  ret (fst a).

Definition raw_tree : RootFixture :=
  match out (build_raw_tree empty_disk) with
  | Ok rf => rf
  | _ => NewRootFixture "my-test"
  end.

(** A root whose prefix holds a path separator (one of the seeds of
    FuzzNewRootFixture), with one directory. *)
Definition build_nested_prefix : M MemFs RootFixture :=
  let tf := NewRootFixture "test/nested" in
  a <- RootFixture_AddDirFixture tf t "d" None ;;
  ret (fst a).

Definition nested_prefix : RootFixture :=
  match out (build_nested_prefix empty_disk) with
  | Ok rf => rf
  | _ => NewRootFixture "test/nested"
  end.

(** The repository [proj] of the tree, before creation. *)
Definition proj : RepoFixture :=
  match rf_ChildFixtures tree with
  | RepoChild rf :: _ => rf
  | _ => newRepoFixture t "proj" None
  end.

(** The directory [src] of that repository. *)
Definition src : DirFixture :=
  match df_ChildFixtures (repo_DirFixture proj) with
  | DirChild df :: _ => df
  | _ => newDirFixture t "src" None
  end.

End Scenario.
(** * Properties *)

Open Scope list_scope.

(** ** Runs of the monad *)

Section Runs.
Context {S : Type}.

Lemma returns_ret {A} (a : A) (s : S) : returns (ret a) s a s [].
Proof. reflexivity. Qed.

Lemma returns_bind {A B} (m : M S A) (k : A -> M S B) s a s1 e1 b s2 e2 :
  returns m s a s1 e1 ->
  returns (k a) s1 b s2 e2 ->
  returns (bind m k) s b s2 (e1 ++ e2).
Proof.
  unfold returns, bind. intros Hm Hk. rewrite Hm. simpl. rewrite Hk. reflexivity.
Qed.

Lemma returns_bind_inv {A B} (m : M S A) (k : A -> M S B) s b s2 e :
  returns (bind m k) s b s2 e ->
  exists a s1 e1 e2,
    returns m s a s1 e1 /\ returns (k a) s1 b s2 e2 /\ e = e1 ++ e2.
Proof.
  unfold returns, bind. intros H.
  destruct (m s) as [o s1 e1]. simpl in H.
  destruct o as [a | t | msg]; try discriminate.
  destruct (k a s1) as [o' s' e'] eqn:Hk. simpl in H.
  inversion H; subst. exists a, s1, e1, e'. auto.
Qed.

Lemma bind_run {A B} (m : M S A) (k : A -> M S B) s a s1 e1 :
  returns m s a s1 e1 ->
  bind m k s = mkRun (out (k a s1)) (st (k a s1)) (e1 ++ evs (k a s1)).
Proof. unfold returns, bind. intros ->. reflexivity. Qed.

Lemma bind_ret_l {A B} (a : A) (k : A -> M S B) s : bind (ret a) k s = k a s.
Proof. unfold bind, ret. simpl. destruct (k a s). reflexivity. Qed.

Lemma evs_bind {A B} (m : M S A) (k : A -> M S B) s a s1 e1 :
  returns m s a s1 e1 -> evs (bind m k s) = e1 ++ evs (k a s1).
Proof. intros H. rewrite (bind_run _ _ _ _ _ _ H). reflexivity. Qed.

Lemma evs_bind_ret {A B} (m : M S A) (g : A -> B) s :
  evs ((x <- m ;; ret (g x)) s) = evs (m s).
Proof.
  unfold bind. destruct (m s) as [o s1 e1].
  destruct o; simpl; rewrite ?app_nil_r; reflexivity.
Qed.

Lemma returns_fun {A} (m : M S A) s a s' e a2 s2 e2 :
  returns m s a s' e -> returns m s a2 s2 e2 -> a = a2 /\ s' = s2 /\ e = e2.
Proof.
  unfold returns. intros H1 H2. rewrite H1 in H2. inversion H2. auto.
Qed.

Lemma returns_when_Errorf b t format args (s : S) :
  returns (when b (t_Errorf t format args)) s tt s (report_if b t format args).
Proof. destruct b; reflexivity. Qed.

Lemma fs_calls_app l1 l2 : fs_calls (l1 ++ l2) = fs_calls l1 ++ fs_calls l2.
Proof. unfold fs_calls. apply flat_map_app. Qed.

Lemma fs_calls_report_if b t format args : fs_calls (report_if b t format args) = [].
Proof. destruct b; reflexivity. Qed.

End Runs.

Section Facts.
Context {PO : PathOps} {FS : FileSystem}.

Lemma returns_dt_MkdirAll path mode s :
  returns (dt_MkdirAll path mode) s
    (res_err (fst (fs_exec (MkdirAll path mode) s)))
    (snd (fs_exec (MkdirAll path mode) s))
    [FsCalled (MkdirAll path mode) (fst (fs_exec (MkdirAll path mode) s))].
Proof.
  unfold returns, dt_MkdirAll, bind, fs_call, ret.
  destruct (fs_exec _ s); reflexivity.
Qed.

Lemma returns_dt_WriteFile path data mode s :
  returns (dt_WriteFile path data mode) s
    (res_err (fst (fs_exec (WriteFile path data mode) s)))
    (snd (fs_exec (WriteFile path data mode) s))
    [FsCalled (WriteFile path data mode) (fst (fs_exec (WriteFile path data mode) s))].
Proof.
  unfold returns, dt_WriteFile, bind, fs_call, ret.
  destruct (fs_exec _ s); reflexivity.
Qed.

Lemma returns_dt_ChangeFileTimes path a m s :
  returns (dt_ChangeFileTimes path a m) s
    (res_err (fst (fs_exec (ChangeFileTimes path a m) s)))
    (snd (fs_exec (ChangeFileTimes path a m) s))
    [FsCalled (ChangeFileTimes path a m) (fst (fs_exec (ChangeFileTimes path a m) s))].
Proof.
  unfold returns, dt_ChangeFileTimes, bind, fs_call, ret.
  destruct (fs_exec _ s); reflexivity.
Qed.

Lemma returns_dt_RemoveAll path s :
  returns (dt_RemoveAll path) s
    (res_err (fst (fs_exec (RemoveAll path) s)))
    (snd (fs_exec (RemoveAll path) s))
    [FsCalled (RemoveAll path) (fst (fs_exec (RemoveAll path) s))].
Proof.
  unfold returns, dt_RemoveAll, bind, fs_call, ret.
  destruct (fs_exec _ s); reflexivity.
Qed.

Lemma returns_dt_MkdirTemp dir pattern s :
  returns (dt_MkdirTemp dir pattern) s
    (res_path (fst (fs_exec (MkdirTemp dir pattern) s)),
     res_err (fst (fs_exec (MkdirTemp dir pattern) s)))
    (snd (fs_exec (MkdirTemp dir pattern) s))
    [FsCalled (MkdirTemp dir pattern) (fst (fs_exec (MkdirTemp dir pattern) s))].
Proof.
  unfold returns, dt_MkdirTemp, bind, fs_call, ret.
  destruct (fs_exec _ s); reflexivity.
Qed.

(** *** The parent's [Dir()] *)

(** A parent whose [Dir()] returns has been created, and the call has no
    effect. *)
Lemma Fixture_Dir_returns pf s d :
  out (Fixture_Dir pf s) = Ok d -> returns (Fixture_Dir pf) s d s [].
Proof.
  unfold returns.
  destruct pf as [p d0 c t | n d0 c t par | n d0 c t par];
    destruct c, t; simpl; intros H; try discriminate;
    inversion H; subst; reflexivity.
Qed.

End Facts.

(** ** File leaves *)

Section Leaves.
Context {PO : PathOps} {FS : FileSystem}.

(** [createFile] always returns; its calls and its result do not depend on
    what the file system answers. *)
Lemma FileFixture_createFile_returns t ff s :
  exists s' e,
    returns (FileFixture_createFile t ff) s (createFile_result ff) s' e /\
    fs_calls e = createFile_calls ff /\
    (ff_DoNotCreate ff = true -> s' = s /\ e = []).
Proof.
  unfold FileFixture_createFile, createFile_result, createFile_calls,
    FileFixture_content.
  destruct (ff_DoNotCreate ff) eqn:Hskip.
  - exists s, []. repeat split; reflexivity.
  - destruct (ff_ContentFunc ff) as [f |] eqn:Hf;
      destruct (IsZero (ff_ModifiedTime ff)) eqn:Hz;
      cbn [with_data set_ff_Content ff_data ff_ModifiedTime ff_Filepath
           ff_Content ff_Permissions];
      rewrite ?Hz; cbn [negb];
      (do 2 eexists; split; [| split; [| discriminate]];
       [ repeat first
           [ apply returns_ret
           | apply returns_when_Errorf
           | eapply returns_bind;
             [ first [ apply returns_when_Errorf | apply returns_dt_MkdirAll
                     | apply returns_dt_WriteFile
                     | apply returns_dt_ChangeFileTimes | apply returns_ret ] | ]
           | eapply returns_bind ]
       | rewrite ?fs_calls_app, ?fs_calls_report_if; reflexivity ]).
Qed.

(** [Create] under a parent whose [Dir()] returns [d]. *)
Lemma FileFixture_Create_returns t ff pf s d :
  out (Fixture_Dir pf s) = Ok d ->
  exists s' e,
    returns (FileFixture_Create t ff pf) s
      (createFile_result (FileFixture_resolved ff pf d)) s' e /\
    fs_calls e = createFile_calls (FileFixture_resolved ff pf d) /\
    (ff_DoNotCreate ff = true -> s' = s /\ e = []).
Proof.
  intros Hd. apply Fixture_Dir_returns in Hd.
  destruct (FileFixture_createFile_returns t (FileFixture_resolved ff pf d) s)
    as (s' & e & Hr & Hc & Hskip).
  exists s', e. split; [| split]; auto.
  unfold FileFixture_Create.
  change e with ([] ++ e).
  eapply returns_bind; [exact Hd |]. exact Hr.
Qed.
End Leaves.

Lemma All_Forall {A} (P : A -> Prop) l : All P l <-> Forall P l.
Proof.
  induction l as [| x l IH]; simpl.
  - split; auto.
  - rewrite IH. split.
    + intros [H1 H2]. constructor; auto.
    + intros H. inversion H; auto.
Qed.

Lemma All_impl {A} (P Q : A -> Prop) l :
  (forall x, In x l -> P x -> Q x) -> All P l -> All Q l.
Proof.
  induction l as [| x l IH]; simpl; [auto |].
  intros H [H1 H2]. split; [apply H; auto | apply IH; auto].
Qed.

Lemma All_app {A} (P : A -> Prop) l1 l2 : All P (l1 ++ l2) <-> All P l1 /\ All P l2.
Proof.
  induction l1 as [| x l1 IH]; simpl; [tauto |]. rewrite IH. tauto.
Qed.

(** ** The builder *)

Section Builder.
Context {PO : PathOps} {FS : FileSystem}.

(** C10. [NewRootFixture] and [AddFileFixture] are defined on every prefix,
    name and permission value, return the fixture without a call to the
    file system or to the test context, and a nil [args] (as well as a zero
    permission field) takes the defaults 0644 and 0755. *)
Theorem builder_total_without_io (dirPrefix name : string) (t : Tid)
    (args : option FileFixtureArgs) (s : fs_state) :
  let rf := NewRootFixture dirPrefix in
  rf_DirPrefix rf = dirPrefix /\
  rf_FileFixtures rf = [] /\ rf_ChildFixtures rf = [] /\
  rf_created rf = false /\ rf_tempDir rf = ""%string /\
  exists rf' ff,
    returns (RootFixture_AddFileFixture rf t name args) s (rf', ff) s [] /\
    rf_FileFixtures rf' = [ff] /\ rf_DirPrefix rf' = dirPrefix /\
    ff_Name ff = name /\ ff_created ff = false /\ ff_Filepath ff = ""%string /\
    ff_Parent ff = Some (RootFixture_ptr rf) /\
    (args = None ->
       ff_Permissions ff = perm_0644 /\ ff_DirPermissions ff = perm_0755) /\
    (forall a, args = Some a ->
       ff_Permissions ff =
         (if ffa_Permissions a =? 0 then perm_0644 else ffa_Permissions a) /\
       ff_DirPermissions ff =
         (if ffa_DirPermissions a =? 0 then perm_0755 else ffa_DirPermissions a) /\
       ff_Content ff = ffa_Content a).
Proof.
  cbv zeta. do 5 (split; [reflexivity |]).
  do 2 eexists. split; [reflexivity |].
  repeat split; intros; subst; reflexivity.
Qed.

(** The attach methods keep a tree one that the attach methods built. *)
Lemma RootFixture_Add_attached rf t name dargs rargs fargs (s : fs_state) :
  RootFixture_attached rf ->
  (forall r s' e,
     returns (RootFixture_AddDirFixture rf t name dargs) s r s' e ->
     RootFixture_attached (fst r)) /\
  (forall r s' e,
     returns (RootFixture_AddRepoFixture rf t name rargs) s r s' e ->
     RootFixture_attached (fst r)) /\
  (forall r s' e,
     returns (RootFixture_AddFileFixture rf t name fargs) s r s' e ->
     RootFixture_attached (fst r)).
Proof.
  intros Hatt. unfold RootFixture_attached in *.
  split; [| split]; intros r s' e H; unfold returns in H; inversion H; subst;
    cbn; try exact Hatt; apply All_app; (split; [exact Hatt |]); cbn;
    repeat split; try discriminate; eexists; split; reflexivity.
Qed.

Lemma DirFixture_Add_attached df prel t name dargs rargs fargs (s : fs_state) :
  DirFixture_attached prel df ->
  (forall r s' e,
     returns (DirFixture_AddDirFixture df t name dargs) s r s' e ->
     DirFixture_attached prel (fst r) /\
     DirFixture_attached (DirPathJoin prel (df_Name df)) (snd r)) /\
  (forall r s' e,
     returns (DirFixture_AddRepoFixture df t name rargs) s r s' e ->
     DirFixture_attached prel (fst r) /\
     RepoFixture_attached (DirPathJoin prel (df_Name df)) (snd r)) /\
  (forall r s' e,
     returns (DirFixture_AddFileFixture df t name fargs) s r s' e ->
     DirFixture_attached prel (fst r)).
Proof.
  intros Hatt. destruct df as [n fs cs mt pm d0 par cr t0].
  cbn in Hatt. destruct Hatt as ((p & -> & Hp) & Ht & Hcs).
  assert (Hnew : Parent_at (DirPathJoin prel n)
                   (Some (DirFixture_ptr
                            (mkDirFixture n fs cs mt pm d0 (Some p) cr t0)))).
  { eexists. split; [reflexivity |]. cbn. rewrite Hp. reflexivity. }
  split; [| split]; intros r s' e H; unfold returns in H; inversion H; subst;
    cbn.
  - split.
    + split; [eexists; eauto |]. split; [exact Ht |].
      apply All_app. split; [exact Hcs |]. cbn.
      repeat split; try discriminate. exact Hnew.
    + repeat split; try discriminate. exact Hnew.
  - split.
    + split; [eexists; eauto |]. split; [exact Ht |].
      apply All_app. split; [exact Hcs |]. cbn.
      repeat split; try discriminate. exact Hnew.
    + repeat split; try discriminate. exact Hnew.
  - split; [eexists; eauto |]. split; [exact Ht | exact Hcs].
Qed.
End Builder.

(** ** Access before creation *)

Section Ordering.
Context {PO : PathOps} {FS : FileSystem}.

(** A directory, repository or file fixture that has not been created stops
    the test that built it, with a fatal report. *)
Lemma ensureCreated_stops_the_test t name (s : fs_state) :
  let df := newDirFixture t name None in
  let rf := newRepoFixture t name None in
  let ff := newFileFixture t name None in
  DirFixture_Dir df s = stopped t "DirFixture" name s /\
  (forall fp, DirFixture_MakeDir df fp s = stopped t "DirFixture" name s) /\
  RepoFixture_Dir rf s = stopped t "DirFixture" name s /\
  RepoFixture_GitPath rf s = stopped t "DirFixture" name s /\
  (forall fp, RepoFixture_MakeDir rf fp s = stopped t "RepoFixture" name s) /\
  FileFixture_ensureCreated ff s = stopped t "FileFixture" name s.
Proof. cbv zeta. repeat split. Qed.

(** A root that has not been created: [NewRootFixture] leaves the field [t]
    nil and nothing assigns it, so every accessor dereferences nil and the
    program panics. *)
Lemma RootFixture_access_before_Create_panics (dirPrefix : string) (t : Tid)
    (s : fs_state) :
  let rf := NewRootFixture dirPrefix in
  RootFixture_Dir rf s = panicked s /\
  RootFixture_TempDir rf s = panicked s /\
  RootFixture_Cleanup rf s = panicked s /\
  RootFixture_RemoveFiles rf t s = panicked s /\
  Revised.RootFixture_RemoveFiles rf t s = panicked s.
Proof. cbv zeta. repeat split. Qed.

Lemma aborts_ensureCreated_root A (k : M fs_state A) DirPrefix t s :
  aborts ((RootFixture_ensureCreated' DirPrefix false t ;; k) s).
Proof. destruct t as [tid |]; cbn; [do 2 eexists; left; reflexivity | exact I]. Qed.

Lemma aborts_ensureCreated_dir A (k : M fs_state A) Name t s :
  aborts ((DirFixture_ensureCreated' Name false t ;; k) s).
Proof. destruct t as [tid |]; cbn; [do 2 eexists; left; reflexivity | exact I]. Qed.

End Ordering.

(** ** What a file leaf writes *)

Section LeafClaims.
Context {PO : PathOps} {FS : FileSystem}.

Lemma writes_createFile_calls (ff : FileFixture) :
  ff_DoNotCreate ff = false ->
  writes (createFile_calls ff) =
    [WriteFile (ff_Filepath ff) (FileFixture_content ff)
       (FileMode (ff_Permissions ff))].
Proof.
  intros H. unfold createFile_calls. rewrite H.
  destruct (IsZero (ff_ModifiedTime ff)); reflexivity.
Qed.

(** C5. A leaf with [DoNotCreate] set: [Create] returns without a call to
    the file system and without a report, the state of the disk is the one
    it started in, and the leaf has its [Filepath], the parent's directory
    joined with its name. *)
Theorem DoNotCreate_leaf_is_resolved_not_written t (ff : FileFixture) pf s d :
  out (Fixture_Dir pf s) = Ok d ->
  ff_DoNotCreate ff = true ->
  exists ff',
    returns (FileFixture_Create t ff pf) s ff' s [] /\
    ff_Filepath ff' = FilepathJoin d (ff_Name ff) /\
    ff_Name ff' = ff_Name ff /\
    ff_created ff' = true.
Proof.
  intros Hd Hskip.
  destruct (FileFixture_Create_returns t ff pf s d Hd) as (s' & e & Hr & _ & Hn).
  destruct (Hn Hskip) as [-> ->].
  eexists. split; [exact Hr |].
  unfold createFile_result, FileFixture_resolved. cbn.
  rewrite Hskip. repeat split.
Qed.

(** [Create] of a leaf that has a content function and is to be written. *)
Lemma FileFixture_Create_with_ContentFunc t (ff : FileFixture) pf s d f :
  out (Fixture_Dir pf s) = Ok d ->
  ff_DoNotCreate ff = false ->
  ff_ContentFunc ff = Some f ->
  exists ff' s' e,
    returns (FileFixture_Create t ff pf) s ff' s' e /\
    writes (fs_calls e) =
      [WriteFile (FilepathJoin d (ff_Name ff))
         (f (ff_data (FileFixture_resolved ff pf d)))
         (FileMode (ff_Permissions ff))] /\
    ff_Content ff' = f (ff_data (FileFixture_resolved ff pf d)).
Proof.
  intros Hd Hskip Hf.
  destruct (FileFixture_Create_returns t ff pf s d Hd) as (s' & e & Hr & Hc & _).
  do 3 eexists. split; [exact Hr |]. split.
  - rewrite Hc, writes_createFile_calls by exact Hskip.
    unfold FileFixture_content. cbn. rewrite Hf. reflexivity.
  - unfold createFile_result. cbn. rewrite Hskip, Hf. reflexivity.
Qed.

(** C6. A leaf with a content function: the function is applied to the leaf
    as [Create] has resolved it, whose [Filepath] is the parent's directory
    joined with the name, and what it returns is the data of the one
    [WriteFile] call and the leaf's [Content] afterwards. *)
Theorem ContentFunc_sees_resolved_leaf t (ff : FileFixture) pf s d f :
  out (Fixture_Dir pf s) = Ok d ->
  ff_DoNotCreate ff = false ->
  ff_ContentFunc ff = Some f ->
  let seen := ff_data (FileFixture_resolved ff pf d) in
  ff_Filepath seen = FilepathJoin d (ff_Name ff) /\
  exists ff' s' e,
    returns (FileFixture_Create t ff pf) s ff' s' e /\
    writes (fs_calls e) =
      [WriteFile (FilepathJoin d (ff_Name ff)) (f seen)
         (FileMode (ff_Permissions ff))] /\
    ff_Content ff' = f seen.
Proof.
  intros Hd Hskip Hf. cbv zeta. split; [reflexivity |].
  exact (FileFixture_Create_with_ContentFunc t ff pf s d f Hd Hskip Hf).
Qed.

End LeafClaims.

(** ** Removal *)

Section Removal.
Context {PO : PathOps} {FS : FileSystem}.

(** [RemoveFiles] of root_fixture.go: one [RemoveAll] of the temp directory
    when the path is not empty, not [/] and longer than [/tmp/x]; nothing
    otherwise. *)
Lemma RootFixture_RemoveFiles_calls rf t s :
  rf_created rf = true ->
  fs_calls (evs (RootFixture_RemoveFiles rf t s)) =
    if longer_than_tmp_x (rf_tempDir rf) then [RemoveAll (rf_tempDir rf)] else [].
Proof.
  intros Hc.
  unfold RootFixture_RemoveFiles, RootFixture_ensureCreated,
    RootFixture_ensureCreated', longer_than_tmp_x.
  rewrite Hc. cbn [negb].
  destruct (rf_tempDir rf =? "")%string; [reflexivity |].
  destruct (rf_tempDir rf =? "/")%string; [reflexivity |].
  destruct (String.length (rf_tempDir rf) <=? String.length "/tmp/x")%nat;
    [reflexivity |].
  cbn [negb andb].
  rewrite bind_ret_l, (bind_run _ _ _ _ _ _ (returns_dt_RemoveAll _ s)).
  cbn [evs]. rewrite fs_calls_app.
  destruct (res_err (fst (fs_exec (RemoveAll (rf_tempDir rf)) s))); reflexivity.
Qed.

(** [RemoveFiles] of the revision: the removal is issued exactly when the
    guard of the specification holds of the path, and a refusal is a
    return without any effect. *)
Lemma Revised_RemoveFiles_guard rf t s :
  rf_created rf = true ->
  (deletion_permitted (rf_tempDir rf) ->
   fs_calls (evs (Revised.RootFixture_RemoveFiles rf t s)) =
     [RemoveAll (rf_tempDir rf)]) /\
  (~ deletion_permitted (rf_tempDir rf) ->
   Revised.RootFixture_RemoveFiles rf t s = mkRun (Ok tt) s []).
Proof.
  intros Hc.
  unfold Revised.RootFixture_RemoveFiles, RootFixture_ensureCreated,
    RootFixture_ensureCreated', deletion_permitted.
  rewrite Hc. cbn [negb].
  set (p := rf_tempDir rf).
  destruct (String.eqb_spec p "") as [He | He].
  { split; [intros [H _]; contradiction | reflexivity]. }
  cbv zeta. rewrite bind_ret_l.
  destruct (DirPath_IsAbs (DirPath_Clean p)) eqn:Habs; cbn [negb].
  2: { split; [intros (_ & H & _); discriminate | reflexivity]. }
  destruct (String.eqb_spec (DirPath_Clean p)
              (DirPath_VolumeName (DirPath_Clean p) ++ PathSeparator)%string)
    as [Hr | Hr].
  { split; [intros (_ & _ & H & _); contradiction | reflexivity]. }
  destruct (String.eqb_spec (DirPath_Clean p) (DirPath_Clean dt_TempDir))
    as [Ht | Ht].
  { split; [intros (_ & _ & _ & H & _); contradiction | reflexivity]. }
  destruct (DirPath_Rel (DirPath_Clean p) (DirPath_Clean dt_TempDir))
    as [rel err] eqn:Hrel.
  destruct err as [msg |]; cbn [is_nil negb].
  { split; [intros (_ & _ & _ & _ & r & H & _); discriminate | reflexivity]. }
  destruct (String.eqb_spec rel ".") as [Hd | Hd].
  { split; [| reflexivity].
    intros (_ & _ & _ & _ & r & H & Hn & _). inversion H; subst. contradiction. }
  destruct (PathSegments_HasDotDotPrefix rel) eqn:Hdd.
  { split; [| reflexivity].
    intros (_ & _ & _ & _ & r & H & _ & Hn). inversion H; subst. congruence. }
  split.
  - intros _.
    rewrite (bind_run _ _ _ _ _ _ (returns_dt_RemoveAll _ s)).
    cbn [evs]. rewrite fs_calls_app.
    destruct (res_err (fst (fs_exec (RemoveAll p) s))); reflexivity.
  - intros Hn. exfalso. apply Hn. repeat split; auto.
    exists rel. auto.
Qed.
End Removal.

(** C1, on root_fixture.go.  A root whose temp directory was made while
    TMPDIR named the relative directory [scratch] holds a relative path,
    and a root may hold an absolute path outside the temp root; neither is
    empty, [/] or as short as [/tmp/x], and [RemoveFiles] of
    root_fixture.go removes both, on every file system.  The revision of
    the file refuses both without any effect. *)
Theorem RootFixture_RemoveFiles_deletes_outside_temp_root
    (FS : FileSystem) (t : Tid) (s : fs_state) :
  let made := Scenario.relative_root in
  let outside := set_rf_tempDir "/home/user/project" Scenario.relative_root in
  out (RootFixture_Create (PO := Unix.paths_in "scratch")
         (FS := Unix.fs_in "scratch") (NewRootFixture "my-test")
         Scenario.t Unix.empty_disk) = Ok made /\
  Unix.IsAbs (rf_tempDir made) = false /\
  fs_calls (evs (RootFixture_RemoveFiles made t s)) =
    [RemoveAll "scratch/my-test-0"] /\
  fs_calls (evs (RootFixture_RemoveFiles outside t s)) =
    [RemoveAll "/home/user/project"] /\
  Revised.RootFixture_RemoveFiles (PO := Unix.paths_in "scratch") made t s =
    mkRun (Ok tt) s [] /\
  Revised.RootFixture_RemoveFiles (PO := Unix.paths) outside t s =
    mkRun (Ok tt) s [].
Proof.
  cbv zeta. split; [reflexivity |]. split; [reflexivity |].
  split; [rewrite RootFixture_RemoveFiles_calls by reflexivity; reflexivity |].
  split; [rewrite RootFixture_RemoveFiles_calls by reflexivity; reflexivity |].
  split; reflexivity.
Qed.

(** ** Cleanup *)

Section Cleanup.
Context {PO : PathOps} {FS : FileSystem}.

(** What [Create] leaves in the root it returns. *)
Lemma RootFixture_Create_fields rf0 t s rf s' e :
  returns (RootFixture_Create rf0 t) s rf s' e ->
  rf_created rf = true /\
  rf_cleanupFunc rf = Some (RemoveTempDir t) /\
  rf_DirPrefix rf = rf_DirPrefix rf0 /\
  rf_t rf = rf_t rf0 /\
  rf_tempDir rf =
    res_path (fst (fs_exec (MkdirTemp "" (rf_DirPrefix rf0 ++ "-*")%string) s)).
Proof.
  unfold RootFixture_Create. intros H.
  apply returns_bind_inv in H as (r & s1 & e1 & e2 & Hr & H & ->).
  apply returns_bind_inv in H as (u & s2 & e3 & e4 & Hw & H & ->).
  apply returns_bind_inv in H as (children & s3 & e5 & e6 & Hch & H & ->).
  apply returns_bind_inv in H as (files & s4 & e7 & e8 & Hfi & H & ->).
  unfold returns, ret in H. inversion H; subst.
  destruct (returns_fun _ _ _ _ _ _ _ _ Hr (returns_dt_MkdirTemp _ _ _))
    as (-> & _ & _).
  repeat split.
Qed.

Lemma removal_failed_single p r (tail : list Event) :
  (forall x, In x tail -> is_fs_call x = false) ->
  removal_failed (FsCalled (RemoveAll p) r :: tail) -> res_err r <> None.
Proof.
  intros Htail (q & r' & Hin & Herr).
  destruct Hin as [Heq | Hin].
  - inversion Heq; subst. exact Herr.
  - apply Htail in Hin. discriminate.
Qed.

Lemma removal_failed_nil : ~ removal_failed [].
Proof. intros (p & r & [] & _). Qed.

Lemma RootFixture_Cleanup_run rf t s :
  rf_created rf = true ->
  rf_cleanupFunc rf = Some (RemoveTempDir t) ->
  let r := fst (fs_exec (RemoveAll (rf_tempDir rf)) s) in
  returns (RootFixture_Cleanup rf) s tt (snd (fs_exec (RemoveAll (rf_tempDir rf)) s))
    (FsCalled (RemoveAll (rf_tempDir rf)) r ::
     report_if (negb (is_nil (res_err r))) t
       "Failed to remove temp directory '%s'; %v"
       [rf_tempDir rf; error_text (res_err r)]).
Proof.
  intros Hc Hf. cbv zeta.
  unfold RootFixture_Cleanup, RootFixture_ensureCreated, RootFixture_ensureCreated'.
  rewrite Hc, Hf. cbn [negb]. unfold returns. rewrite bind_ret_l.
  unfold call_cleanupFunc.
  apply (returns_bind _ _ _ _ _ _ _ _ _ (returns_dt_RemoveAll _ s)).
  apply returns_when_Errorf.
Qed.

Lemma removal_run_bind rf t format args s :
  (err <- dt_RemoveAll (rf_tempDir rf) ;;
   if negb (is_nil err) then t_Fatalf t format (args err) else ret tt) s =
  removal_run rf t format args s.
Proof.
  rewrite (bind_run _ _ _ _ _ _ (returns_dt_RemoveAll _ s)).
  unfold removal_run.
  destruct (res_err (fst (fs_exec (RemoveAll (rf_tempDir rf)) s))); reflexivity.
Qed.

Lemma removal_run_recorded rf t format args s :
  no_panic (out (removal_run rf t format args s)) /\
  (removal_failed (evs (removal_run rf t format args s)) ->
   failed (evs (removal_run rf t format args s)) = true /\
   out (removal_run rf t format args s) = FailNow t).
Proof.
  unfold removal_run.
  destruct (res_err (fst (fs_exec (RemoveAll (rf_tempDir rf)) s))) eqn:Herr;
    cbn [out evs]; split; try exact I.
  - intros _. split; reflexivity.
  - intros H. apply removal_failed_single in H; [congruence |].
    intros x [].
Qed.

Lemma RootFixture_RemoveFiles_run rf t s :
  rf_created rf = true ->
  RootFixture_RemoveFiles rf t s = mkRun (Ok tt) s [] \/
  RootFixture_RemoveFiles rf t s =
    removal_run rf t "failed to remove temporary files: %s"
      (fun err => [error_text err]) s.
Proof.
  intros Hc.
  unfold RootFixture_RemoveFiles, RootFixture_ensureCreated,
    RootFixture_ensureCreated'.
  rewrite Hc. cbn [negb]. rewrite bind_ret_l.
  destruct (rf_tempDir rf =? "")%string; [left; reflexivity |].
  destruct (rf_tempDir rf =? "/")%string; [left; reflexivity |].
  destruct (String.length (rf_tempDir rf) <=? String.length "/tmp/x")%nat;
    [left; reflexivity |].
  right. apply removal_run_bind.
Qed.

Lemma Revised_RemoveFiles_run rf t s :
  rf_created rf = true ->
  Revised.RootFixture_RemoveFiles rf t s = mkRun (Ok tt) s [] \/
  Revised.RootFixture_RemoveFiles rf t s =
    removal_run rf t "failed to remove temporary files %q: %v"
      (fun err => [DirPath_Clean (rf_tempDir rf); error_text err]) s.
Proof.
  intros Hc.
  unfold Revised.RootFixture_RemoveFiles, RootFixture_ensureCreated,
    RootFixture_ensureCreated'.
  rewrite Hc. cbn [negb]. rewrite bind_ret_l.
  destruct (rf_tempDir rf =? "")%string; [left; reflexivity |].
  cbv zeta.
  destruct (DirPath_IsAbs _); cbn [negb]; [| left; reflexivity].
  destruct (_ =? _)%string; [left; reflexivity |].
  destruct (_ =? _)%string; [left; reflexivity |].
  destruct (DirPath_Rel _ _) as [rel err].
  destruct (is_nil err); cbn [negb]; [| left; reflexivity].
  destruct (_ =? _)%string; [left; reflexivity |].
  destruct (PathSegments_HasDotDotPrefix rel); [left; reflexivity |].
  right. apply removal_run_bind.
Qed.

(** C8. On a root that [Create] has returned, a removal that fails is
    recorded as a failure of the test and no cleanup call panics:
    [Cleanup] reports with [t.Errorf] and returns; [RemoveFiles], in both
    versions of root_fixture.go, reports with [t.Fatalf], which stops the
    running test and leaves the process running. *)
Theorem removal_failure_recorded_without_panic rf0 t0 s0 rf s1 e0 t s :
  returns (RootFixture_Create rf0 t0) s0 rf s1 e0 ->
  (exists s' e,
     returns (RootFixture_Cleanup rf) s tt s' e /\
     (removal_failed e -> failed e = true)) /\
  Forall
    (fun r : Run fs_state unit =>
       no_panic (out r) /\
       (removal_failed (evs r) -> failed (evs r) = true /\ out r = FailNow t))
    [RootFixture_RemoveFiles rf t s; Revised.RootFixture_RemoveFiles rf t s].
Proof.
  intros Hcreate.
  destruct (RootFixture_Create_fields _ _ _ _ _ _ Hcreate) as (Hc & Hf & _).
  split.
  - do 2 eexists. split; [apply (RootFixture_Cleanup_run rf t0 s Hc Hf) |].
    intros H. apply removal_failed_single in H.
    + unfold failed. cbn [existsb is_report].
      destruct (res_err _); [reflexivity | congruence].
    + intros x Hx. unfold report_if in Hx.
      destruct (negb _); [destruct Hx as [<- | []]; reflexivity | destruct Hx].
  - assert (Hrefuse : no_panic (out (mkRun (Ok tt) s [] : Run fs_state unit)) /\
              (removal_failed (evs (mkRun (Ok tt) s [] : Run fs_state unit)) ->
               failed (evs (mkRun (Ok tt) s [] : Run fs_state unit)) = true /\
               out (mkRun (Ok tt) s [] : Run fs_state unit) = FailNow t)).
    { split; [exact I |]. intros H. destruct (removal_failed_nil H). }
    constructor; [| constructor; [| constructor]].
    + destruct (RootFixture_RemoveFiles_run rf t s Hc) as [-> | ->];
        [apply Hrefuse | apply removal_run_recorded].
    + destruct (Revised_RemoveFiles_run rf t s Hc) as [-> | ->];
        [apply Hrefuse | apply removal_run_recorded].
Qed.
End Cleanup.

(** ** Trees *)

Section TreeInduction.
Variables (P : DirFixture -> Prop) (Q : ChildFixture -> Prop)
  (R : RepoFixture -> Prop).
Hypothesis HP : forall df, All Q (df_ChildFixtures df) -> P df.
Hypothesis HQd : forall df, P df -> Q (DirChild df).
Hypothesis HQr : forall rf, R rf -> Q (RepoChild rf).
Hypothesis HR : forall rf, P (repo_DirFixture rf) -> R rf.

(** Induction over a fixture and everything attached below it. *)
Lemma DirFixture_tree_ind : forall df, P df.
Proof.
  fix IH 1. intros df. apply HP.
  destruct df as [n fs cs mt pm d par cr t]. simpl.
  revert cs. fix IHcs 1. intros [| c cs]; simpl.
  - exact I.
  - split; [| apply IHcs].
    destruct c as [d' | [d' cr' t']].
    + apply HQd, IH.
    + apply HQr, HR. simpl. apply IH.
Qed.

End TreeInduction.

Section TreeEquations.
Context {PO : PathOps} {FS : FileSystem}.

Lemma DirFixture_createWithParent_eq t df pf :
  DirFixture_createWithParent t df pf =
    (let df := set_df_created true df in
     d <- Fixture_Dir pf ;;
     let df := set_df_dir (DirPathJoin d (df_Name df)) df in
     when (df_Permissions df =? 0)%Z
       (t_Errorf t "File permissions not set for %s" [df_dir df]) ;;
     err <- dt_MkdirAll (df_dir df) (FileMode (df_Permissions df)) ;;
     when (negb (is_nil err))
       (t_Errorf t "Failed to create testing directory %s" [df_dir df]) ;;
     files <- range (fun file => FileFixture_Create t file (DirFixture_ptr df))
                (df_FileFixtures df) ;;
     children <- range (fun child =>
                          ChildFixture_createWithParent t child (DirFixture_ptr df))
                   (df_ChildFixtures df) ;;
     ret (set_df_ChildFixtures children (set_df_FileFixtures files df))).
Proof. destruct df; reflexivity. Qed.

Lemma RepoFixture_createWithParent_eq t rf parent :
  RepoFixture_createWithParent t rf parent =
    (let rf := set_repo_created true rf in
     df <- DirFixture_createWithParent t (repo_DirFixture rf) parent ;;
     let rf := set_repo_DirFixture df rf in
     let gitDir := DirPathJoin (df_dir (repo_DirFixture rf)) ".git" in
     err <- dt_MkdirAll gitDir perm_0755 ;;
     when (negb (is_nil err))
       (t_Errorf t "Failed to create .git directory within %s; %v"
          [df_dir (repo_DirFixture rf); error_text err]) ;;
     ret rf).
Proof. destruct rf; reflexivity. Qed.

Lemma ChildFixture_createWithParent_eq t c pf :
  ChildFixture_createWithParent t c pf =
    match c with
    | DirChild df => df' <- DirFixture_createWithParent t df pf ;; ret (DirChild df')
    | RepoChild rf => rf' <- RepoFixture_createWithParent t rf pf ;; ret (RepoChild rf')
    end.
Proof. destruct c; reflexivity. Qed.
End TreeEquations.

Section Paths.
Context {PO : PathOps} {FS : FileSystem}.

Lemma Fixture_Dir_any_state pf s d s2 :
  out (Fixture_Dir pf s) = Ok d -> out (Fixture_Dir pf s2) = Ok d.
Proof.
  destruct pf as [p d0 c t | n d0 c t par | n d0 c t par];
    destruct c, t; simpl; intros H; try discriminate; exact H.
Qed.

(** A loop over fixtures each of which is created whatever the state; the
    property [Post] of a created fixture and of the events of its creation
    carries over to the events of the loop. *)
Lemma range_returns {A} (f : A -> M fs_state A)
    (Post : A -> list Event -> Prop) xs :
  (forall x e e1 e2, Post x e -> Post x (e1 ++ e ++ e2)) ->
  All (fun x => forall s, exists x' s' e, returns (f x) s x' s' e /\ Post x' e) xs ->
  forall s, exists xs' s' e,
    returns (range f xs) s xs' s' e /\ All (fun x' => Post x' e) xs'.
Proof.
  intros Hmono.
  induction xs as [| x xs IH]; simpl; intros H s.
  - exists [], s, []. split; [reflexivity | exact I].
  - destruct H as [Hx Hxs].
    destruct (Hx s) as (x' & s1 & e1 & Hr1 & Hp1).
    destruct (IH Hxs s1) as (xs' & s2 & e2 & Hr2 & Hp2).
    exists (x' :: xs'), s2, (e1 ++ e2 ++ []). split; [| split].
    + eapply returns_bind; [exact Hr1 |].
      eapply returns_bind; [exact Hr2 |]. apply returns_ret.
    + apply (Hmono x' e1 [] (e2 ++ [])). exact Hp1.
    + apply (All_impl (fun x' => Post x' e2)); [| exact Hp2].
      intros y _ Hy. rewrite app_nil_r.
      rewrite <- (app_nil_r e2). apply (Hmono y e2 e1 []). exact Hy.
Qed.

Lemma markers_called_mono l e e1 e2 :
  markers_called l e -> markers_called l (e1 ++ e ++ e2).
Proof.
  intros H p Hp. destruct (H p Hp) as (r & Hr). exists r.
  apply in_or_app. right. apply in_or_app. left. exact Hr.
Qed.

Lemma markers_called_flat_map {A} (g : A -> list string) xs e :
  All (fun x => markers_called (g x) e) xs -> markers_called (flat_map g xs) e.
Proof.
  induction xs as [| x xs IH]; simpl.
  - intros _ p [].
  - intros [Hx Hxs] p Hp. apply in_app_or in Hp as [Hp | Hp].
    + exact (Hx p Hp).
    + exact (IH Hxs p Hp).
Qed.

Lemma createFile_result_fields (ff : FileFixture) :
  ff_Filepath (createFile_result ff) = ff_Filepath ff /\
  ff_Name (createFile_result ff) = ff_Name ff /\
  ff_Parent (createFile_result ff) = ff_Parent ff /\
  ff_created (createFile_result ff) = ff_created ff.
Proof.
  unfold createFile_result.
  destruct (ff_DoNotCreate ff); [repeat split |].
  destruct (ff_ContentFunc ff); repeat split.
Qed.

(** A leaf created under a parent with directory [d] and relative path
    [prel] has the two path relations. *)
Lemma FileFixture_Create_paths t (ff : FileFixture) pf d prel s :
  out (Fixture_Dir pf s) = Ok d ->
  Fixture_RelativePath pf = Some prel ->
  exists ff' s' e,
    returns (FileFixture_Create t ff pf) s ff' s' e /\
    FileFixture_paths d prel ff'.
Proof.
  intros Hd Hrel.
  destruct (FileFixture_Create_returns t ff pf s d Hd) as (s' & e & Hr & _).
  exists (createFile_result (FileFixture_resolved ff pf d)), s', e.
  split; [exact Hr |].
  destruct (createFile_result_fields (FileFixture_resolved ff pf d))
    as (Hp & Hn & Hpar & _).
  unfold FileFixture_paths, FileFixture_RelativePath.
  rewrite Hp, Hn, Hpar. cbn. rewrite Hrel. split; reflexivity.
Qed.

Lemma range_FileFixture_Create_paths t files pf d prel s :
  out (Fixture_Dir pf s) = Ok d ->
  Fixture_RelativePath pf = Some prel ->
  exists files' s' e,
    returns (range (fun file => FileFixture_Create t file pf) files) s files' s' e /\
    All (FileFixture_paths d prel) files'.
Proof.
  intros Hd Hrel.
  destruct (range_returns (fun file => FileFixture_Create t file pf)
              (fun ff' _ => FileFixture_paths d prel ff') files) with (s := s)
    as (files' & s' & e & Hr & Hp).
  - auto.
  - apply All_Forall, Forall_forall. intros ff _ s0.
    apply FileFixture_Create_paths; [| exact Hrel].
    exact (Fixture_Dir_any_state _ _ _ _ Hd).
  - exists files', s', e. split; assumption.
Qed.

(** A fixture attached below a parent that has been created is itself
    created, with everything below it; the result has the path relations
    at every node, and the marker of every repository in it was asked
    for. *)
Lemma DirFixture_createWithParent_spec df :
  forall t pf d prel s,
    out (Fixture_Dir pf s) = Ok d ->
    DirFixture_attached prel df ->
    exists df' s' e,
      returns (DirFixture_createWithParent t df pf) s df' s' e /\
      DirFixture_paths d prel df' /\
      markers_called (DirFixture_markers df') e.
Proof.
  induction df using DirFixture_tree_ind with
    (Q := fun c => forall t pf d prel s,
            out (Fixture_Dir pf s) = Ok d ->
            ChildFixture_attached prel c ->
            exists c' s' e,
              returns (ChildFixture_createWithParent t c pf) s c' s' e /\
              ChildFixture_paths d prel c' /\
              markers_called (ChildFixture_markers c') e)
    (R := fun rf => forall t pf d prel s,
            out (Fixture_Dir pf s) = Ok d ->
            RepoFixture_attached prel rf ->
            exists rf' s' e,
              returns (RepoFixture_createWithParent t rf pf) s rf' s' e /\
              RepoFixture_paths d prel rf' /\
              markers_called (RepoFixture_markers rf') e).
  - (* a directory fixture *)
    rename H into IHchildren.
    intros t pf d prel s Hd Hatt.
    destruct df as [n fs cs mt pm d0 par cr t0].
    cbn in IHchildren.
    cbn [DirFixture_attached df_Parent df_t df_Name df_ChildFixtures] in Hatt.
    destruct Hatt as ((p & -> & Hprel) & Ht & Hcs).
    destruct t0 as [tid |]; [clear Ht | contradiction].
    set (df1 := mkDirFixture n fs cs mt pm (DirPathJoin d n) (Some p) true (Some tid)).
    assert (Hd1 : forall s0, out (Fixture_Dir (DirFixture_ptr df1) s0)
                             = Ok (DirPathJoin d n)) by reflexivity.
    assert (Hrel1 : Fixture_RelativePath (DirFixture_ptr df1)
                    = Some (DirPathJoin prel n)).
    { cbn. rewrite Hprel. reflexivity. }
    destruct (range_FileFixture_Create_paths t fs (DirFixture_ptr df1)
                (DirPathJoin d n) (DirPathJoin prel n)
                (snd (fs_exec (MkdirAll (DirPathJoin d n) (FileMode pm)) s))
                (Hd1 _) Hrel1) as (fs' & s2 & e2 & Hfiles & Hfpaths).
    destruct (range_returns
                (fun child =>
                   ChildFixture_createWithParent t child (DirFixture_ptr df1))
                (fun c' e =>
                   ChildFixture_paths (DirPathJoin d n) (DirPathJoin prel n) c' /\
                   markers_called (ChildFixture_markers c') e) cs)
      with (s := s2) as (cs' & s3 & e3 & Hchildren & Hcpost).
    { intros x e e1 e2' [Hx1 Hx2]. split; [exact Hx1 |].
      apply markers_called_mono. exact Hx2. }
    { clear - IHchildren Hcs Hd1.
      induction cs as [| c cs IH]; simpl; [exact I |].
      destruct IHchildren as [Hc Hrest]. destruct Hcs as [Hac Harest].
      split; [| apply IH; assumption].
      intros s0. apply Hc; [apply Hd1 | exact Hac]. }
    do 3 eexists. split; [| split].
    + rewrite DirFixture_createWithParent_eq. cbv zeta.
      eapply returns_bind; [apply Fixture_Dir_returns; exact Hd |].
      eapply returns_bind; [apply returns_when_Errorf |].
      eapply returns_bind; [apply returns_dt_MkdirAll |].
      eapply returns_bind; [apply returns_when_Errorf |].
      eapply returns_bind; [exact Hfiles |].
      eapply returns_bind; [exact Hchildren |].
      apply returns_ret.
    + cbn. unfold DirFixture_RelativePath. cbn. rewrite Hprel.
      repeat split; try assumption.
      apply (All_impl _ _ _ (fun c _ H => proj1 H) Hcpost).
    + cbn [DirFixture_markers df_ChildFixtures set_df_ChildFixtures].
      intros p0 Hp0.
      destruct (markers_called_flat_map ChildFixture_markers cs' e3
                  (All_impl _ _ _ (fun c _ H => proj2 H) Hcpost) p0 Hp0)
        as (r & Hr).
      exists r. repeat rewrite in_app_iff. tauto.
  - (* a directory among the children *)
    intros t pf d prel s Hd Hatt.
    destruct (IHdf t pf d prel s Hd Hatt) as (df' & s' & e & Hr & Hp & Hm).
    exists (DirChild df'), s', (e ++ []). split; [| split; [exact Hp |]].
    + rewrite ChildFixture_createWithParent_eq.
      eapply returns_bind; [exact Hr | apply returns_ret].
    + rewrite app_nil_r. exact Hm.
  - (* a repository among the children *)
    intros t pf d prel s Hd Hatt.
    destruct (IHdf t pf d prel s Hd Hatt) as (rf' & s' & e & Hr & Hp & Hm).
    exists (RepoChild rf'), s', (e ++ []). split; [| split; [exact Hp |]].
    + rewrite ChildFixture_createWithParent_eq.
      eapply returns_bind; [exact Hr | apply returns_ret].
    + rewrite app_nil_r. exact Hm.
  - (* a repository fixture *)
    intros t pf d prel s Hd Hatt.
    destruct rf as [df cr t0]. cbn in IHdf, Hatt.
    destruct (IHdf t pf d prel s Hd Hatt) as (df' & s' & e & Hr & Hp & Hm).
    do 3 eexists. split; [| split].
    + rewrite RepoFixture_createWithParent_eq. cbv zeta.
      eapply returns_bind; [exact Hr |].
      eapply returns_bind; [apply returns_dt_MkdirAll |].
      eapply returns_bind; [apply returns_when_Errorf |].
      apply returns_ret.
    + split; [| exact Hp].
      destruct df' as [n fs cs mt pm d0 par cr' t1].
      destruct Hp as (_ & Hrel & _). exact Hrel.
    + cbn [RepoFixture_markers repo_DirFixture set_repo_DirFixture
             set_repo_created].
      intros p [<- | Hp'].
      * eexists. apply in_or_app. right. left. reflexivity.
      * destruct (Hm p Hp') as (r & Hr'). exists r.
        apply in_or_app. left. exact Hr'.
Qed.
End Paths.

(** ** The events account for the state of the disk *)

Section Faithful.
Context {PO : PathOps} {FS : FileSystem}.

Lemma trace_ok_app s e1 s1 e2 s2 :
  trace_ok s e1 s1 -> trace_ok s1 e2 s2 -> trace_ok s (e1 ++ e2) s2.
Proof.
  induction 1; simpl; intros H2; [exact H2 | |]; constructor; auto.
Qed.

Lemma no_removal_app e1 e2 :
  no_removal e1 -> no_removal e2 -> no_removal (e1 ++ e2).
Proof.
  intros H1 H2 p r Hin. apply in_app_or in Hin as [Hin | Hin];
    [exact (H1 p r Hin) | exact (H2 p r Hin)].
Qed.

Lemma no_removal_nil : no_removal [].
Proof. intros p r []. Qed.

Lemma faithful_ret {A} (a : A) : faithful (ret a).
Proof. intros s. split; [constructor | apply no_removal_nil]. Qed.

Lemma faithful_panic {A} msg : faithful (panic msg : M fs_state A).
Proof. intros s. split; [constructor | apply no_removal_nil]. Qed.

Lemma faithful_bind {A B} (m : M fs_state A) (k : A -> M fs_state B) :
  faithful m -> (forall a, faithful (k a)) -> faithful (bind m k).
Proof.
  intros Hm Hk s. unfold bind. destruct (Hm s) as [Ht Hn].
  destruct (out (m s)) as [a | t | msg]; cbn [st evs]; [| split; assumption ..].
  destruct (Hk a (st (m s))) as [Ht' Hn'].
  split; [eapply trace_ok_app; eassumption | apply no_removal_app; assumption].
Qed.

Lemma faithful_Errorf t format args : faithful (t_Errorf t format args).
Proof.
  intros s. split; [repeat constructor |].
  intros p r [H | []]. discriminate.
Qed.

Lemma faithful_Fatalf {A} t format args :
  faithful (t_Fatalf t format args : M fs_state A).
Proof.
  intros s. split; [repeat constructor |].
  intros p r [H | []]. discriminate.
Qed.

Lemma faithful_when b m : faithful m -> faithful (when b m).
Proof. destruct b; simpl; [auto | intros _; apply faithful_ret]. Qed.

Lemma faithful_deref_t t : faithful (deref_t t).
Proof. destruct t; [apply faithful_ret | apply faithful_panic]. Qed.

Lemma faithful_fs_call c : (forall q, c <> RemoveAll q) -> faithful (fs_call c).
Proof.
  intros Hc s. unfold fs_call.
  destruct (fs_exec c s) as [r s'] eqn:He. cbn [st evs]. split.
  - replace r with (fst (fs_exec c s)) by (rewrite He; reflexivity).
    replace s' with (snd (fs_exec c s)) by (rewrite He; reflexivity).
    repeat constructor.
  - intros p r' [H | []]. inversion H; subst. exact (Hc p eq_refl).
Qed.

Lemma faithful_dt_MkdirAll path mode : faithful (dt_MkdirAll path mode).
Proof.
  apply faithful_bind; [apply faithful_fs_call; discriminate |].
  intros r. apply faithful_ret.
Qed.

Lemma faithful_dt_WriteFile path data mode : faithful (dt_WriteFile path data mode).
Proof.
  apply faithful_bind; [apply faithful_fs_call; discriminate |].
  intros r. apply faithful_ret.
Qed.

Lemma faithful_dt_ChangeFileTimes path a m : faithful (dt_ChangeFileTimes path a m).
Proof.
  apply faithful_bind; [apply faithful_fs_call; discriminate |].
  intros r. apply faithful_ret.
Qed.

Lemma faithful_dt_MkdirTemp dir pattern : faithful (dt_MkdirTemp dir pattern).
Proof.
  apply faithful_bind; [apply faithful_fs_call; discriminate |].
  intros r. apply faithful_ret.
Qed.

Lemma faithful_range {A} (f : A -> M fs_state A) xs :
  All (fun x => faithful (f x)) xs -> faithful (range f xs).
Proof.
  induction xs as [| x xs IH]; simpl; intros H.
  - apply faithful_ret.
  - destruct H as [Hx Hxs].
    apply faithful_bind; [exact Hx |]. intros x'.
    apply faithful_bind; [exact (IH Hxs) |]. intros r. apply faithful_ret.
Qed.

Lemma faithful_Fixture_Dir pf : faithful (Fixture_Dir pf).
Proof.
  destruct pf as [p d0 c t | n d0 c t par | n d0 c t par]; cbn [Fixture_Dir].
  - apply faithful_bind; [| intros; apply faithful_ret].
    unfold RootFixture_ensureCreated'. destruct (negb c); [| apply faithful_ret].
    apply faithful_bind; [apply faithful_deref_t | intros; apply faithful_Fatalf].
  - apply faithful_bind; [| intros; apply faithful_ret].
    apply faithful_bind; [apply faithful_deref_t |]. intros tid.
    destruct (negb c); [apply faithful_Fatalf | apply faithful_ret].
  - apply faithful_bind; [| intros; apply faithful_ret].
    apply faithful_bind; [apply faithful_deref_t |]. intros tid.
    destruct (negb c); [apply faithful_Fatalf | apply faithful_ret].
Qed.

Lemma faithful_FileFixture_createFile t ff : faithful (FileFixture_createFile t ff).
Proof.
  unfold FileFixture_createFile.
  destruct (ff_DoNotCreate ff); [apply faithful_ret |].
  apply faithful_bind; [apply faithful_when, faithful_Errorf |]. intros _.
  apply faithful_bind; [apply faithful_dt_MkdirAll |]. intros err.
  apply faithful_bind; [apply faithful_when, faithful_Errorf |]. intros _.
  cbv zeta.
  apply faithful_bind; [apply faithful_dt_WriteFile |]. intros err2.
  apply faithful_bind; [apply faithful_when, faithful_Errorf |]. intros _.
  apply faithful_bind; [| intros; apply faithful_ret].
  destruct (negb _); [| apply faithful_ret].
  apply faithful_bind; [apply faithful_dt_ChangeFileTimes |]. intros err3.
  apply faithful_when, faithful_Errorf.
Qed.

Lemma faithful_FileFixture_Create t ff pf : faithful (FileFixture_Create t ff pf).
Proof.
  unfold FileFixture_Create. cbv zeta.
  apply faithful_bind; [apply faithful_Fixture_Dir |]. intros d.
  apply faithful_FileFixture_createFile.
Qed.

Lemma faithful_range_files t pf files :
  faithful (range (fun file => FileFixture_Create t file pf) files).
Proof.
  apply faithful_range, All_Forall, Forall_forall. intros ff _.
  apply faithful_FileFixture_Create.
Qed.

(** Creation, of any fixture and on any file system, removes nothing, and
    its events account for the state it leaves. *)
Lemma faithful_DirFixture_createWithParent df :
  forall t pf, faithful (DirFixture_createWithParent t df pf).
Proof.
  induction df using DirFixture_tree_ind with
    (Q := fun c => forall t pf, faithful (ChildFixture_createWithParent t c pf))
    (R := fun rf => forall t pf, faithful (RepoFixture_createWithParent t rf pf)).
  - rename H into IHchildren. intros t pf.
    rewrite DirFixture_createWithParent_eq. cbv zeta.
    apply faithful_bind; [apply faithful_Fixture_Dir |]. intros d.
    apply faithful_bind; [apply faithful_when, faithful_Errorf |]. intros _.
    apply faithful_bind; [apply faithful_dt_MkdirAll |]. intros err.
    apply faithful_bind; [apply faithful_when, faithful_Errorf |]. intros _.
    apply faithful_bind; [apply faithful_range_files |]. intros files.
    apply faithful_bind; [| intros; apply faithful_ret].
    apply faithful_range.
    destruct df as [n fs cs mt pm d0 par cr t0]. cbn in *.
    eapply All_impl; [| exact IHchildren].
    intros c _ Hc. apply Hc.
  - intros t pf. rewrite ChildFixture_createWithParent_eq.
    apply faithful_bind; [apply IHdf | intros; apply faithful_ret].
  - intros t pf. rewrite ChildFixture_createWithParent_eq.
    apply faithful_bind; [apply IHdf | intros; apply faithful_ret].
  - intros t pf. rewrite RepoFixture_createWithParent_eq. cbv zeta.
    apply faithful_bind; [destruct rf; apply IHdf |]. intros df'.
    apply faithful_bind; [apply faithful_dt_MkdirAll |]. intros err.
    apply faithful_bind; [apply faithful_when, faithful_Errorf |]. intros _.
    apply faithful_ret.
Qed.

Lemma faithful_ChildFixture_createWithParent c t pf :
  faithful (ChildFixture_createWithParent t c pf).
Proof.
  rewrite ChildFixture_createWithParent_eq. destruct c as [df | rf].
  - apply faithful_bind; [apply faithful_DirFixture_createWithParent |].
    intros; apply faithful_ret.
  - apply faithful_bind; [| intros; apply faithful_ret].
    rewrite RepoFixture_createWithParent_eq. cbv zeta.
    apply faithful_bind; [apply faithful_DirFixture_createWithParent |].
    intros df'.
    apply faithful_bind; [apply faithful_dt_MkdirAll |]. intros err.
    apply faithful_bind; [apply faithful_when, faithful_Errorf |]. intros _.
    apply faithful_ret.
Qed.

Lemma faithful_RootFixture_Create rf t : faithful (RootFixture_Create rf t).
Proof.
  unfold RootFixture_Create. cbv zeta.
  apply faithful_bind; [apply faithful_dt_MkdirTemp |]. intros r.
  apply faithful_bind; [apply faithful_when, faithful_Errorf |]. intros _.
  apply faithful_bind.
  - apply faithful_range, All_Forall, Forall_forall. intros c _.
    apply faithful_ChildFixture_createWithParent.
  - intros children.
    apply faithful_bind; [apply faithful_range_files |].
    intros; apply faithful_ret.
Qed.

(** On a lawful file system, a directory survives events without a
    removal, and a [MkdirAll] that succeeded among them has left its
    directory at the end. *)
Lemma trace_keeps_dirs s e s' p :
  lawful -> trace_ok s e s' -> no_removal e ->
  fs_IsDir s p = true -> fs_IsDir s' p = true.
Proof.
  intros [_ Hkeep] Ht. induction Ht as [s | s r e s' Ht IH | s c e s' Ht IH];
    intros Hn Hp.
  - exact Hp.
  - apply IH; [| exact Hp].
    intros q r' Hin. apply (Hn q r'). right. exact Hin.
  - apply IH.
    + intros q r' Hin. apply (Hn q r'). right. exact Hin.
    + apply Hkeep; [| exact Hp].
      intros q ->. apply (Hn q (fst (fs_exec (RemoveAll q) s))). left. reflexivity.
Qed.

Lemma trace_MkdirAll_stays s e s' p m r :
  lawful -> trace_ok s e s' -> no_removal e ->
  In (FsCalled (MkdirAll p m) r) e -> res_err r = None ->
  fs_IsDir s' p = true.
Proof.
  intros Hlaw Ht. induction Ht as [s | s r0 e s' Ht IH | s c e s' Ht IH];
    intros Hn Hin Herr.
  - destruct Hin.
  - destruct Hin as [Heq | Hin]; [discriminate |].
    apply IH; auto. intros q r' Hq. apply (Hn q r'). right. exact Hq.
  - assert (Hn' : no_removal e)
      by (intros q r' Hq; apply (Hn q r'); right; exact Hq).
    destruct Hin as [Heq | Hin]; [| apply IH; auto].
    inversion Heq; subst.
    apply (trace_keeps_dirs _ _ _ _ Hlaw Ht Hn').
    destruct Hlaw as [Hmk _]. apply Hmk. exact Herr.
Qed.
End Faithful.

(** ** Materialization of a tree *)

Section Materialization.
Context {PO : PathOps} {FS : FileSystem}.

(** [RepoFixture.createWithParent]: the embedded directory fixture is
    created first, with its files and children; the marker is the last
    call. *)
Lemma RepoFixture_createWithParent_run t rf pf s df' s1 e1 :
  returns (DirFixture_createWithParent t (repo_DirFixture rf) pf) s df' s1 e1 ->
  returns (RepoFixture_createWithParent t rf pf) s
    (mkRepoFixture df' true (repo_t rf))
    (snd (fs_exec (MkdirAll (DirPathJoin (df_dir df') ".git") perm_0755) s1))
    (e1 ++
     FsCalled (MkdirAll (DirPathJoin (df_dir df') ".git") perm_0755)
       (fst (fs_exec (MkdirAll (DirPathJoin (df_dir df') ".git") perm_0755) s1))
     :: report_if
          (negb (is_nil (res_err
             (fst (fs_exec (MkdirAll (DirPathJoin (df_dir df') ".git") perm_0755)
                     s1)))))
          t "Failed to create .git directory within %s; %v"
          [df_dir df';
           error_text (res_err
             (fst (fs_exec (MkdirAll (DirPathJoin (df_dir df') ".git") perm_0755)
                     s1)))]).
Proof.
  intros Hdir. rewrite RepoFixture_createWithParent_eq. cbv zeta.
  eapply returns_bind; [exact Hdir |].
  unfold returns.
  rewrite (bind_run _ _ _ _ _ _ (returns_dt_MkdirAll _ _ _)).
  rewrite (bind_run _ _ _ _ _ _ (returns_when_Errorf _ _ _ _ _)).
  cbn. rewrite app_nil_r. reflexivity.
Qed.

Lemma RepoFixture_createWithParent_spec rf t pf d prel s :
  out (Fixture_Dir pf s) = Ok d ->
  RepoFixture_attached prel rf ->
  exists rf' s' e,
    returns (RepoFixture_createWithParent t rf pf) s rf' s' e /\
    RepoFixture_paths d prel rf' /\
    markers_called (RepoFixture_markers rf') e.
Proof.
  intros Hd Hatt.
  assert (Hatt' : DirFixture_attached prel (repo_DirFixture rf))
    by (destruct rf; exact Hatt).
  destruct (DirFixture_createWithParent_spec (repo_DirFixture rf) t pf d prel s
              Hd Hatt') as (df' & s1 & e1 & Hr & Hp & Hm).
  do 3 eexists. split; [exact (RepoFixture_createWithParent_run _ _ _ _ _ _ _ Hr) |].
  split.
  - split; [| exact Hp].
    destruct df' as [n fs cs mt pm d0 par cr' t1].
    destruct Hp as (_ & Hrel & _). exact Hrel.
  - cbn [RepoFixture_markers repo_DirFixture].
    intros p [<- | Hp'].
    + eexists. apply in_or_app. right. left. reflexivity.
    + destruct (Hm p Hp') as (r & Hr'). exists r.
      apply in_or_app. left. exact Hr'.
Qed.

Lemma ChildFixture_createWithParent_spec c t pf d prel s :
  out (Fixture_Dir pf s) = Ok d ->
  ChildFixture_attached prel c ->
  exists c' s' e,
    returns (ChildFixture_createWithParent t c pf) s c' s' e /\
    ChildFixture_paths d prel c' /\
    markers_called (ChildFixture_markers c') e.
Proof.
  intros Hd Hatt. rewrite ChildFixture_createWithParent_eq.
  destruct c as [df | rf].
  - destruct (DirFixture_createWithParent_spec df t pf d prel s Hd Hatt)
      as (df' & s' & e & Hr & Hp & Hm).
    exists (DirChild df'), s', (e ++ []). split; [| split; [exact Hp |]].
    + eapply returns_bind; [exact Hr | apply returns_ret].
    + rewrite app_nil_r. exact Hm.
  - destruct (RepoFixture_createWithParent_spec rf t pf d prel s Hd Hatt)
      as (rf' & s' & e & Hr & Hp & Hm).
    exists (RepoChild rf'), s', (e ++ []). split; [| split; [exact Hp |]].
    + eapply returns_bind; [exact Hr | apply returns_ret].
    + rewrite app_nil_r. exact Hm.
Qed.

Lemma range_children_spec t cs pf d prel s :
  out (Fixture_Dir pf s) = Ok d ->
  All (ChildFixture_attached prel) cs ->
  exists cs' s' e,
    returns (range (fun c => ChildFixture_createWithParent t c pf) cs) s cs' s' e /\
    All (ChildFixture_paths d prel) cs' /\
    markers_called (flat_map ChildFixture_markers cs') e.
Proof.
  intros Hd Hatt.
  destruct (range_returns (fun c => ChildFixture_createWithParent t c pf)
              (fun c' e => ChildFixture_paths d prel c' /\
                           markers_called (ChildFixture_markers c') e) cs)
    with (s := s) as (cs' & s' & e & Hr & Hpost).
  - intros x e e1 e2 [H1 H2]. split; [exact H1 | apply markers_called_mono, H2].
  - eapply All_impl; [| exact Hatt]. intros c _ Hc s0.
    apply ChildFixture_createWithParent_spec; [| exact Hc].
    exact (Fixture_Dir_any_state _ _ _ _ Hd).
  - exists cs', s', e. split; [exact Hr |]. split.
    + eapply All_impl; [| exact Hpost]. intros c _ Hc. exact (proj1 Hc).
    + apply markers_called_flat_map.
      eapply All_impl; [| exact Hpost]. intros c _ Hc. exact (proj2 Hc).
Qed.

Lemma range_files_returns t files pf d s :
  out (Fixture_Dir pf s) = Ok d ->
  exists files' s' e,
    returns (range (fun file => FileFixture_Create t file pf) files) s files' s' e.
Proof.
  intros Hd.
  destruct (range_returns (fun file => FileFixture_Create t file pf)
              (fun _ _ => True) files) with (s := s)
    as (files' & s' & e & Hr & _); [auto | | eauto].
  apply All_Forall, Forall_forall. intros ff _ s0.
  destruct (FileFixture_Create_returns t ff pf s0 d
              (Fixture_Dir_any_state _ _ _ _ Hd)) as (s1 & e1 & H & _).
  eauto 6.
Qed.

(** [RootFixture.Create] on a tree built with the attach methods. *)
Lemma RootFixture_Create_spec rf t s :
  RootFixture_attached rf ->
  exists rf' s' e,
    returns (RootFixture_Create rf t) s rf' s' e /\
    RootFixture_paths rf' /\
    markers_called (RootFixture_markers rf') e.
Proof.
  intros Hatt. unfold RootFixture_Create. cbv zeta.
  set (own := MkdirTemp "" (rf_DirPrefix (set_rf_created true rf) ++ "-*")%string).
  set (tmp := res_path (fst (fs_exec own s))).
  set (rf1 := set_rf_cleanupFunc (Some (RemoveTempDir t))
                (set_rf_tempDir tmp (set_rf_created true rf))).
  assert (Hd : forall s0, out (Fixture_Dir (RootFixture_ptr rf1) s0) = Ok tmp)
    by reflexivity.
  destruct (range_children_spec t (rf_ChildFixtures rf) (RootFixture_ptr rf1)
              tmp "." (snd (fs_exec own s)) (Hd _) Hatt)
    as (cs' & s2 & e2 & Hchildren & Hcpaths & Hcm).
  destruct (range_FileFixture_Create_paths t (rf_FileFixtures rf)
              (RootFixture_ptr rf1) tmp "." s2 (Hd _) eq_refl)
    as (fs' & s3 & e3 & Hfiles & Hfpaths).
  do 3 eexists. split; [| split].
  - eapply returns_bind; [apply returns_dt_MkdirTemp |].
    eapply returns_bind; [apply returns_when_Errorf |].
    eapply returns_bind; [exact Hchildren |].
    eapply returns_bind; [exact Hfiles |].
    apply returns_ret.
  - unfold RootFixture_paths. cbn. repeat split; assumption.
  - intros p Hp. cbn in Hp. destruct (Hcm p Hp) as (r & Hr).
    exists r. repeat rewrite in_app_iff. tauto.
Qed.

(** The calls of a directory fixture: its own directory, then its file
    leaves, then its children. *)
Lemma DirFixture_createWithParent_calls t df pf d s :
  out (Fixture_Dir pf s) = Ok d ->
  df_t df <> None ->
  let df1 := DirFixture_resolved df d in
  let own := MkdirAll (df_dir df1) (FileMode (df_Permissions df)) in
  let files :=
    range (fun file => FileFixture_Create t file (DirFixture_ptr df1))
      (df_FileFixtures df) (snd (fs_exec own s)) in
  let children :=
    range (fun child => ChildFixture_createWithParent t child (DirFixture_ptr df1))
      (df_ChildFixtures df) (st files) in
  fs_calls (evs (DirFixture_createWithParent t df pf s)) =
    own :: fs_calls (evs files) ++ fs_calls (evs children).
Proof.
  intros Hd Ht. cbv zeta. rewrite DirFixture_createWithParent_eq. cbv zeta.
  destruct df as [n fs cs mt pm d0 par cr t0].
  destruct t0 as [tid |]; [clear Ht | contradiction Ht; reflexivity].
  unfold DirFixture_resolved. cbn [set_df_created set_df_dir df_Name df_dir
    df_Permissions df_FileFixtures df_ChildFixtures df_ModifiedTime df_Parent
    df_created df_t].
  set (df1 := mkDirFixture n fs cs mt pm (DirPathJoin d n) par true (Some tid)).
  change (set_df_dir (DirPathJoin d n)
            (set_df_created true (mkDirFixture n fs cs mt pm d0 par cr (Some tid))))
    with df1.
  rewrite (evs_bind _ _ _ _ _ _ (Fixture_Dir_returns _ _ _ Hd)).
  rewrite (evs_bind _ _ _ _ _ _ (returns_when_Errorf _ _ _ _ _)).
  rewrite (evs_bind _ _ _ _ _ _ (returns_dt_MkdirAll _ _ _)).
  rewrite (evs_bind _ _ _ _ _ _ (returns_when_Errorf _ _ _ _ _)).
  destruct (range_files_returns t fs (DirFixture_ptr df1) (DirPathJoin d n)
              (snd (fs_exec (MkdirAll (DirPathJoin d n) (FileMode pm)) s))
              eq_refl) as (fs' & s2 & e2 & Hfiles).
  rewrite (evs_bind _ _ _ _ _ _ Hfiles), evs_bind_ret.
  unfold returns in Hfiles. rewrite Hfiles. cbn [st evs].
  rewrite !fs_calls_app, !fs_calls_report_if. reflexivity.
Qed.

(** The calls of the root: its temp directory, then its children, then its
    file leaves. *)
Lemma RootFixture_Create_calls rf t s :
  RootFixture_attached rf ->
  let own := MkdirTemp "" (rf_DirPrefix rf ++ "-*")%string in
  let rf1 := RootFixture_resolved rf t (res_path (fst (fs_exec own s))) in
  let children :=
    range (fun cf => ChildFixture_createWithParent t cf (RootFixture_ptr rf1))
      (rf_ChildFixtures rf) (snd (fs_exec own s)) in
  let files :=
    range (fun ff => FileFixture_Create t ff (RootFixture_ptr rf1))
      (rf_FileFixtures rf) (st children) in
  fs_calls (evs (RootFixture_Create rf t s)) =
    own :: fs_calls (evs children) ++ fs_calls (evs files).
Proof.
  intros Hatt. cbv zeta. unfold RootFixture_Create, RootFixture_resolved.
  cbv zeta.
  cbn [rf_DirPrefix set_rf_created rf_ChildFixtures rf_FileFixtures
         set_rf_tempDir set_rf_cleanupFunc fst snd].
  set (own := MkdirTemp "" (rf_DirPrefix rf ++ "-*")%string).
  set (rf1 := mkRootFixture (rf_DirPrefix rf) (res_path (fst (fs_exec own s)))
                (rf_FileFixtures rf) (rf_ChildFixtures rf)
                (Some (RemoveTempDir t)) true (rf_t rf)).
  change (set_rf_cleanupFunc (Some (RemoveTempDir t))
            (set_rf_tempDir (res_path (fst (fs_exec own s)))
               (set_rf_created true rf))) with rf1.
  rewrite (evs_bind _ _ _ _ _ _ (returns_dt_MkdirTemp _ _ _)).
  change (fst (res_path (fst (fs_exec own s)), res_err (fst (fs_exec own s))))
    with (res_path (fst (fs_exec own s))).
  change (set_rf_cleanupFunc (Some (RemoveTempDir t))
            (set_rf_tempDir (res_path (fst (fs_exec own s)))
               (set_rf_created true rf))) with rf1.
  rewrite (evs_bind _ _ _ _ _ _ (returns_when_Errorf _ _ _ _ _)).
  destruct (range_children_spec t (rf_ChildFixtures rf) (RootFixture_ptr rf1)
              (res_path (fst (fs_exec own s))) "." (snd (fs_exec own s))
              eq_refl Hatt) as (cs' & s2 & e2 & Hchildren & _).
  rewrite (evs_bind _ _ _ _ _ _ Hchildren), evs_bind_ret.
  unfold returns in Hchildren. rewrite Hchildren. cbn [st evs].
  rewrite !fs_calls_app, !fs_calls_report_if. reflexivity.
Qed.
End Materialization.

Section TreeClaims.
Context {PO : PathOps} {FS : FileSystem}.

(** C7, as the code orders the calls.  A directory fixture, and with it
    the directory fixture embedded in a repository, makes its own
    directory, then creates its file leaves, then its children.  The root
    makes its temp directory, then creates its children, then its file
    leaves. *)
Theorem files_then_children_below_the_root t df pf d s rf s0 :
  out (Fixture_Dir pf s) = Ok d ->
  df_t df <> None ->
  RootFixture_attached rf ->
  dir_then_files_then_children t df pf d s /\
  root_then_children_then_files rf t s0.
Proof.
  intros Hd Ht Hatt. split.
  - exact (DirFixture_createWithParent_calls t df pf d s Hd Ht).
  - exact (RootFixture_Create_calls rf t s0 Hatt).
Qed.

End TreeClaims.

(** ** The claims on concrete trees *)

(** The file system in memory is lawful. *)
Lemma Unix_fs_lawful : lawful (FS := Unix.fs).
Proof.
  split.
  - intros p m s. cbn. unfold Unix.exec, Unix.exec_in.
    match goal with |- context [if ?b then _ else _] => destruct b end; cbn;
      [discriminate |].
    intros _. unfold Unix.is_dir. cbn. rewrite String.eqb_refl. reflexivity.
  - intros c s p Hc Hp. cbn in *. unfold Unix.exec, Unix.exec_in.
    destruct c as [dir pat | path mode | path data mode | path a m | path].
    + destruct (Unix.has_slash pat); cbn; [exact Hp |].
      unfold Unix.is_dir in *. cbn. rewrite Hp. apply orb_true_r.
    + match goal with |- context [if ?b then _ else _] => destruct b end; cbn;
        [exact Hp |].
      unfold Unix.is_dir in *. cbn.
      rewrite existsb_app, Hp. rewrite !orb_true_r. reflexivity.
    + destruct (Unix.is_dir s path); cbn; [exact Hp |].
      destruct (negb _); cbn; exact Hp.
    + destruct (_ || _); cbn; exact Hp.
    + destruct (Hc path eq_refl).
Qed.

(** The tree of the scenarios is one the attach methods build. *)
Lemma Scenario_tree_attached : RootFixture_attached (PO := Unix.paths) Scenario.tree.
Proof.
  unfold RootFixture_attached. cbn.
  repeat split; try discriminate; eexists; split; reflexivity.
Qed.

(** The calls of the materialization of the scenario tree on the empty
    disk. *)
Lemma Scenario_tree_calls :
  fs_calls (evs (RootFixture_Create (PO := Unix.paths) (FS := Unix.fs)
                   Scenario.tree Scenario.t Unix.empty_disk)) =
  [MkdirTemp "" "my-test-*";
   MkdirAll "/tmp/my-test-0/proj" perm_0755;
   MkdirAll "/tmp/my-test-0/proj" perm_0755;
   WriteFile "/tmp/my-test-0/proj/main.txt" "hi" perm_0644;
   MkdirAll "/tmp/my-test-0/proj/src" perm_0755;
   MkdirAll "/tmp/my-test-0/proj/src" perm_0755;
   WriteFile "/tmp/my-test-0/proj/src/file-2.txt" "Text File #2
" perm_0644;
   MkdirAll "/tmp/my-test-0/proj/.git" perm_0755;
   MkdirAll "/tmp/my-test-0" perm_0755;
   WriteFile "/tmp/my-test-0/test.json" "test data" perm_0644].
Proof. vm_compute. reflexivity. Qed.

(** C4 as stated fails.  On the scenario tree the call right after the
    creation of the repository's directory is not the creation of its
    marker, which comes after the repository's file and its child
    directory.  And in a repository with a file leaf named [.git] the leaf
    is written before the marker is asked for: the creation of the marker
    fails and is reported, and no marker directory exists when the
    materialization ends. *)
Lemma marker_comes_last_and_may_fail :
  let calls :=
    fs_calls (evs (RootFixture_Create (PO := Unix.paths) (FS := Unix.fs)
                     Scenario.tree Scenario.t Unix.empty_disk)) in
  let directory := MkdirAll "/tmp/my-test-0/proj" perm_0755 in
  let marker := MkdirAll "/tmp/my-test-0/proj/.git" perm_0755 in
  let r := RootFixture_Create (PO := Unix.paths) (FS := Unix.fs)
             Scenario.worktree Scenario.t Unix.empty_disk in
  (follows_at_once directory marker calls = false /\
   precedes (WriteFile "/tmp/my-test-0/proj/main.txt" "hi" perm_0644) marker calls
     = true /\
   precedes (MkdirAll "/tmp/my-test-0/proj/src" perm_0755) marker calls = true) /\
  (fs_calls (evs r) =
     [MkdirTemp "" "my-test-*";
      directory;
      MkdirAll "/tmp/my-test-0/proj" perm_0755;
      WriteFile "/tmp/my-test-0/proj/.git" "gitdir: elsewhere" perm_0644;
      marker] /\
   failed (evs r) = true /\
   fs_IsDir (st r) "/tmp/my-test-0/proj/.git" = false).
Proof. vm_compute. repeat split. Qed.

(** C7 as stated fails on the scenario tree: at the root the child [proj]
    is created before the root's own file [test.json]. *)
Lemma root_creates_children_before_files :
  let calls :=
    fs_calls (evs (RootFixture_Create (PO := Unix.paths) (FS := Unix.fs)
                     Scenario.tree Scenario.t Unix.empty_disk)) in
  let file := WriteFile "/tmp/my-test-0/test.json" "test data" perm_0644 in
  let child := MkdirAll "/tmp/my-test-0/proj" perm_0755 in
  precedes file child calls = false /\
  precedes child file calls = true.
Proof. vm_compute. repeat split. Qed.

Lemma Scenario_proj_attached :
  RepoFixture_attached (PO := Unix.paths) "." Scenario.proj.
Proof.
  cbn. repeat split; try discriminate; eexists; split; reflexivity.
Defined.

Lemma files_then_children_below_the_root_witness :
  out (Fixture_Dir (FS := Unix.fs) Scenario.created_root Scenario.my_test_disk)
    = Ok "/tmp/my-test-0"%string /\
  df_t (repo_DirFixture Scenario.proj) <> None /\
  RootFixture_attached (PO := Unix.paths) Scenario.tree /\
  dir_then_files_then_children (PO := Unix.paths) (FS := Unix.fs) Scenario.t
    (repo_DirFixture Scenario.proj) Scenario.created_root "/tmp/my-test-0"
    Scenario.my_test_disk /\
  root_then_children_then_files (PO := Unix.paths) (FS := Unix.fs) Scenario.tree
    Scenario.t Unix.empty_disk.
Proof.
  assert (H1 : out (Fixture_Dir (FS := Unix.fs) Scenario.created_root
                      Scenario.my_test_disk) = Ok "/tmp/my-test-0"%string)
    by reflexivity.
  assert (H2 : df_t (repo_DirFixture Scenario.proj) <> None) by discriminate.
  split; [exact H1 |]. split; [exact H2 |].
  split; [exact Scenario_tree_attached |].
  exact (files_then_children_below_the_root (PO := Unix.paths) (FS := Unix.fs)
           Scenario.t (repo_DirFixture Scenario.proj) Scenario.created_root
           "/tmp/my-test-0" Scenario.my_test_disk Scenario.tree Unix.empty_disk
           H1 H2 Scenario_tree_attached).
Defined.

Lemma DoNotCreate_leaf_is_resolved_not_written_witness :
  out (Fixture_Dir (FS := Unix.fs) Scenario.created_root Scenario.my_test_disk)
    = Ok "/tmp/my-test-0"%string /\
  ff_DoNotCreate Scenario.missing_go = true /\
  exists ff',
    returns (FileFixture_Create (PO := Unix.paths) (FS := Unix.fs) Scenario.t
               Scenario.missing_go Scenario.created_root)
      Scenario.my_test_disk ff' Scenario.my_test_disk [] /\
    ff_Filepath ff' = Unix.Join "/tmp/my-test-0" (ff_Name Scenario.missing_go) /\
    ff_Name ff' = ff_Name Scenario.missing_go /\
    ff_created ff' = true.
Proof.
  split; [reflexivity |]. split; [reflexivity |].
  apply (DoNotCreate_leaf_is_resolved_not_written (PO := Unix.paths)
           (FS := Unix.fs) Scenario.t Scenario.missing_go Scenario.created_root
           Scenario.my_test_disk "/tmp/my-test-0"); reflexivity.
Defined.

Lemma ContentFunc_sees_resolved_leaf_witness :
  out (Fixture_Dir (FS := Unix.fs) Scenario.created_root Scenario.my_test_disk)
    = Ok "/tmp/my-test-0"%string /\
  ff_DoNotCreate Scenario.self_aware = false /\
  ff_ContentFunc Scenario.self_aware = Some Scenario.own_path /\
  exists ff' s' e,
    returns (FileFixture_Create (PO := Unix.paths) (FS := Unix.fs) Scenario.t
               Scenario.self_aware Scenario.created_root)
      Scenario.my_test_disk ff' s' e /\
    writes (fs_calls e) =
      [WriteFile "/tmp/my-test-0/me.txt" "I am /tmp/my-test-0/me.txt" perm_0644] /\
    ff_Content ff' = "I am /tmp/my-test-0/me.txt"%string.
Proof.
  split; [reflexivity |]. split; [reflexivity |]. split; [reflexivity |].
  exact (proj2 (ContentFunc_sees_resolved_leaf (PO := Unix.paths) (FS := Unix.fs)
                  Scenario.t Scenario.self_aware Scenario.created_root
                  Scenario.my_test_disk "/tmp/my-test-0" Scenario.own_path
                  eq_refl eq_refl eq_refl)).
Defined.


Lemma removal_failure_recorded_without_panic_witness :
  returns (RootFixture_Create (PO := Unix.paths) (FS := Unix.denying_fs)
             (NewRootFixture "my-test") Scenario.t)
    Unix.empty_disk Scenario.my_test Scenario.my_test_disk Scenario.my_test_events /\
  (exists s' e,
     returns (RootFixture_Cleanup (FS := Unix.denying_fs) Scenario.my_test)
       Scenario.my_test_disk tt s' e /\
     (removal_failed e -> failed e = true)) /\
  Forall
    (fun r : Run Unix.MemFs unit =>
       no_panic (out r) /\
       (removal_failed (evs r) ->
        failed (evs r) = true /\ out r = FailNow Scenario.t))
    [RootFixture_RemoveFiles (FS := Unix.denying_fs) Scenario.my_test Scenario.t
       Scenario.my_test_disk;
     Revised.RootFixture_RemoveFiles (PO := Unix.paths) (FS := Unix.denying_fs)
       Scenario.my_test Scenario.t Scenario.my_test_disk].
Proof.
  assert (H : returns (RootFixture_Create (PO := Unix.paths)
                         (FS := Unix.denying_fs) (NewRootFixture "my-test")
                         Scenario.t)
                Unix.empty_disk Scenario.my_test Scenario.my_test_disk
                Scenario.my_test_events) by reflexivity.
  split; [exact H |].
  exact (removal_failure_recorded_without_panic (PO := Unix.paths)
           (FS := Unix.denying_fs) (NewRootFixture "my-test") Scenario.t
           Unix.empty_disk Scenario.my_test Scenario.my_test_disk
           Scenario.my_test_events Scenario.t Scenario.my_test_disk H).
Defined.

(** On a disk that denies removal, both cleanup calls of the created root
    record the failure; [RemoveFiles] stops the test. *)
Lemma denied_removal_is_recorded :
  let cleanup :=
    RootFixture_Cleanup (FS := Unix.denying_fs) Scenario.my_test
      Scenario.my_test_disk in
  let remove :=
    Revised.RootFixture_RemoveFiles (PO := Unix.paths) (FS := Unix.denying_fs)
      Scenario.my_test Scenario.t Scenario.my_test_disk in
  out cleanup = Ok tt /\ failed (evs cleanup) = true /\
  out remove = FailNow Scenario.t /\ failed (evs remove) = true.
Proof. vm_compute. repeat split. Qed.

(** ** The guard of the revision on Unix paths *)

Lemma concat_dotdot_prefix l :
  Unix.HasDotDotPrefix (String.concat "/" (".."%string :: l)) = true.
Proof.
  destruct l as [| x l]; [reflexivity |].
  unfold Unix.HasDotDotPrefix. cbn.
  match goal with |- String.prefix "" ?s = true => destruct s; reflexivity end.
Qed.

(** The relation of an absolute path other than [/tmp] to [/tmp]. *)
Lemma Unix_Rel_tmp c :
  Unix.IsAbs c = true ->
  (Unix.Clean c =? "/tmp")%string = false ->
  Unix.Rel c "/tmp" =
    match Unix.elements c with
    | x :: t' =>
        if ("tmp" =? x)%string then (String.concat "/" t', None)
        else (String.concat "/" (".."%string :: x :: t'), None)
    | [] => (".."%string, None)
    end.
Proof.
  intros Habs Hsame. unfold Unix.Rel.
  change (Unix.Clean "/tmp") with "/tmp"%string. rewrite Hsame.
  change (Unix.IsAbs "/tmp") with true. rewrite Habs.
  change (negb (eqb true true)) with false. cbv iota.
  change (Unix.elements "/tmp") with ["tmp"%string].
  destruct (Unix.elements c) as [| x t']; [reflexivity |].
  unfold Unix.strip_common; fold Unix.strip_common.
  destruct ("tmp" =? x)%string; [| reflexivity].
  destruct t'; reflexivity.
Qed.

(** On a Unix system with temp root [/tmp], a path that passes the guard is,
    once cleaned, [/tmp] followed by at least one more element. *)
Lemma Unix_guard_nested p :
  deletion_permitted (PO := Unix.paths) p ->
  exists rest,
    rest <> [] /\
    Unix.elements (Unix.Clean p) = "tmp"%string :: rest /\
    Unix.Clean (Unix.Clean p) = ("/tmp/" ++ String.concat "/" rest)%string.
Proof.
  intros (_ & Habs & _ & Htmp & rel & Hrel & Hdot & Hdd).
  change (Unix.IsAbs (Unix.Clean p) = true) in Habs.
  change (Unix.Clean p <> "/tmp"%string) in Htmp.
  change (Unix.Rel (Unix.Clean p) "/tmp" = (rel, None)) in Hrel.
  change (Unix.HasDotDotPrefix rel = false) in Hdd.
  set (c := Unix.Clean p) in *.
  assert (Hclean : Unix.Clean c =
                   ("/" ++ String.concat "/" (Unix.elements c))%string).
  { unfold Unix.Clean, Unix.of_elements. rewrite Habs. reflexivity. }
  destruct (Unix.Clean c =? "/tmp")%string eqn:Hsame.
  { unfold Unix.Rel in Hrel. change (Unix.Clean "/tmp") with "/tmp"%string in Hrel.
    rewrite Hsame in Hrel. assert (rel = "."%string) by congruence.
    contradiction. }
  rewrite (Unix_Rel_tmp c Habs Hsame) in Hrel.
  destruct (Unix.elements c) as [| x t'] eqn:Hel.
  - inversion Hrel; subst. discriminate.
  - destruct (String.eqb_spec "tmp" x) as [<- | Hx].
    + assert (Hne : t' <> []).
      { intros ->. rewrite Hclean in Hsame. discriminate. }
      exists t'. split; [exact Hne |]. split; [reflexivity |].
      rewrite Hclean. destruct t'; [contradiction | reflexivity].
    + assert (Hr : rel = String.concat "/" (".."%string :: x :: t'))
        by congruence.
      rewrite Hr, concat_dotdot_prefix in Hdd. discriminate.
Qed.

(** The guard on the paths the specification lists: refused when empty,
    relative, the root, the temp root, outside the temp root or climbing
    out of it; a directory under the temp root is removed. *)
Lemma Unix_guard_examples (t : Tid) (s : Unix.MemFs) :
  let calls p :=
    fs_calls (evs (Revised.RootFixture_RemoveFiles (PO := Unix.paths)
                     (FS := Unix.fs) (set_rf_tempDir p Scenario.my_test) t s)) in
  calls ""%string = [] /\
  calls "relative/dir"%string = [] /\
  calls "/"%string = [] /\
  calls "/tmp"%string = [] /\
  calls "/tmp/"%string = [] /\
  calls "/etc/passwd"%string = [] /\
  calls "/tmp/../etc"%string = [] /\
  calls "/tmpfoo/x"%string = [] /\
  calls "/tmp/my-test-0"%string = [RemoveAll "/tmp/my-test-0"].
Proof.
  cbv zeta.
  repeat split;
    first
      [ apply (f_equal (fun r : Run Unix.MemFs unit => fs_calls (evs r))
                 (proj2 (Revised_RemoveFiles_guard (PO := Unix.paths)
                           (FS := Unix.fs) _ t s eq_refl)
                    ltac:(intros (H1 & H2 & H3 & H4 & rel & H5 & H6 & H7);
                          try contradiction; try discriminate;
                          cbn in H5; inversion H5; subst;
                          first [contradiction | discriminate])))
      | apply (proj1 (Revised_RemoveFiles_guard (PO := Unix.paths)
                        (FS := Unix.fs) _ t s eq_refl));
        repeat split; try discriminate;
        exists "my-test-0"%string; repeat split; discriminate ].
Qed.

(** ** The scenarios of the specification, on the disk in memory *)

(** Scenarios A to D and the relative paths of the examples: after the
    materialization of the scenario tree [proj/.git] is a directory,
    [proj/main.txt] holds its literal, the leaf marked [DoNotCreate] has
    its path and no file, the second generated file holds what its content
    function returns; after [Cleanup] the temp directory is gone. *)
Lemma Scenario_end_to_end :
  let r := RootFixture_Create (PO := Unix.paths) (FS := Unix.fs)
             Scenario.tree Scenario.t Unix.empty_disk in
  failed (evs r) = false /\
  Unix.is_dir (st r) "/tmp/my-test-0/proj/.git" = true /\
  Unix.read (st r) "/tmp/my-test-0/proj/main.txt" = Some "hi"%string /\
  Unix.is_file (st r) "/tmp/my-test-0/proj/src/missing.go" = false /\
  Unix.read (st r) "/tmp/my-test-0/proj/src/file-2.txt" = Some "Text File #2
"%string /\
  exists rf' proj' src' missing file2,
    out r = Ok rf' /\
    rf_ChildFixtures rf' = [RepoChild proj'] /\
    df_ChildFixtures (repo_DirFixture proj') = [DirChild src'] /\
    df_FileFixtures src' = [missing; file2] /\
    ff_Filepath missing = "/tmp/my-test-0/proj/src/missing.go"%string /\
    DirFixture_RelativePath (PO := Unix.paths) src' = Some "proj/src"%string /\
    RepoFixture_RelativeGitPath (PO := Unix.paths) proj' = Some "proj/.git"%string /\
    let c := RootFixture_Cleanup (FS := Unix.fs) rf' (st r) in
    out c = Ok tt /\ failed (evs c) = false /\
    Unix.is_dir (st c) "/tmp/my-test-0" = false /\
    Unix.is_dir (st c) "/tmp/my-test-0/proj/.git" = false /\
    Unix.is_dir (st c) "/tmp" = true.
Proof.
  vm_compute. repeat split. do 5 eexists. repeat split.
Qed.

(** * Further properties of the package *)

(** ** Creation goes on after every failure *)

Section Steady.
Context {PO : PathOps} {FS : FileSystem}.

Lemma orderly_app t e1 e2 : orderly t e1 -> orderly t e2 -> orderly t (e1 ++ e2).
Proof.
  induction 1; simpl; intros H2.
  - exact H2.
  - apply orderly_succeeded; auto.
  - apply orderly_failed; auto.
  - apply orderly_warning; auto.
Qed.

Lemma steady_ret {A} t (a : A) : steady t (ret a).
Proof. intros s. split; [constructor | discriminate]. Qed.

Lemma steady_panic {A} t msg : steady t (panic msg : M fs_state A).
Proof. intros s. split; [constructor | discriminate]. Qed.

Lemma steady_bind {A B} t (m : M fs_state A) (k : A -> M fs_state B) :
  steady t m -> (forall a, steady t (k a)) -> steady t (bind m k).
Proof.
  intros Hm Hk s. unfold bind. destruct (Hm s) as [Ho Hn].
  destruct (out (m s)) as [a | t1 | msg] eqn:Hout; cbn [out evs].
  - destruct (Hk a (st (m s))) as [Ho' Hn'].
    split; [apply orderly_app; assumption | exact Hn'].
  - destruct (Hn t1 eq_refl).
  - split; [exact Ho | discriminate].
Qed.

Lemma steady_warning t b args :
  steady t (when b (t_Errorf t "File permissions not set for %s" args)).
Proof.
  intros s. destruct b; cbn; (split; [| discriminate]); repeat constructor.
Qed.

(** A call whose error is checked right away: [err := call(); if err != nil
    { t.Errorf(...) }], and what follows. *)
Lemma steady_checked {A B} t (m : M fs_state A) (k : A -> M fs_state B) c
    (err_of : A -> error) format (args : A -> list string) :
  (forall s, exists a,
     returns m s a (snd (fs_exec c s)) [FsCalled c (fst (fs_exec c s))] /\
     err_of a = res_err (fst (fs_exec c s))) ->
  (forall a, steady t (k a)) ->
  steady t (a <- m ;;
            when (negb (is_nil (err_of a))) (t_Errorf t format (args a)) ;;
            k a).
Proof.
  intros Hm Hk s. destruct (Hm s) as (a & Hr & He).
  rewrite (bind_run _ _ _ _ _ _ Hr).
  rewrite (bind_run _ _ _ _ _ _ (returns_when_Errorf _ _ _ _ _)).
  cbn [out st evs]. destruct (Hk a (snd (fs_exec c s))) as [Ho Hn].
  split; [| exact Hn]. rewrite He.
  destruct (res_err (fst (fs_exec c s))) as [msg |] eqn:Herr; cbn.
  - apply orderly_failed; [congruence | exact Ho].
  - apply orderly_succeeded; assumption.
Qed.

Lemma steady_Fixture_Dir t pf :
  Fixture_created pf = true -> steady t (Fixture_Dir pf).
Proof.
  destruct pf as [p d0 c t0 | n d0 c t0 par | n d0 c t0 par]; cbn;
    intros ->; destruct t0; intros s; cbn; (split; [constructor | discriminate]).
Qed.

Lemma steady_FileFixture_createFile t ff : steady t (FileFixture_createFile t ff).
Proof.
  unfold FileFixture_createFile.
  destruct (ff_DoNotCreate ff); [apply steady_ret |].
  apply steady_bind; [apply steady_warning |]. intros _.
  apply (steady_checked t _ _
           (MkdirAll (Filepath_Dir (ff_Filepath ff)) (FileMode (ff_DirPermissions ff)))
           (fun err => err)).
  { intros s. eexists. split; [apply returns_dt_MkdirAll | reflexivity]. }
  intros _. cbv zeta.
  match goal with
  | |- steady t (bind (dt_WriteFile ?p ?d ?m) _) =>
      apply (steady_checked t _ _ (WriteFile p d m) (fun err => err))
  end.
  { intros s. eexists. split; [apply returns_dt_WriteFile | reflexivity]. }
  intros _.
  apply steady_bind; [| intros; apply steady_ret].
  destruct (negb _); [| apply steady_ret].
  intros s.
  rewrite (bind_run _ _ _ _ _ _ (returns_dt_ChangeFileTimes _ _ _ _)).
  match goal with
  | |- context [fs_exec ?c s] => destruct (res_err (fst (fs_exec c s))) eqn:Herr
  end; cbn; (split; [| discriminate]).
  - apply orderly_failed; [congruence | constructor].
  - apply orderly_succeeded; [assumption | constructor].
Qed.

Lemma steady_FileFixture_Create t ff pf :
  Fixture_created pf = true -> steady t (FileFixture_Create t ff pf).
Proof.
  intros Hc. unfold FileFixture_Create. cbv zeta.
  apply steady_bind; [apply steady_Fixture_Dir; exact Hc |]. intros d.
  apply steady_FileFixture_createFile.
Qed.

Lemma steady_range {A} t (f : A -> M fs_state A) xs :
  All (fun x => steady t (f x)) xs -> steady t (range f xs).
Proof.
  induction xs as [| x xs IH]; simpl; intros H.
  - apply steady_ret.
  - destruct H as [Hx Hxs].
    apply steady_bind; [exact Hx |]. intros x'.
    apply steady_bind; [exact (IH Hxs) |]. intros r. apply steady_ret.
Qed.

Lemma steady_range_files t pf files :
  Fixture_created pf = true ->
  steady t (range (fun file => FileFixture_Create t file pf) files).
Proof.
  intros Hc. apply steady_range, All_Forall, Forall_forall. intros ff _.
  apply steady_FileFixture_Create. exact Hc.
Qed.

Lemma steady_marker t (rf : RepoFixture) :
  steady t
    (err <- dt_MkdirAll (DirPathJoin (df_dir (repo_DirFixture rf)) ".git") perm_0755 ;;
     when (negb (is_nil err))
       (t_Errorf t "Failed to create .git directory within %s; %v"
          [df_dir (repo_DirFixture rf); error_text err]) ;;
     ret rf).
Proof.
  apply (steady_checked t _ _
           (MkdirAll (DirPathJoin (df_dir (repo_DirFixture rf)) ".git") perm_0755)
           (fun err => err) _
           (fun err => [df_dir (repo_DirFixture rf); error_text err])).
  - intros s. eexists. split; [apply returns_dt_MkdirAll | reflexivity].
  - intros _. apply steady_ret.
Qed.

(** Creation under a parent that has been created, of any fixture and on
    any file system, goes on after every failure and never stops the
    test. *)
Lemma steady_DirFixture_createWithParent df :
  forall t pf,
    Fixture_created pf = true -> steady t (DirFixture_createWithParent t df pf).
Proof.
  induction df using DirFixture_tree_ind with
    (Q := fun c => forall t pf,
            Fixture_created pf = true ->
            steady t (ChildFixture_createWithParent t c pf))
    (R := fun rf => forall t pf,
            Fixture_created pf = true ->
            steady t (RepoFixture_createWithParent t rf pf)).
  - rename H into IHchildren. intros t pf Hc.
    rewrite DirFixture_createWithParent_eq. cbv zeta.
    apply steady_bind; [apply steady_Fixture_Dir; exact Hc |]. intros d.
    apply steady_bind; [apply steady_warning |]. intros _.
    match goal with
    | |- steady t (bind (dt_MkdirAll ?p ?m) _) =>
        apply (steady_checked t _ _ (MkdirAll p m) (fun err => err))
    end.
    { intros s. eexists. split; [apply returns_dt_MkdirAll | reflexivity]. }
    intros _.
    apply steady_bind; [apply steady_range_files; destruct df; reflexivity |].
    intros files.
    apply steady_bind; [| intros; apply steady_ret].
    apply steady_range.
    destruct df as [n fs cs mt pm d0 par cr t0]. cbn in *.
    eapply All_impl; [| exact IHchildren].
    intros c _ H. apply H. reflexivity.
  - intros t pf Hc. rewrite ChildFixture_createWithParent_eq.
    apply steady_bind; [apply IHdf; exact Hc | intros; apply steady_ret].
  - intros t pf Hc. rewrite ChildFixture_createWithParent_eq.
    apply steady_bind; [apply IHdf; exact Hc | intros; apply steady_ret].
  - intros t pf Hc. rewrite RepoFixture_createWithParent_eq. cbv zeta.
    apply steady_bind; [destruct rf; apply IHdf; exact Hc |]. intros df'.
    apply steady_marker.
Qed.

Lemma steady_ChildFixture_createWithParent c t pf :
  Fixture_created pf = true -> steady t (ChildFixture_createWithParent t c pf).
Proof.
  intros Hc. rewrite ChildFixture_createWithParent_eq. destruct c as [df | rf].
  - apply steady_bind; [apply steady_DirFixture_createWithParent; exact Hc |].
    intros; apply steady_ret.
  - apply steady_bind; [| intros; apply steady_ret].
    rewrite RepoFixture_createWithParent_eq. cbv zeta.
    apply steady_bind; [apply steady_DirFixture_createWithParent; exact Hc |].
    intros df'. apply steady_marker.
Qed.

Lemma steady_RootFixture_Create rf t : steady t (RootFixture_Create rf t).
Proof.
  unfold RootFixture_Create. cbv zeta.
  apply (steady_checked t _ _
           (MkdirTemp "" (rf_DirPrefix (set_rf_created true rf) ++ "-*")%string)
           (fun r => snd r) _
           (fun r => [(rf_DirPrefix rf ++ "-*")%string; error_text (snd r)])).
  { intros s. eexists. split; [apply returns_dt_MkdirTemp | reflexivity]. }
  intros r.
  apply steady_bind.
  - apply steady_range, All_Forall, Forall_forall. intros c _.
    apply steady_ChildFixture_createWithParent. reflexivity.
  - intros children.
    apply steady_bind; [apply steady_range_files; reflexivity |].
    intros; apply steady_ret.
Qed.

(** In orderly events a failed call is followed at once by its report, and
    every report is a [t.Errorf] of the test. *)
Lemma orderly_failure_reported t e c r :
  orderly t e -> In (FsCalled c r) e -> res_err r <> None ->
  exists e1 format args e2,
    e = e1 ++ FsCalled c r :: Reported (mkReport false t format args) :: e2.
Proof.
  induction 1 as [| c0 r0 e Hok Ho IH | c0 r0 f a e Hbad Ho IH | a e Ho IH];
    intros Hin Herr.
  - destruct Hin.
  - destruct Hin as [Heq | Hin].
    + inversion Heq; subst. contradiction.
    + destruct (IH Hin Herr) as (e1 & f & a & e2 & ->).
      exists (FsCalled c0 r0 :: e1), f, a, e2. reflexivity.
  - destruct Hin as [Heq | [Heq | Hin]]; [| discriminate |].
    + inversion Heq; subst. exists [], f, a, e. reflexivity.
    + destruct (IH Hin Herr) as (e1 & f' & a' & e2 & ->).
      exists (FsCalled c0 r0 :: Reported (mkReport false t f a) :: e1), f', a', e2.
      reflexivity.
  - destruct Hin as [Heq | Hin]; [discriminate |].
    destruct (IH Hin Herr) as (e1 & f & a' & e2 & ->).
    eexists (_ :: e1), f, a', e2. reflexivity.
Qed.

Lemma orderly_reports t e rp :
  orderly t e -> In (Reported rp) e -> rp_fatal rp = false /\ rp_t rp = t.
Proof.
  induction 1 as [| c0 r0 e Hok Ho IH | c0 r0 f a e Hbad Ho IH | a e Ho IH];
    intros Hin.
  - destruct Hin.
  - destruct Hin as [Heq | Hin]; [discriminate | auto].
  - destruct Hin as [Heq | [Heq | Hin]]; [discriminate | | auto].
    inversion Heq; subst. split; reflexivity.
  - destruct Hin as [Heq | Hin]; [| auto].
    inversion Heq; subst. split; reflexivity.
Qed.

(** In orderly events without a report every call succeeded, and where
    every call succeeded a report can only be the warning about a zero
    permission field. *)
Lemma orderly_silent t e c r :
  orderly t e -> failed e = false -> In (FsCalled c r) e -> res_err r = None.
Proof.
  induction 1 as [| c0 r0 e Hok Ho IH | c0 r0 f a e Hbad Ho IH | a e Ho IH];
    intros Hf Hin.
  - destruct Hin.
  - destruct Hin as [Heq | Hin]; [inversion Heq; subst; exact Hok |].
    apply IH; [exact Hf | exact Hin].
  - discriminate.
  - discriminate.
Qed.

Lemma orderly_no_false_alarm t e rp :
  orderly t e ->
  (forall c r, In (FsCalled c r) e -> res_err r = None) ->
  In (Reported rp) e ->
  rp_format rp = "File permissions not set for %s"%string.
Proof.
  induction 1 as [| c0 r0 e Hok Ho IH | c0 r0 f a e Hbad Ho IH | a e Ho IH];
    intros Hall Hin.
  - destruct Hin.
  - destruct Hin as [Heq | Hin]; [discriminate |].
    apply IH; [| exact Hin]. intros c r H. apply (Hall c r). right. exact H.
  - destruct Hbad. apply (Hall c0 r0). left. reflexivity.
  - destruct Hin as [Heq | Hin]; [inversion Heq; subst; reflexivity |].
    apply IH; [| exact Hin]. intros c r H. apply (Hall c r). right. exact H.
Qed.
End Steady.

Section CreateFailures.
Context {PO : PathOps} {FS : FileSystem}.

(** X2. [RootFixture.Create] never stops the test: on every tree and every
    file system it does not end in [t.FailNow], and every report among its
    events is a [t.Errorf] of the test that called it, not of the tests
    the fixtures were built in. *)
Theorem Create_never_stops_the_test rf t s :
  (forall t', out (RootFixture_Create rf t s) <> FailNow t') /\
  (forall rp,
     In (Reported rp) (evs (RootFixture_Create rf t s)) ->
     rp_fatal rp = false /\ rp_t rp = t).
Proof.
  destruct (steady_RootFixture_Create rf t s) as [Ho Hn].
  split; [exact Hn |]. intros rp Hin. exact (orderly_reports t _ rp Ho Hin).
Qed.

(** X4. No false alarm: when every call of [Create] succeeded, the only
    reports among its events are the warnings about a permission field
    that is zero. *)
Theorem Create_reports_only_failures_and_zero_permissions rf t s rp :
  (forall c r, In (FsCalled c r) (evs (RootFixture_Create rf t s)) ->
               res_err r = None) ->
  In (Reported rp) (evs (RootFixture_Create rf t s)) ->
  rp_format rp = "File permissions not set for %s"%string.
Proof.
  intros Hall Hin.
  destruct (steady_RootFixture_Create rf t s) as [Ho _].
  exact (orderly_no_false_alarm t _ rp Ho Hall Hin).
Qed.
End CreateFailures.

Lemma Create_reports_only_failures_and_zero_permissions_witness :
  let e := evs (RootFixture_Create (PO := Unix.paths) (FS := Unix.fs)
                  Scenario.raw_tree Scenario.t Unix.empty_disk) in
  let rp := mkReport false Scenario.t "File permissions not set for %s"
              ["/tmp/my-test-0/d/raw.txt"%string] in
  (forall c r, In (FsCalled c r) e -> res_err r = None) /\
  In (Reported rp) e /\
  rp_format rp = "File permissions not set for %s"%string.
Proof.
  cbv zeta.
  assert (Hall : forall c r,
            In (FsCalled c r)
              (evs (RootFixture_Create (PO := Unix.paths) (FS := Unix.fs)
                      Scenario.raw_tree Scenario.t Unix.empty_disk)) ->
            res_err r = None).
  { intros c r H. vm_compute in H.
    repeat (destruct H as [H | H]; [try discriminate; inversion H; reflexivity |]).
    destruct H. }
  assert (Hin : In (Reported (mkReport false Scenario.t
                                "File permissions not set for %s"
                                ["/tmp/my-test-0/d/raw.txt"%string]))
                  (evs (RootFixture_Create (PO := Unix.paths) (FS := Unix.fs)
                          Scenario.raw_tree Scenario.t Unix.empty_disk))).
  { vm_compute. do 2 right. left. reflexivity. }
  split; [exact Hall |]. split; [exact Hin |].
  exact (Create_reports_only_failures_and_zero_permissions (PO := Unix.paths)
           (FS := Unix.fs) Scenario.raw_tree Scenario.t Unix.empty_disk _ Hall Hin).
Defined.

(** ** The calls of a creation *)

Section Calls.
Context {PO : PathOps} {FS : FileSystem}.

Lemma range_calls {A} (f : A -> M fs_state A) (g : A -> list FsCall) xs :
  All (fun x => forall s, exists x' s' e,
                  returns (f x) s x' s' e /\ fs_calls e = g x) xs ->
  forall s, exists xs' s' e,
    returns (range f xs) s xs' s' e /\ fs_calls e = flat_map g xs.
Proof.
  induction xs as [| x xs IH]; simpl; intros H s.
  - exists [], s, []. split; reflexivity.
  - destruct H as [Hx Hxs].
    destruct (Hx s) as (x' & s1 & e1 & Hr1 & Hc1).
    destruct (IH Hxs s1) as (xs' & s2 & e2 & Hr2 & Hc2).
    exists (x' :: xs'), s2, (e1 ++ e2 ++ []). split.
    + eapply returns_bind; [exact Hr1 |].
      eapply returns_bind; [exact Hr2 |]. apply returns_ret.
    + rewrite app_nil_r, fs_calls_app, Hc1, Hc2. reflexivity.
Qed.

Lemma range_files_calls t files pf d s :
  out (Fixture_Dir pf s) = Ok d ->
  exists files' s' e,
    returns (range (fun file => FileFixture_Create t file pf) files) s files' s' e /\
    fs_calls e =
      flat_map (fun ff => createFile_calls (FileFixture_resolved ff pf d)) files.
Proof.
  intros Hd. apply range_calls.
  apply All_Forall, Forall_forall. intros ff _ s0.
  destruct (FileFixture_Create_returns t ff pf s0 d
              (Fixture_Dir_any_state _ _ _ _ Hd)) as (s1 & e1 & Hr & Hc & _).
  eauto 6.
Qed.

(** What [createWithParent] leaves in the fixture it returns. *)
Lemma DirFixture_createWithParent_fields t df pf d s df' s' e :
  out (Fixture_Dir pf s) = Ok d ->
  returns (DirFixture_createWithParent t df pf) s df' s' e ->
  df_dir df' = DirPathJoin d (df_Name df) /\
  df_created df' = true /\
  df_Name df' = df_Name df /\
  df_t df' = df_t df /\
  df_Parent df' = df_Parent df /\
  df_Permissions df' = df_Permissions df /\
  df_ModifiedTime df' = df_ModifiedTime df.
Proof.
  intros Hd H. rewrite DirFixture_createWithParent_eq in H. cbv zeta in H.
  apply returns_bind_inv in H as (d1 & s1 & e1 & e1' & Hdir & H & ->).
  destruct (returns_fun _ _ _ _ _ _ _ _ Hdir (Fixture_Dir_returns _ _ _ Hd))
    as (-> & _ & _).
  apply returns_bind_inv in H as (u1 & s2 & e2 & e2' & _ & H & ->).
  apply returns_bind_inv in H as (err & s3 & e3 & e3' & _ & H & ->).
  apply returns_bind_inv in H as (u2 & s4 & e4 & e4' & _ & H & ->).
  apply returns_bind_inv in H as (files & s5 & e5 & e5' & _ & H & ->).
  apply returns_bind_inv in H as (children & s6 & e6 & e6' & _ & H & ->).
  unfold returns, ret in H. inversion H; subst.
  destruct df. repeat split.
Qed.

(** The calls of a creation are a function of the fixture and of the
    directory of its parent: they do not depend on what the file system
    answers. *)
Lemma DirFixture_createWithParent_explicit df :
  forall t pf d s,
    out (Fixture_Dir pf s) = Ok d ->
    DirFixture_has_t df ->
    exists df' s' e,
      returns (DirFixture_createWithParent t df pf) s df' s' e /\
      fs_calls e = DirFixture_calls d df.
Proof.
  induction df using DirFixture_tree_ind with
    (Q := fun c => forall t pf d s,
            out (Fixture_Dir pf s) = Ok d ->
            ChildFixture_has_t c ->
            exists c' s' e,
              returns (ChildFixture_createWithParent t c pf) s c' s' e /\
              fs_calls e = ChildFixture_calls d c)
    (R := fun rf => forall t pf d s,
            out (Fixture_Dir pf s) = Ok d ->
            RepoFixture_has_t rf ->
            exists rf' s' e,
              returns (RepoFixture_createWithParent t rf pf) s rf' s' e /\
              fs_calls e = RepoFixture_calls d rf).
  - rename H into IHchildren.
    intros t pf d s Hd Ht.
    destruct df as [n fs cs mt pm d0 par cr t0].
    cbn in IHchildren.
    cbn [DirFixture_has_t df_t df_ChildFixtures] in Ht.
    destruct Ht as [Ht Hcs].
    destruct t0 as [tid |]; [clear Ht | contradiction].
    set (df1 := mkDirFixture n fs cs mt pm (DirPathJoin d n) par true (Some tid)).
    assert (Hd1 : forall s0, out (Fixture_Dir (DirFixture_ptr df1) s0)
                             = Ok (DirPathJoin d n)) by reflexivity.
    destruct (range_files_calls t fs (DirFixture_ptr df1) (DirPathJoin d n)
                (snd (fs_exec (MkdirAll (DirPathJoin d n) (FileMode pm)) s))
                (Hd1 _)) as (fs' & s2 & e2 & Hfiles & Hfc).
    destruct (range_calls
                (fun child =>
                   ChildFixture_createWithParent t child (DirFixture_ptr df1))
                (ChildFixture_calls (DirPathJoin d n)) cs) with (s := s2)
      as (cs' & s3 & e3 & Hchildren & Hcc).
    { clear - IHchildren Hcs Hd1.
      induction cs as [| c cs IH]; simpl; [exact I |].
      destruct IHchildren as [Hc Hrest]. destruct Hcs as [Hac Harest].
      split; [| apply IH; assumption].
      intros s0. apply Hc; [apply Hd1 | exact Hac]. }
    do 3 eexists. split.
    + rewrite DirFixture_createWithParent_eq. cbv zeta.
      eapply returns_bind; [apply Fixture_Dir_returns; exact Hd |].
      eapply returns_bind; [apply returns_when_Errorf |].
      eapply returns_bind; [apply returns_dt_MkdirAll |].
      eapply returns_bind; [apply returns_when_Errorf |].
      eapply returns_bind; [exact Hfiles |].
      eapply returns_bind; [exact Hchildren |].
      apply returns_ret.
    + rewrite !fs_calls_app, !fs_calls_report_if, Hfc, Hcc.
      cbn. rewrite app_nil_r. reflexivity.
  - intros t pf d s Hd Ht.
    destruct (IHdf t pf d s Hd Ht) as (df' & s' & e & Hr & Hc).
    exists (DirChild df'), s', (e ++ []). split.
    + rewrite ChildFixture_createWithParent_eq.
      eapply returns_bind; [exact Hr | apply returns_ret].
    + rewrite app_nil_r. exact Hc.
  - intros t pf d s Hd Ht.
    destruct (IHdf t pf d s Hd Ht) as (rf' & s' & e & Hr & Hc).
    exists (RepoChild rf'), s', (e ++ []). split.
    + rewrite ChildFixture_createWithParent_eq.
      eapply returns_bind; [exact Hr | apply returns_ret].
    + rewrite app_nil_r. exact Hc.
  - intros t pf d s Hd Ht.
    destruct rf as [df cr t0]. cbn in IHdf, Ht.
    destruct (IHdf t pf d s Hd Ht) as (df' & s' & e & Hr & Hc).
    pose proof (RepoFixture_createWithParent_run t (mkRepoFixture df cr t0)
                  pf s df' s' e Hr) as Hrun.
    do 3 eexists. split; [exact Hrun |].
    rewrite fs_calls_app, Hc.
    change (?x :: ?l) with ([x] ++ l) at 1.
    rewrite fs_calls_app, fs_calls_report_if. cbn [fs_calls flat_map app].
    cbn [RepoFixture_calls repo_DirFixture].
    destruct (DirFixture_createWithParent_fields _ _ _ _ _ _ _ _ Hd Hr)
      as (-> & _).
    reflexivity.
Qed.

(** [Create] on a tree in which every fixture holds a test context. *)
Lemma RootFixture_Create_explicit rf t s :
  All ChildFixture_has_t (rf_ChildFixtures rf) ->
  let tmp := res_path (fst (fs_exec (MkdirTemp "" (rf_DirPrefix rf ++ "-*")%string) s)) in
  exists rf' s' e,
    returns (RootFixture_Create rf t) s rf' s' e /\
    fs_calls e = RootFixture_calls rf t tmp.
Proof.
  intros Ht. cbv zeta. unfold RootFixture_Create. cbv zeta.
  set (own := MkdirTemp "" (rf_DirPrefix (set_rf_created true rf) ++ "-*")%string).
  set (tmp := res_path (fst (fs_exec own s))).
  set (rf1 := set_rf_cleanupFunc (Some (RemoveTempDir t))
                (set_rf_tempDir tmp (set_rf_created true rf))).
  assert (Hd : forall s0, out (Fixture_Dir (RootFixture_ptr rf1) s0) = Ok tmp)
    by reflexivity.
  destruct (range_calls
              (fun cf => ChildFixture_createWithParent t cf (RootFixture_ptr rf1))
              (ChildFixture_calls tmp) (rf_ChildFixtures rf))
    with (s := snd (fs_exec own s)) as (cs' & s2 & e2 & Hchildren & Hcc).
  { apply All_Forall, Forall_forall. intros c Hc s0.
    apply All_Forall in Ht. rewrite Forall_forall in Ht.
    destruct c as [df | repo]; rewrite ChildFixture_createWithParent_eq.
    - destruct (DirFixture_createWithParent_explicit df t _ tmp s0 (Hd s0)
                  (Ht _ Hc)) as (df' & s' & e & Hr & Hcalls).
      exists (DirChild df'), s', (e ++ []). split.
      + eapply returns_bind; [exact Hr | apply returns_ret].
      + rewrite app_nil_r. exact Hcalls.
    - pose proof (Ht _ Hc) as Hrepo. destruct repo as [df cr t0].
      cbn in Hrepo.
      destruct (DirFixture_createWithParent_explicit df t _ tmp s0 (Hd s0)
                  Hrepo) as (df' & s' & e & Hr & Hcalls).
      pose proof (RepoFixture_createWithParent_run t (mkRepoFixture df cr t0)
                    _ s0 df' s' e Hr) as Hrun.
      do 3 eexists. split.
      + eapply returns_bind; [exact Hrun | apply returns_ret].
      + rewrite app_nil_r, fs_calls_app, Hcalls.
        change (?x :: ?l) with ([x] ++ l) at 1.
        rewrite fs_calls_app, fs_calls_report_if. cbn [fs_calls flat_map app].
        cbn [ChildFixture_calls RepoFixture_calls repo_DirFixture].
        destruct (DirFixture_createWithParent_fields _ _ _ _ _ _ _ _ (Hd s0) Hr)
          as (-> & _).
        reflexivity. }
  destruct (range_files_calls t (rf_FileFixtures rf) (RootFixture_ptr rf1) tmp s2
              (Hd _)) as (fs' & s3 & e3 & Hfiles & Hfc).
  do 3 eexists. split.
  - eapply returns_bind; [apply returns_dt_MkdirTemp |].
    eapply returns_bind; [apply returns_when_Errorf |].
    eapply returns_bind; [exact Hchildren |].
    eapply returns_bind; [exact Hfiles |].
    apply returns_ret.
  - rewrite !fs_calls_app, !fs_calls_report_if, Hcc, Hfc.
    cbn. rewrite app_nil_r. reflexivity.
Qed.
End Calls.

Section CreateCalls.
Context {PO : PathOps} {FS : FileSystem}.

(** X5. The calls of [Create] are a function of the tree and of the path
    [MkdirTemp] returns, whatever the file system answers to them: the
    temp directory; then for every child, in the order of attachment, its
    directory, its file leaves, its children, and for a repository its
    marker last; then the file leaves of the root.  A leaf makes the
    directory of its path, writes, and sets its times if it has one. *)
Theorem Create_calls_are_determined_by_the_tree rf t s :
  RootFixture_has_t rf ->
  exists rf' s' e,
    returns (RootFixture_Create rf t) s rf' s' e /\
    fs_calls e =
      RootFixture_calls rf t
        (res_path (fst (fs_exec (MkdirTemp "" (rf_DirPrefix rf ++ "-*")%string) s))).
Proof. intros Ht. exact (RootFixture_Create_explicit rf t s Ht). Qed.

(** X6. When [MkdirTemp] fails, [Create] reports it with [t.Errorf] and
    goes on: the root counts as created, its [tempDir] is the path that
    came with the error, and every directory and file of the tree is still
    asked for, under that path. *)
Theorem Create_goes_on_when_MkdirTemp_fails rf t s msg :
  RootFixture_has_t rf ->
  res_err (fst (fs_exec (MkdirTemp "" (rf_DirPrefix rf ++ "-*")%string) s))
    = Some msg ->
  let tmp :=
    res_path (fst (fs_exec (MkdirTemp "" (rf_DirPrefix rf ++ "-*")%string) s)) in
  exists rf' s' e,
    returns (RootFixture_Create rf t) s rf' s' e /\
    In (Reported (mkReport false t
                    "Failed to create temp directory using '%s'; %v"
                    [(rf_DirPrefix rf ++ "-*")%string; msg])) e /\
    rf_created rf' = true /\
    rf_tempDir rf' = tmp /\
    (forall s2, returns (RootFixture_Dir rf') s2 tmp s2 []) /\
    fs_calls e = RootFixture_calls rf t tmp.
Proof.
  intros Ht Herr. cbv zeta.
  destruct (RootFixture_Create_explicit rf t s Ht) as (rf' & s' & e & Hr & Hc).
  destruct (RootFixture_Create_fields _ _ _ _ _ _ Hr) as (Hcr & _ & _ & _ & Htmp).
  exists rf', s', e. split; [exact Hr |]. split; [| split; [exact Hcr |]].
  - assert (He : e = evs (RootFixture_Create rf t s))
      by (unfold returns in Hr; rewrite Hr; reflexivity).
    rewrite He. unfold RootFixture_Create. cbv zeta.
    rewrite (evs_bind _ _ _ _ _ _ (returns_dt_MkdirTemp _ _ _)).
    rewrite (evs_bind _ _ _ _ _ _ (returns_when_Errorf _ _ _ _ _)).
    cbn [snd rf_DirPrefix set_rf_created set_rf_tempDir].
    rewrite Herr. cbn [is_nil negb report_if error_text].
    right. left. reflexivity.
  - split; [exact Htmp |]. split; [| exact Hc].
    intros s2. unfold RootFixture_Dir, RootFixture_ensureCreated,
      RootFixture_ensureCreated'. rewrite Hcr, Htmp. reflexivity.
Qed.

(** X7. [Create] removes nothing, on every tree: no call of it is a
    [RemoveAll], and on a lawful file system a directory that exists when
    [Create] starts exists when it ends. *)
Theorem Create_removes_nothing rf t s p :
  lawful ->
  fs_IsDir s p = true ->
  fs_IsDir (st (RootFixture_Create rf t s)) p = true /\
  no_removal (evs (RootFixture_Create rf t s)).
Proof.
  intros Hlaw Hp.
  destruct (faithful_RootFixture_Create rf t s) as [Ht Hn].
  split; [| exact Hn].
  exact (trace_keeps_dirs _ _ _ _ Hlaw Ht Hn Hp).
Qed.

End CreateCalls.

Lemma Scenario_tree_has_t : RootFixture_has_t Scenario.tree.
Proof. cbn. repeat split; discriminate. Qed.

Lemma Create_calls_are_determined_by_the_tree_witness :
  RootFixture_has_t Scenario.tree /\
  exists rf' s' e,
    returns (RootFixture_Create (PO := Unix.paths) (FS := Unix.fs)
               Scenario.tree Scenario.t) Unix.empty_disk rf' s' e /\
    fs_calls e =
      [MkdirTemp "" "my-test-*";
       MkdirAll "/tmp/my-test-0/proj" perm_0755;
       MkdirAll "/tmp/my-test-0/proj" perm_0755;
       WriteFile "/tmp/my-test-0/proj/main.txt" "hi" perm_0644;
       MkdirAll "/tmp/my-test-0/proj/src" perm_0755;
       MkdirAll "/tmp/my-test-0/proj/src" perm_0755;
       WriteFile "/tmp/my-test-0/proj/src/file-2.txt" "Text File #2
" perm_0644;
       MkdirAll "/tmp/my-test-0/proj/.git" perm_0755;
       MkdirAll "/tmp/my-test-0" perm_0755;
       WriteFile "/tmp/my-test-0/test.json" "test data" perm_0644].
Proof.
  split; [exact Scenario_tree_has_t |].
  exact (Create_calls_are_determined_by_the_tree (PO := Unix.paths)
           (FS := Unix.fs) Scenario.tree Scenario.t Unix.empty_disk
           Scenario_tree_has_t).
Defined.

Lemma Scenario_nested_prefix_has_t : RootFixture_has_t Scenario.nested_prefix.
Proof. cbn. repeat split; discriminate. Qed.

Lemma Create_goes_on_when_MkdirTemp_fails_witness :
  RootFixture_has_t Scenario.nested_prefix /\
  res_err (fst (Unix.exec (MkdirTemp "" "test/nested-*") Unix.empty_disk))
    = Some "mkdirtemp test/nested-*: pattern contains path separator"%string /\
  exists rf' s' e,
    returns (RootFixture_Create (PO := Unix.paths) (FS := Unix.fs)
               Scenario.nested_prefix Scenario.t) Unix.empty_disk rf' s' e /\
    In (Reported (mkReport false Scenario.t
                    "Failed to create temp directory using '%s'; %v"
                    ["test/nested-*"%string;
                     "mkdirtemp test/nested-*: pattern contains path separator"%string]))
      e /\
    rf_created rf' = true /\
    rf_tempDir rf' = ""%string /\
    (forall s2, returns (RootFixture_Dir (FS := Unix.fs) rf') s2 ""%string s2 []) /\
    fs_calls e = [MkdirTemp "" "test/nested-*"; MkdirAll "d" perm_0755].
Proof.
  split; [exact Scenario_nested_prefix_has_t |]. split; [reflexivity |].
  exact (Create_goes_on_when_MkdirTemp_fails (PO := Unix.paths) (FS := Unix.fs)
           Scenario.nested_prefix Scenario.t Unix.empty_disk
           "mkdirtemp test/nested-*: pattern contains path separator"
           Scenario_nested_prefix_has_t eq_refl).
Defined.

Lemma Create_removes_nothing_witness :
  let r := RootFixture_Create (PO := Unix.paths) (FS := Unix.fs)
             Scenario.tree Scenario.t Unix.empty_disk in
  lawful (FS := Unix.fs) /\
  fs_IsDir (FileSystem := Unix.fs) Unix.empty_disk "/tmp" = true /\
  fs_IsDir (FileSystem := Unix.fs) (st r) "/tmp" = true /\
  no_removal (evs r).
Proof.
  cbv zeta. split; [exact Unix_fs_lawful |]. split; [reflexivity |].
  exact (Create_removes_nothing (PO := Unix.paths) (FS := Unix.fs)
           Scenario.tree Scenario.t Unix.empty_disk "/tmp" Unix_fs_lawful eq_refl).
Defined.

(** ** Constructors and what they lead to on the disk *)

Section Constructed.
Context {PO : PathOps} {FS : FileSystem}.

Lemma permission_warning_app e1 e2 :
  permission_warning (e1 ++ e2) = permission_warning e1 || permission_warning e2.
Proof. apply existsb_app. Qed.

Lemma permission_warning_call c r e :
  permission_warning (FsCalled c r :: e) = permission_warning e.
Proof. reflexivity. Qed.

(** [createFile] warns about the permissions exactly when it is to write
    a leaf whose [Permissions] are zero. *)
Lemma permission_warning_createFile t ff s :
  permission_warning (evs (FileFixture_createFile t ff s)) =
    negb (ff_DoNotCreate ff) && (ff_Permissions ff =? 0)%Z.
Proof.
  unfold FileFixture_createFile.
  destruct (ff_DoNotCreate ff); [reflexivity |]. cbn [negb andb].
  rewrite (evs_bind _ _ _ _ _ _ (returns_when_Errorf _ _ _ _ _)).
  rewrite (evs_bind _ _ _ _ _ _ (returns_dt_MkdirAll _ _ _)).
  rewrite (evs_bind _ _ _ _ _ _ (returns_when_Errorf _ _ _ _ _)).
  cbv zeta.
  rewrite (evs_bind _ _ _ _ _ _ (returns_dt_WriteFile _ _ _ _)).
  rewrite (evs_bind _ _ _ _ _ _ (returns_when_Errorf _ _ _ _ _)).
  rewrite evs_bind_ret.
  rewrite !permission_warning_app.
  assert (Htail : forall s0 (g : FileFixture),
            permission_warning
              (evs ((if negb (IsZero (ff_ModifiedTime g))
                     then err <- dt_ChangeFileTimes (ff_Filepath g)
                                   (ff_ModifiedTime g) (ff_ModifiedTime g) ;;
                          when (negb (is_nil err))
                            (t_Errorf t "Failed to set modification time for %s"
                               [ff_Filepath g])
                     else ret tt) s0)) = false).
  { intros s0 g. destruct (negb (IsZero (ff_ModifiedTime g))); [| reflexivity].
    rewrite (evs_bind _ _ _ _ _ _ (returns_dt_ChangeFileTimes _ _ _ _)).
    destruct (negb (is_nil _)); reflexivity. }
  rewrite Htail.
  destruct (ff_Permissions ff =? 0)%Z; cbn [report_if];
    repeat match goal with
           | |- context [report_if (negb (is_nil ?x))] => destruct (negb (is_nil x))
           end; reflexivity.
Qed.

(** X9. A leaf that comes from the constructor never draws the warning
    about its permissions when it is created: zero permission fields were
    replaced by the defaults.  A leaf built with nil args is written as an
    empty file with mode 0644, after its directory was asked for with mode
    0755. *)
Theorem constructed_leaf_is_created_with_defaults t0 t name args pf s d :
  out (Fixture_Dir pf s) = Ok d ->
  exists ff' s' e,
    returns (FileFixture_Create t (newFileFixture t0 name args) pf) s ff' s' e /\
    permission_warning e = false /\
    (args = None ->
     fs_calls e =
       [MkdirAll (Filepath_Dir (FilepathJoin d name)) perm_0755;
        WriteFile (FilepathJoin d name) "" perm_0644]).
Proof.
  intros Hd.
  destruct (FileFixture_Create_returns t (newFileFixture t0 name args) pf s d Hd)
    as (s' & e & Hr & Hc & _).
  do 3 eexists. split; [exact Hr |]. split.
  - assert (He : e = evs (FileFixture_Create t (newFileFixture t0 name args) pf s))
      by (unfold returns in Hr; rewrite Hr; reflexivity).
    rewrite He. unfold FileFixture_Create. cbv zeta.
    rewrite (evs_bind _ _ _ _ _ _ (Fixture_Dir_returns _ _ _ Hd)).
    cbn [app]. rewrite permission_warning_createFile.
    cbn [ff_Permissions ff_data with_data set_ff_Filepath set_ff_Parent
           set_ff_created newFileFixture].
    destruct (_ && _) eqn:Hw; [| reflexivity].
    apply andb_prop in Hw as [_ Hw].
    destruct (ffa_Permissions _ =? 0)%Z eqn:Hp; [discriminate | congruence].
  - intros ->. rewrite Hc. reflexivity.
Qed.

(** The repository the constructor builds. *)
Lemma newRepoFixture_eq t0 name args :
  newRepoFixture t0 name (Some args) =
  mkRepoFixture
    (mkDirFixture name [] [] (rfa_ModifiedTime args)
       (if (rfa_Permissions args =? 0)%Z then perm_0755 else rfa_Permissions args)
       "" (rfa_Parent args) false (Some t0)) false (Some t0).
Proof.
  unfold newRepoFixture, newDirFixture.
  cbn [dfa_Permissions dfa_Files dfa_ModifiedTime dfa_Parent].
  destruct (rfa_Permissions args =? 0)%Z eqn:Hp.
  - reflexivity.
  - rewrite Hp. reflexivity.
Qed.

(** X10. [newRepoFixture] drops the [Files] of its args: a repository built
    from args with files is created as its directory and its marker and
    nothing else, and holds no file leaf, while a directory fixture built
    from the same [Files] creates each of them.  The [ModifiedTime] of the
    args is applied to neither directory. *)
Theorem RepoFixtureArgs_Files_are_dropped t0 t name args pf s d :
  out (Fixture_Dir pf s) = Ok d ->
  let perm := if (rfa_Permissions args =? 0)%Z then perm_0755
              else rfa_Permissions args in
  let dir := DirPathJoin d name in
  (exists repo' s' e,
     returns (RepoFixture_createWithParent t (newRepoFixture t0 name (Some args)) pf)
       s repo' s' e /\
     fs_calls e =
       [MkdirAll dir (FileMode perm); MkdirAll (DirPathJoin dir ".git") perm_0755] /\
     df_FileFixtures (repo_DirFixture repo') = []) /\
  (exists df' s' e,
     returns (DirFixture_createWithParent t
                (newDirFixture t0 name
                   (Some (mkDirFixtureArgs (rfa_Files args) (rfa_Permissions args)
                            (rfa_ModifiedTime args) (rfa_Parent args)))) pf)
       s df' s' e /\
     fs_calls e =
       MkdirAll dir (FileMode perm)
       :: flat_map
            (fun ff =>
               createFile_calls
                 (FileFixture_resolved ff
                    (DirFixturePtr name dir true (Some t0) (rfa_Parent args)) dir))
            (rfa_Files args)).
Proof.
  intros Hd. cbv zeta. split.
  - rewrite newRepoFixture_eq.
    set (perm := if (rfa_Permissions args =? 0)%Z then perm_0755
                 else rfa_Permissions args).
    assert (Hdir : exists s1 e1,
              returns (DirFixture_createWithParent t
                         (mkDirFixture name [] [] (rfa_ModifiedTime args) perm ""
                            (rfa_Parent args) false (Some t0)) pf)
                s (mkDirFixture name [] [] (rfa_ModifiedTime args) perm
                     (DirPathJoin d name) (rfa_Parent args) true (Some t0))
                s1 e1 /\
              fs_calls e1 = [MkdirAll (DirPathJoin d name) (FileMode perm)]).
    { do 2 eexists. split.
      - rewrite DirFixture_createWithParent_eq. cbv zeta.
        eapply returns_bind; [apply Fixture_Dir_returns; exact Hd |].
        eapply returns_bind; [apply returns_when_Errorf |].
        eapply returns_bind; [apply returns_dt_MkdirAll |].
        eapply returns_bind; [apply returns_when_Errorf |].
        eapply returns_bind; [apply returns_ret |].
        eapply returns_bind; [apply returns_ret |].
        apply returns_ret.
      - rewrite !fs_calls_app, !fs_calls_report_if. reflexivity. }
    destruct Hdir as (s1 & e1 & Hr & Hc).
    pose proof (RepoFixture_createWithParent_run t
                  (mkRepoFixture
                     (mkDirFixture name [] [] (rfa_ModifiedTime args) perm ""
                        (rfa_Parent args) false (Some t0)) false (Some t0))
                  pf s _ s1 e1 Hr) as Hrun.
    do 3 eexists. split; [exact Hrun |]. split; [| reflexivity].
    rewrite fs_calls_app, Hc.
    change (?x :: ?l) with ([x] ++ l) at 2.
    rewrite fs_calls_app, fs_calls_report_if. reflexivity.
  - set (df := newDirFixture t0 name
                 (Some (mkDirFixtureArgs (rfa_Files args) (rfa_Permissions args)
                          (rfa_ModifiedTime args) (rfa_Parent args)))).
    assert (Ht : DirFixture_has_t df) by (cbn; split; [discriminate | exact I]).
    destruct (DirFixture_createWithParent_explicit df t pf d s Hd Ht)
      as (df' & s' & e & Hr & Hc).
    exists df', s', e. split; [exact Hr |].
    rewrite Hc. cbn. rewrite app_nil_r. reflexivity.
Qed.

(** X11. The accessors of a repository that has been created return
    without a call to the file system and without a report: [Dir] gives the
    directory of the parent joined with the name, [GitPath] the path of
    the marker whose creation was asked for, and [MakeDir] the directory
    joined with its argument; [MakeDir] makes no directory.  The same
    holds of [Dir] and [MakeDir] of its embedded directory fixture. *)
Theorem created_repository_accessors_are_pure t repo pf d s fp :
  out (Fixture_Dir pf s) = Ok d ->
  RepoFixture_has_t repo ->
  repo_t repo <> None ->
  let dir := DirPathJoin d (df_Name (repo_DirFixture repo)) in
  exists repo' s' e,
    returns (RepoFixture_createWithParent t repo pf) s repo' s' e /\
    In (MkdirAll (DirPathJoin dir ".git") perm_0755) (fs_calls e) /\
    forall s2,
      returns (RepoFixture_Dir repo') s2 dir s2 [] /\
      returns (RepoFixture_GitPath repo') s2 (DirPathJoin dir ".git") s2 [] /\
      returns (RepoFixture_MakeDir repo' fp) s2 (DirPathJoin dir fp) s2 [] /\
      returns (DirFixture_Dir (repo_DirFixture repo')) s2 dir s2 [] /\
      returns (DirFixture_MakeDir (repo_DirFixture repo') fp) s2
        (DirPathJoin dir fp) s2 [].
Proof.
  intros Hd Ht Hrt. cbv zeta.
  destruct repo as [df cr t1]. cbn in Ht, Hrt. cbn [repo_DirFixture].
  destruct (DirFixture_createWithParent_explicit df t pf d s Hd Ht)
    as (df' & s' & e & Hr & _).
  destruct (DirFixture_createWithParent_fields _ _ _ _ _ _ _ _ Hd Hr)
    as (Hdir & Hcr & Hname & Hdt & _).
  pose proof (RepoFixture_createWithParent_run t (mkRepoFixture df cr t1)
                pf s df' s' e Hr) as Hrun.
  do 3 eexists. split; [exact Hrun |]. split.
  - rewrite fs_calls_app. apply in_or_app. right.
    rewrite Hdir. left. reflexivity.
  - intros s2.
    assert (Hdft : exists tid, df_t df' = Some tid).
    { rewrite Hdt. destruct df as [n fs cs mt pm d0 par c0 t2]. cbn in Ht.
      destruct Ht as [Ht _]. cbn. destruct t2; [eauto | contradiction]. }
    destruct Hdft as (tid & Hdft).
    destruct t1 as [tid1 |]; [| contradiction].
    unfold RepoFixture_Dir, RepoFixture_GitPath, RepoFixture_MakeDir,
      RepoFixture_Dir, DirFixture_MakeDir, DirFixture_Dir,
      DirFixture_ensureCreated,
      DirFixture_ensureCreated', RepoFixture_ensureCreated, returns.
    cbn [repo_DirFixture repo_t repo_created].
    rewrite Hcr, Hdft, Hdir. repeat split.
Qed.
End Constructed.

Lemma constructed_leaf_is_created_with_defaults_witness :
  out (Fixture_Dir (FS := Unix.fs) Scenario.created_root Scenario.my_test_disk)
    = Ok "/tmp/my-test-0"%string /\
  exists ff' s' e,
    returns (FileFixture_Create (PO := Unix.paths) (FS := Unix.fs) Scenario.t
               (newFileFixture Scenario.t "empty.txt" None) Scenario.created_root)
      Scenario.my_test_disk ff' s' e /\
    permission_warning e = false /\
    fs_calls e =
      [MkdirAll "/tmp/my-test-0" perm_0755;
       WriteFile "/tmp/my-test-0/empty.txt" "" perm_0644].
Proof.
  split; [reflexivity |].
  destruct (constructed_leaf_is_created_with_defaults (PO := Unix.paths)
              (FS := Unix.fs) Scenario.t Scenario.t "empty.txt" None
              Scenario.created_root Scenario.my_test_disk "/tmp/my-test-0" eq_refl)
    as (ff' & s' & e & Hr & Hw & Hc).
  exists ff', s', e. split; [exact Hr |]. split; [exact Hw |].
  exact (Hc eq_refl).
Defined.

Lemma RepoFixtureArgs_Files_are_dropped_witness :
  let args := mkRepoFixtureArgs [Scenario.raw_leaf] 0 0 None in
  out (Fixture_Dir (FS := Unix.fs) Scenario.created_root Scenario.my_test_disk)
    = Ok "/tmp/my-test-0"%string /\
  (exists repo' s' e,
     returns (RepoFixture_createWithParent (PO := Unix.paths) (FS := Unix.fs)
                Scenario.t (newRepoFixture Scenario.t "r" (Some args))
                Scenario.created_root)
       Scenario.my_test_disk repo' s' e /\
     fs_calls e =
       [MkdirAll "/tmp/my-test-0/r" perm_0755;
        MkdirAll "/tmp/my-test-0/r/.git" perm_0755] /\
     df_FileFixtures (repo_DirFixture repo') = []) /\
  (exists df' s' e,
     returns (DirFixture_createWithParent (PO := Unix.paths) (FS := Unix.fs)
                Scenario.t
                (newDirFixture Scenario.t "r"
                   (Some (mkDirFixtureArgs [Scenario.raw_leaf] 0 0 None)))
                Scenario.created_root)
       Scenario.my_test_disk df' s' e /\
     fs_calls e =
       [MkdirAll "/tmp/my-test-0/r" perm_0755;
        MkdirAll "/tmp/my-test-0/r" 0;
        WriteFile "/tmp/my-test-0/r/raw.txt" "raw" 0]).
Proof.
  cbv zeta. split; [reflexivity |].
  exact (RepoFixtureArgs_Files_are_dropped (PO := Unix.paths) (FS := Unix.fs)
           Scenario.t Scenario.t "r" (mkRepoFixtureArgs [Scenario.raw_leaf] 0 0 None)
           Scenario.created_root Scenario.my_test_disk "/tmp/my-test-0" eq_refl).
Defined.

Lemma Scenario_proj_has_t : RepoFixture_has_t Scenario.proj.
Proof. cbn. repeat split; discriminate. Qed.

Lemma created_repository_accessors_are_pure_witness :
  out (Fixture_Dir (FS := Unix.fs) Scenario.created_root Scenario.my_test_disk)
    = Ok "/tmp/my-test-0"%string /\
  RepoFixture_has_t Scenario.proj /\
  repo_t Scenario.proj <> None /\
  exists repo' s' e,
    returns (RepoFixture_createWithParent (PO := Unix.paths) (FS := Unix.fs)
               Scenario.t Scenario.proj Scenario.created_root)
      Scenario.my_test_disk repo' s' e /\
    In (MkdirAll "/tmp/my-test-0/proj/.git" perm_0755) (fs_calls e) /\
    forall s2,
      returns (RepoFixture_Dir (FS := Unix.fs) repo') s2
        "/tmp/my-test-0/proj"%string s2 [] /\
      returns (RepoFixture_GitPath (PO := Unix.paths) (FS := Unix.fs) repo') s2
        "/tmp/my-test-0/proj/.git"%string s2 [] /\
      returns (RepoFixture_MakeDir (PO := Unix.paths) (FS := Unix.fs) repo' "sub") s2
        "/tmp/my-test-0/proj/sub"%string s2 [] /\
      returns (DirFixture_Dir (FS := Unix.fs) (repo_DirFixture repo')) s2
        "/tmp/my-test-0/proj"%string s2 [] /\
      returns (DirFixture_MakeDir (PO := Unix.paths) (FS := Unix.fs)
                 (repo_DirFixture repo') "sub") s2
        "/tmp/my-test-0/proj/sub"%string s2 [].
Proof.
  split; [reflexivity |]. split; [exact Scenario_proj_has_t |].
  split; [discriminate |].
  exact (created_repository_accessors_are_pure (PO := Unix.paths) (FS := Unix.fs)
           Scenario.t Scenario.proj Scenario.created_root "/tmp/my-test-0"
           Scenario.my_test_disk "sub" eq_refl Scenario_proj_has_t
           ltac:(discriminate)).
Defined.

(** ** Relative paths *)

Section Relative.
Context {PO : PathOps} {FS : FileSystem}.

(** X12. Relative paths need no creation.  Right after the attach methods
    have returned, a repository attached to the root, a directory attached
    to that repository and a file attached to that directory have their
    relative paths, each the relative path of its parent joined with its
    name, and the repository has its relative marker path; at that time
    [GitPath] and [Dir] stop the test. *)
Theorem relative_paths_need_no_creation rf t name rargs dname dargs fname fargs
    (s : fs_state) :
  exists rf1 repo repo1 df df1 ff,
    returns (RootFixture_AddRepoFixture rf t name rargs) s (rf1, repo) s [] /\
    returns (RepoFixture_AddDirFixture repo t dname dargs) s (repo1, df) s [] /\
    returns (DirFixture_AddFileFixture df t fname fargs) s (df1, ff) s [] /\
    RepoFixture_RelativePath repo = Some (DirPathJoin "." name) /\
    RepoFixture_RelativeGitPath repo =
      Some (DirPathJoin (DirPathJoin "." name) ".git") /\
    DirFixture_RelativePath df = Some (DirPathJoin (DirPathJoin "." name) dname) /\
    FileFixture_RelativePath ff =
      Some (FilepathJoin (DirPathJoin (DirPathJoin "." name) dname) fname) /\
    RepoFixture_GitPath repo s = stopped t "DirFixture" name s /\
    DirFixture_Dir df s = stopped t "DirFixture" dname s.
Proof.
  do 6 eexists.
  split; [reflexivity |]. split; [reflexivity |]. split; [reflexivity |].
  repeat split.
Qed.
End Relative.

(** ** The two guards of [RemoveFiles] *)

Section Guards.
Context {PO : PathOps} {FS : FileSystem}.

(** X13. [RemoveFiles] of the revision of root_fixture.go, on a root that
    has been created: when the path passes the guard (not empty; once
    cleaned, absolute, not the root of its volume, not the temp root, and
    related to the temp root without climbing out of it) it calls
    [RemoveAll] on the path as stored, and stops the test with [t.Fatalf]
    if that fails; in every other case it returns without any effect. *)
Theorem Revised_RemoveFiles_removes_exactly_what_the_guard_permits rf t s :
  rf_created rf = true ->
  (deletion_permitted (rf_tempDir rf) /\
   Revised.RootFixture_RemoveFiles rf t s =
     removal_run rf t "failed to remove temporary files %q: %v"
       (fun err => [DirPath_Clean (rf_tempDir rf); error_text err]) s) \/
  (~ deletion_permitted (rf_tempDir rf) /\
   Revised.RootFixture_RemoveFiles rf t s = mkRun (Ok tt) s []).
Proof.
  intros Hc.
  destruct (Revised_RemoveFiles_guard rf t s Hc) as [Hyes Hno].
  destruct (Revised_RemoveFiles_run rf t s Hc) as [Hrun | Hrun].
  - right. split; [| exact Hrun].
    intros Hp. specialize (Hyes Hp). rewrite Hrun in Hyes. discriminate.
  - left. split; [| exact Hrun].
    unfold deletion_permitted.
    revert Hrun.
    unfold Revised.RootFixture_RemoveFiles, RootFixture_ensureCreated,
      RootFixture_ensureCreated'.
    rewrite Hc. cbn [negb]. rewrite bind_ret_l.
    assert (Hne : forall x : Run fs_state unit,
              x = mkRun (Ok tt) s [] ->
              x = removal_run rf t "failed to remove temporary files %q: %v"
                    (fun err => [DirPath_Clean (rf_tempDir rf); error_text err]) s ->
              False).
    { intros x -> H. unfold removal_run in H.
      destruct (res_err (fst (fs_exec (RemoveAll (rf_tempDir rf)) s)));
        discriminate. }
    destruct (String.eqb_spec (rf_tempDir rf) "") as [He | He];
      [intros H; destruct (Hne _ eq_refl H) |].
    cbv zeta.
    destruct (DirPath_IsAbs (DirPath_Clean (rf_tempDir rf))) eqn:Habs;
      cbn [negb]; [| intros H; destruct (Hne _ eq_refl H)].
    destruct (String.eqb_spec (DirPath_Clean (rf_tempDir rf))
                (DirPath_VolumeName (DirPath_Clean (rf_tempDir rf))
                 ++ PathSeparator)%string) as [Hr | Hr];
      [intros H; destruct (Hne _ eq_refl H) |].
    destruct (String.eqb_spec (DirPath_Clean (rf_tempDir rf))
                (DirPath_Clean dt_TempDir)) as [Ht | Ht];
      [intros H; destruct (Hne _ eq_refl H) |].
    destruct (DirPath_Rel (DirPath_Clean (rf_tempDir rf))
                (DirPath_Clean dt_TempDir)) as [rel err] eqn:Hrel.
    destruct err as [msg |]; cbn [is_nil negb];
      [intros H; destruct (Hne _ eq_refl H) |].
    destruct (String.eqb_spec rel ".") as [Hd | Hd];
      [intros H; destruct (Hne _ eq_refl H) |].
    destruct (PathSegments_HasDotDotPrefix rel) eqn:Hdd;
      [intros H; destruct (Hne _ eq_refl H) |].
    intros _. repeat split; auto. exists rel. auto.
Qed.

(** X14. The guard of [RemoveFiles] in root_fixture.go is a check of the
    length: on a root that has been created it returns without any effect
    exactly when the path has at most six bytes, the empty path and [/]
    being two such paths; a longer path, whatever it names, is removed,
    and the test is stopped with [t.Fatalf] if the removal fails. *)
Theorem RemoveFiles_guard_is_a_length_check rf t s :
  rf_created rf = true ->
  RootFixture_RemoveFiles rf t s =
    if (String.length (rf_tempDir rf) <=? 6)%nat then mkRun (Ok tt) s []
    else removal_run rf t "failed to remove temporary files: %s"
           (fun err => [error_text err]) s.
Proof.
  intros Hc.
  unfold RootFixture_RemoveFiles, RootFixture_ensureCreated,
    RootFixture_ensureCreated'.
  rewrite Hc. cbn [negb]. rewrite bind_ret_l.
  destruct (String.eqb_spec (rf_tempDir rf) "") as [-> | _]; [reflexivity |].
  destruct (String.eqb_spec (rf_tempDir rf) "/") as [-> | _]; [reflexivity |].
  change (String.length "/tmp/x") with 6%nat.
  destruct (String.length (rf_tempDir rf) <=? 6)%nat; [reflexivity |].
  apply removal_run_bind.
Qed.
End Guards.

Lemma Revised_RemoveFiles_removes_exactly_what_the_guard_permits_witness :
  rf_created Scenario.my_test = true /\
  deletion_permitted (PO := Unix.paths) "/tmp/my-test-0" /\
  Revised.RootFixture_RemoveFiles (PO := Unix.paths) (FS := Unix.fs)
    Scenario.my_test Scenario.t Scenario.my_test_disk =
    mkRun (Ok tt) (Unix.mkMemFs ["/tmp"; "/"]%string [] 1)
      [FsCalled (RemoveAll "/tmp/my-test-0") (Unix.fs_ok "")].
Proof.
  split; [reflexivity |].
  destruct (Revised_RemoveFiles_removes_exactly_what_the_guard_permits
              (PO := Unix.paths) (FS := Unix.fs) Scenario.my_test Scenario.t
              Scenario.my_test_disk eq_refl) as [H | [Hn _]].
  - exact H.
  - exfalso. apply Hn. repeat split; try discriminate.
    exists "my-test-0"%string. repeat split; discriminate.
Defined.

Lemma RemoveFiles_guard_is_a_length_check_witness :
  rf_created Scenario.relative_root = true /\
  RootFixture_RemoveFiles (FS := Unix.fs) Scenario.relative_root Scenario.t
    Unix.empty_disk =
    mkRun (Ok tt) Unix.empty_disk
      [FsCalled (RemoveAll "scratch/my-test-0") (Unix.fs_ok "")] /\
  RootFixture_RemoveFiles (FS := Unix.fs)
    (set_rf_tempDir "/tmp/x" Scenario.relative_root) Scenario.t Unix.empty_disk =
    mkRun (Ok tt) Unix.empty_disk [].
Proof.
  split; [reflexivity |]. split.
  - exact (RemoveFiles_guard_is_a_length_check (FS := Unix.fs)
             Scenario.relative_root Scenario.t Unix.empty_disk eq_refl).
  - reflexivity.
Defined.

(** ** Attaching several files at once *)

Section AddMany.
Context {PO : PathOps} {FS : FileSystem}.

Lemma bind_bind {A B C} (m : M fs_state A) (k1 : A -> M fs_state B)
    (k2 : B -> M fs_state C) s :
  bind (bind m k1) k2 s = bind m (fun a => bind (k1 a) k2) s.
Proof.
  unfold bind. destruct (m s) as [[a | t | msg] s1 e1]; cbn; try reflexivity.
  destruct (k1 a s1) as [[b | t | msg] s2 e2]; cbn; try reflexivity.
  rewrite app_assoc. reflexivity.
Qed.

Lemma set_df_FileFixtures_twice u v df :
  set_df_FileFixtures v (set_df_FileFixtures u df) = set_df_FileFixtures v df.
Proof. destruct df; reflexivity. Qed.

Lemma set_df_FileFixtures_same df : set_df_FileFixtures (df_FileFixtures df) df = df.
Proof. destruct df; reflexivity. Qed.

(** X15. [DirFixture.AddFileFixtures] on every list of arguments.  If
    every argument is a [dt.Filename], a [dt.RelFilepath] or a non-nil
    [*FileFixtureArgs] with a name, the call returns without a call to the
    file system or a report, and has appended one leaf per argument, in
    order: a bare name takes the defaults, a [*FileFixtureArgs] is taken
    by itself, without the defaults.  Otherwise the first other argument
    ends the call: a [*FileFixtureArgs] without a name and a value of
    another type stop the test with [t.Fatalf], a nil [*FileFixtureArgs]
    is dereferenced. *)
Theorem DirFixture_AddFileFixtures_run df t defaults args s :
  DirFixture_AddFileFixtures df t defaults args s =
    match find (fun f => match DirFixture_accepts defaults f with
                         | None => true
                         | Some _ => false
                         end) args with
    | Some bad => rejected t "dir" (df_Name df) bad s
    | None =>
        mkRun (Ok (set_df_FileFixtures
                     (df_FileFixtures df ++
                      attached_leaves t (DirFixture_ptr df)
                        (DirFixture_accepts defaults) args) df)) s []
    end.
Proof.
  revert df. induction args as [| f args IH]; intros df.
  - cbn. rewrite app_nil_r, set_df_FileFixtures_same. reflexivity.
  - assert (Hstep : forall name a,
              DirFixture_accepts defaults f = Some (name, a) ->
              (r <- DirFixture_AddFileFixture df t name a ;; ret (fst r)) s =
                mkRun (Ok (set_df_FileFixtures
                             (df_FileFixtures df ++
                              [attached_leaf t (DirFixture_ptr df) (name, a)]) df))
                  s [] ->
              DirFixture_AddFileFixtures df t defaults (f :: args) s =
                match find (fun f => match DirFixture_accepts defaults f with
                                     | None => true
                                     | Some _ => false
                                     end) (f :: args) with
                | Some bad => rejected t "dir" (df_Name df) bad s
                | None =>
                    mkRun (Ok (set_df_FileFixtures
                                 (df_FileFixtures df ++
                                  attached_leaves t (DirFixture_ptr df)
                                    (DirFixture_accepts defaults) (f :: args)) df))
                      s []
                end).
    { intros name a Hacc _.
      cbn [find attached_leaves flat_map]. rewrite Hacc.
      set (df1 := set_df_FileFixtures
                    (df_FileFixtures df ++
                     [attached_leaf t (DirFixture_ptr df) (name, a)]) df).
      assert (Hrun : DirFixture_AddFileFixtures df t defaults (f :: args) s =
                     DirFixture_AddFileFixtures df1 t defaults args s).
      { cbn [DirFixture_AddFileFixtures].
        destruct f as [v | v | [ffa |] | T v]; cbn in Hacc; try discriminate.
        - inversion Hacc; subst. unfold DirFixture_AddFileFixture.
          cbv zeta. repeat (rewrite bind_bind || rewrite bind_ret_l). reflexivity.
        - inversion Hacc; subst. unfold DirFixture_AddFileFixture.
          cbv zeta. repeat (rewrite bind_bind || rewrite bind_ret_l). reflexivity.
        - destruct (ffa_Name ffa =? "")%string; [discriminate |].
          inversion Hacc; subst. unfold DirFixture_AddFileFixture.
          cbv zeta. repeat (rewrite bind_bind || rewrite bind_ret_l). reflexivity. }
      rewrite Hrun, IH.
      assert (Hn : df_Name df1 = df_Name df) by (destruct df; reflexivity).
      assert (Hp : DirFixture_ptr df1 = DirFixture_ptr df)
        by (destruct df; reflexivity).
      assert (Hf : df_FileFixtures df1 =
                   df_FileFixtures df ++
                   [attached_leaf t (DirFixture_ptr df) (name, a)])
        by (destruct df; reflexivity).
      rewrite Hn, Hp, Hf. unfold df1. rewrite set_df_FileFixtures_twice.
      rewrite <- app_assoc. reflexivity. }
    destruct f as [v | v | [ffa |] | T v].
    + apply (Hstep v defaults); reflexivity.
    + apply (Hstep v defaults); reflexivity.
    + destruct (ffa_Name ffa =? "")%string eqn:Hname.
      * cbn [DirFixture_AddFileFixtures find DirFixture_accepts].
        rewrite Hname. reflexivity.
      * apply (Hstep (ffa_Name ffa) (Some ffa)).
        -- cbn. rewrite Hname. reflexivity.
        -- reflexivity.
    + reflexivity.
    + reflexivity.
Qed.

Lemma set_repo_files_twice u v rf :
  set_repo_DirFixture
    (set_df_FileFixtures v
       (repo_DirFixture
          (set_repo_DirFixture (set_df_FileFixtures u (repo_DirFixture rf)) rf)))
    (set_repo_DirFixture (set_df_FileFixtures u (repo_DirFixture rf)) rf) =
  set_repo_DirFixture (set_df_FileFixtures v (repo_DirFixture rf)) rf.
Proof. destruct rf as [df cr t]. destruct df. reflexivity. Qed.

(** X16. [RepoFixture.AddFileFixtures] on every list of arguments: as for
    a directory fixture, on the promoted file slice of the repository,
    except that its type switch has no case for [dt.Filename]; an argument
    of that type stops the test as a value of an invalid type. *)
Theorem RepoFixture_AddFileFixtures_run rf t defaults args s :
  RepoFixture_AddFileFixtures rf t defaults args s =
    match find (fun f => match RepoFixture_accepts defaults f with
                         | None => true
                         | Some _ => false
                         end) args with
    | Some bad => rejected t "project" (df_Name (repo_DirFixture rf)) bad s
    | None =>
        mkRun (Ok (set_repo_DirFixture
                     (set_df_FileFixtures
                        (df_FileFixtures (repo_DirFixture rf) ++
                         attached_leaves t (RepoFixture_ptr rf)
                           (RepoFixture_accepts defaults) args)
                        (repo_DirFixture rf)) rf)) s []
    end.
Proof.
  revert rf. induction args as [| f args IH]; intros rf.
  - cbn. rewrite app_nil_r, set_df_FileFixtures_same.
    destruct rf; reflexivity.
  - assert (Hstep : forall name a,
              RepoFixture_accepts defaults f = Some (name, a) ->
              RepoFixture_AddFileFixtures rf t defaults (f :: args) s =
                RepoFixture_AddFileFixtures
                  (set_repo_DirFixture
                     (set_df_FileFixtures
                        (df_FileFixtures (repo_DirFixture rf) ++
                         [attached_leaf t (RepoFixture_ptr rf) (name, a)])
                        (repo_DirFixture rf)) rf) t defaults args s ->
              RepoFixture_AddFileFixtures rf t defaults (f :: args) s =
                match find (fun f => match RepoFixture_accepts defaults f with
                                     | None => true
                                     | Some _ => false
                                     end) (f :: args) with
                | Some bad =>
                    rejected t "project" (df_Name (repo_DirFixture rf)) bad s
                | None =>
                    mkRun (Ok (set_repo_DirFixture
                                 (set_df_FileFixtures
                                    (df_FileFixtures (repo_DirFixture rf) ++
                                     attached_leaves t (RepoFixture_ptr rf)
                                       (RepoFixture_accepts defaults) (f :: args))
                                    (repo_DirFixture rf)) rf)) s []
                end).
    { intros name a Hacc Hrun.
      cbn [find attached_leaves flat_map]. rewrite Hacc.
      rewrite Hrun, IH.
      set (rf1 := set_repo_DirFixture
                    (set_df_FileFixtures
                       (df_FileFixtures (repo_DirFixture rf) ++
                        [attached_leaf t (RepoFixture_ptr rf) (name, a)])
                       (repo_DirFixture rf)) rf).
      assert (Hn : df_Name (repo_DirFixture rf1) = df_Name (repo_DirFixture rf))
        by (destruct rf as [df cr t0]; destruct df; reflexivity).
      assert (Hp : RepoFixture_ptr rf1 = RepoFixture_ptr rf)
        by (destruct rf as [df cr t0]; destruct df; reflexivity).
      assert (Hf : df_FileFixtures (repo_DirFixture rf1) =
                   df_FileFixtures (repo_DirFixture rf) ++
                   [attached_leaf t (RepoFixture_ptr rf) (name, a)])
        by (destruct rf as [df cr t0]; destruct df; reflexivity).
      rewrite Hn, Hp, Hf. unfold rf1. rewrite set_repo_files_twice.
      rewrite <- app_assoc. reflexivity. }
    destruct f as [v | v | [ffa |] | T v].
    + reflexivity.
    + apply (Hstep v defaults); [reflexivity |].
      cbn [RepoFixture_AddFileFixtures]. unfold RepoFixture_AddFileFixture.
      cbv zeta. repeat (rewrite bind_bind || rewrite bind_ret_l). reflexivity.
    + destruct (ffa_Name ffa =? "")%string eqn:Hname.
      * cbn [RepoFixture_AddFileFixtures find RepoFixture_accepts
               DirFixture_accepts].
        rewrite Hname. reflexivity.
      * apply (Hstep (ffa_Name ffa) (Some ffa)).
        -- cbn. rewrite Hname. reflexivity.
        -- cbn [RepoFixture_AddFileFixtures]. rewrite Hname.
           unfold RepoFixture_AddFileFixture.
           cbv zeta. repeat (rewrite bind_bind || rewrite bind_ret_l). reflexivity.
    + reflexivity.
    + reflexivity.
Qed.

(** X17. One argument, three ways.  A [dt.Filename] is attached by
    [DirFixture.AddFileFixtures], as the leaf [AddFileFixture] builds for
    that name and the defaults, and stops the test in
    [RepoFixture.AddFileFixtures]; a plain [string], of which the
    comments of both methods speak, stops the test in both. *)
Theorem Filename_is_attached_by_a_directory_only df rf t defaults v s :
  (exists df' ff,
     returns (DirFixture_AddFileFixture df t v defaults) s (df', ff) s [] /\
     returns (DirFixture_AddFileFixtures df t defaults [any_Filename v]) s
       df' s [] /\
     df_FileFixtures df' = df_FileFixtures df ++ [ff] /\
     ff_Name ff = v) /\
  RepoFixture_AddFileFixtures rf t defaults [any_Filename v] s =
    mkRun (FailNow t) s
      [Reported (mkReport true t
         "Invalid type '%T' passed for file fixure being added to project fixture: '%v'"
         ["dt.Filename"%string; v])] /\
  DirFixture_AddFileFixtures df t defaults [any_other "string" v] s =
    mkRun (FailNow t) s
      [Reported (mkReport true t
         "Invalid type '%T' passed for file fixure being added to dir fixture: '%v'"
         ["string"%string; v])] /\
  RepoFixture_AddFileFixtures rf t defaults [any_other "string" v] s =
    mkRun (FailNow t) s
      [Reported (mkReport true t
         "Invalid type '%T' passed for file fixure being added to project fixture: '%v'"
         ["string"%string; v])].
Proof.
  split; [| repeat split].
  do 2 eexists. split; [reflexivity |]. split; [| split; reflexivity].
  unfold returns. cbn [DirFixture_AddFileFixtures].
  unfold DirFixture_AddFileFixture. cbv zeta. repeat (rewrite bind_bind || rewrite bind_ret_l). reflexivity.
Qed.
End AddMany.

(** ** A leaf created on its own *)

Section Alone.
Context {PO : PathOps} {FS : FileSystem}.

(** X18. [FileFixture.Create] under a parent that has not been created
    writes nothing: the parent's [Dir] stops the test, or panics where the
    parent holds no test context, before any call to the file system, and
    the disk is as it was. *)
Theorem Create_under_an_uncreated_parent_writes_nothing t (ff : FileFixture) pf s :
  Fixture_created pf = false ->
  aborts (FileFixture_Create t ff pf s) /\
  evs (FileFixture_Create t ff pf s) = evs (Fixture_Dir pf s) /\
  fs_calls (evs (FileFixture_Create t ff pf s)) = [] /\
  st (FileFixture_Create t ff pf s) = s.
Proof.
  destruct pf as [p d0 c t0 | n d0 c t0 par | n d0 c t0 par]; cbn;
    intros ->; destruct t0 as [tid |]; cbn; repeat split;
    try exact I; do 2 eexists; left; reflexivity.
Qed.
End Alone.

Lemma Create_under_an_uncreated_parent_writes_nothing_witness :
  let pf := DirFixture_ptr (newDirFixture Scenario.t "internal" None) in
  let r := FileFixture_Create (PO := Unix.paths) (FS := Unix.fs) Scenario.t
             Scenario.file_2 pf Unix.empty_disk in
  Fixture_created pf = false /\
  r = stopped (FS := Unix.fs) Scenario.t "DirFixture" "internal" Unix.empty_disk /\
  aborts (FS := Unix.fs) r /\
  fs_calls (evs r) = [] /\
  st r = Unix.empty_disk.
Proof.
  cbv zeta. split; [reflexivity |]. split; [reflexivity |].
  destruct (Create_under_an_uncreated_parent_writes_nothing (PO := Unix.paths)
              (FS := Unix.fs) Scenario.t Scenario.file_2
              (DirFixture_ptr (newDirFixture Scenario.t "internal" None))
              Unix.empty_disk eq_refl) as (H1 & _ & H3 & H4).
  split; [exact H1 |]. split; [exact H3 | exact H4].
Defined.

(** ** The attach methods keep the tree well formed *)

Section Attach.
Context {PO : PathOps} {FS : FileSystem}.

Lemma RepoFixture_Add_attached rf prel t name dargs rargs fargs (s : fs_state) :
  RepoFixture_attached prel rf ->
  (forall r s' e,
     returns (RepoFixture_AddDirFixture rf t name dargs) s r s' e ->
     RepoFixture_attached prel (fst r) /\
     DirFixture_attached (DirPathJoin prel (df_Name (repo_DirFixture rf))) (snd r)) /\
  (forall r s' e,
     returns (RepoFixture_AddRepoFixture rf t name rargs) s r s' e ->
     RepoFixture_attached prel (fst r) /\
     RepoFixture_attached (DirPathJoin prel (df_Name (repo_DirFixture rf))) (snd r)) /\
  (forall r s' e,
     returns (RepoFixture_AddFileFixture rf t name fargs) s r s' e ->
     RepoFixture_attached prel (fst r)).
Proof.
  intros Hatt. destruct rf as [df cr0 tr].
  destruct df as [n fs cs mt pm d0 par cr t0].
  cbn in Hatt. destruct Hatt as ((p & -> & Hp) & Ht & Hcs).
  assert (Hnew : Parent_at (DirPathJoin prel n)
                   (Some (RepoFixture_ptr
                            (mkRepoFixture
                               (mkDirFixture n fs cs mt pm d0 (Some p) cr t0)
                               cr0 tr)))).
  { eexists. split; [reflexivity |]. cbn. rewrite Hp. reflexivity. }
  split; [| split]; intros r s' e H; unfold returns in H; inversion H; subst;
    cbn.
  - split.
    + split; [eexists; eauto |]. split; [exact Ht |].
      apply All_app. split; [exact Hcs |]. cbn.
      repeat split; try discriminate. exact Hnew.
    + repeat split; try discriminate. exact Hnew.
  - split.
    + split; [eexists; eauto |]. split; [exact Ht |].
      apply All_app. split; [exact Hcs |]. cbn.
      repeat split; try discriminate. exact Hnew.
    + repeat split; try discriminate. exact Hnew.
  - split; [eexists; eauto |]. split; [exact Ht | exact Hcs].
Qed.

(** X19. The attach methods keep a tree one that [Create] can
    materialize.  The root [NewRootFixture] returns is well formed; when a
    root, a directory fixture or a repository is well formed (every
    fixture in it has as [Parent] the fixture it is attached to and holds
    a test context), so is what each of its three attach methods returns,
    and the child it returns is well formed below it, its [Parent] being
    the receiver whatever the args name as parent. *)
Theorem attach_methods_keep_the_tree_attached rf df repo prel rprel t name
    dargs rargs fargs (s : fs_state) :
  RootFixture_attached rf ->
  DirFixture_attached prel df ->
  RepoFixture_attached rprel repo ->
  (forall p, RootFixture_attached (NewRootFixture p)) /\
  (exists rf1 rf2 rf3 c1 c2 c3,
     returns (RootFixture_AddDirFixture rf t name dargs) s (rf1, c1) s [] /\
     returns (RootFixture_AddRepoFixture rf t name rargs) s (rf2, c2) s [] /\
     returns (RootFixture_AddFileFixture rf t name fargs) s (rf3, c3) s [] /\
     RootFixture_attached rf1 /\ RootFixture_attached rf2 /\
     RootFixture_attached rf3 /\
     DirFixture_attached "." c1 /\ RepoFixture_attached "." c2 /\
     ff_Parent c3 = Some (RootFixture_ptr rf)) /\
  (exists df1 df2 df3 c1 c2 c3,
     returns (DirFixture_AddDirFixture df t name dargs) s (df1, c1) s [] /\
     returns (DirFixture_AddRepoFixture df t name rargs) s (df2, c2) s [] /\
     returns (DirFixture_AddFileFixture df t name fargs) s (df3, c3) s [] /\
     DirFixture_attached prel df1 /\ DirFixture_attached prel df2 /\
     DirFixture_attached prel df3 /\
     DirFixture_attached (DirPathJoin prel (df_Name df)) c1 /\
     RepoFixture_attached (DirPathJoin prel (df_Name df)) c2 /\
     ff_Parent c3 = Some (DirFixture_ptr df)) /\
  (exists r1 r2 r3 c1 c2 c3,
     returns (RepoFixture_AddDirFixture repo t name dargs) s (r1, c1) s [] /\
     returns (RepoFixture_AddRepoFixture repo t name rargs) s (r2, c2) s [] /\
     returns (RepoFixture_AddFileFixture repo t name fargs) s (r3, c3) s [] /\
     RepoFixture_attached rprel r1 /\ RepoFixture_attached rprel r2 /\
     RepoFixture_attached rprel r3 /\
     DirFixture_attached (DirPathJoin rprel (df_Name (repo_DirFixture repo))) c1 /\
     RepoFixture_attached (DirPathJoin rprel (df_Name (repo_DirFixture repo))) c2 /\
     ff_Parent c3 = Some (RepoFixture_ptr repo)).
Proof.
  intros Hrf Hdf Hrepo.
  split; [intros p; exact I |].
  destruct (RootFixture_Add_attached rf t name dargs rargs fargs s Hrf)
    as (Ha1 & Ha2 & Ha3).
  destruct (DirFixture_Add_attached df prel t name dargs rargs fargs s Hdf)
    as (Hb1 & Hb2 & Hb3).
  destruct (RepoFixture_Add_attached repo rprel t name dargs rargs fargs s Hrepo)
    as (Hc1 & Hc2 & Hc3).
  split; [| split].
  - do 6 eexists.
    split; [reflexivity |]. split; [reflexivity |]. split; [reflexivity |].
    split; [exact (Ha1 _ _ _ eq_refl) |]. split; [exact (Ha2 _ _ _ eq_refl) |].
    split; [exact (Ha3 _ _ _ eq_refl) |].
    repeat split; try discriminate; eexists; split; reflexivity.
  - do 6 eexists.
    split; [reflexivity |]. split; [reflexivity |]. split; [reflexivity |].
    split; [exact (proj1 (Hb1 _ _ _ eq_refl)) |].
    split; [exact (proj1 (Hb2 _ _ _ eq_refl)) |].
    split; [exact (Hb3 _ _ _ eq_refl) |].
    split; [exact (proj2 (Hb1 _ _ _ eq_refl)) |].
    split; [exact (proj2 (Hb2 _ _ _ eq_refl)) | reflexivity].
  - do 6 eexists.
    split; [reflexivity |]. split; [reflexivity |]. split; [reflexivity |].
    split; [exact (proj1 (Hc1 _ _ _ eq_refl)) |].
    split; [exact (proj1 (Hc2 _ _ _ eq_refl)) |].
    split; [exact (Hc3 _ _ _ eq_refl) |].
    split; [exact (proj2 (Hc1 _ _ _ eq_refl)) |].
    split; [exact (proj2 (Hc2 _ _ _ eq_refl)) | reflexivity].
Qed.
End Attach.

Lemma Scenario_src_attached :
  DirFixture_attached (PO := Unix.paths) "proj" Scenario.src.
Proof. cbn. repeat split; try discriminate. eexists. split; reflexivity. Qed.

Lemma attach_methods_keep_the_tree_attached_witness :
  RootFixture_attached (PO := Unix.paths) Scenario.tree /\
  DirFixture_attached (PO := Unix.paths) "proj" Scenario.src /\
  RepoFixture_attached (PO := Unix.paths) "." Scenario.proj /\
  exists df1 df2 df3 c1 c2 c3,
    returns (DirFixture_AddDirFixture (FS := Unix.fs) Scenario.src Scenario.t
               "gen" None) Unix.empty_disk (df1, c1) Unix.empty_disk [] /\
    returns (DirFixture_AddRepoFixture (FS := Unix.fs) Scenario.src Scenario.t
               "gen" None) Unix.empty_disk (df2, c2) Unix.empty_disk [] /\
    returns (DirFixture_AddFileFixture (FS := Unix.fs) Scenario.src Scenario.t
               "gen" None) Unix.empty_disk (df3, c3) Unix.empty_disk [] /\
    DirFixture_attached (PO := Unix.paths) "proj" df1 /\
    DirFixture_attached (PO := Unix.paths) "proj" df2 /\
    DirFixture_attached (PO := Unix.paths) "proj" df3 /\
    DirFixture_attached (PO := Unix.paths) "proj/src" c1 /\
    RepoFixture_attached (PO := Unix.paths) "proj/src" c2 /\
    ff_Parent c3 = Some (DirFixture_ptr Scenario.src).
Proof.
  split; [exact Scenario_tree_attached |].
  split; [exact Scenario_src_attached |].
  split; [exact Scenario_proj_attached |].
  exact (proj1 (proj2 (proj2
           (attach_methods_keep_the_tree_attached (PO := Unix.paths)
              (FS := Unix.fs) Scenario.tree Scenario.src Scenario.proj
              "proj" "." Scenario.t "gen" None None None Unix.empty_disk
              Scenario_tree_attached Scenario_src_attached
              Scenario_proj_attached)))).
Defined.

(** ** The corpus helpers of the fuzz tests *)

(** X20. [extractStringFromCorpus] returns the corpus file as it is, its
    header line included, and [extractMultipleFromCorpus] returns that one
    string as its only part, for every file; the condition
    [len(parts) >= 2] under which runFileFixtureArgsCorpus goes on to
    [AddFileFixture] therefore never holds. *)
Theorem corpus_helpers_return_the_file_unparsed data :
  Corpus.extractStringFromCorpus data = data /\
  Corpus.extractMultipleFromCorpus data = [data] /\
  (2 <=? length (Corpus.extractMultipleFromCorpus data))%nat = false.
Proof.
  unfold Corpus.extractMultipleFromCorpus, Corpus.extractStringFromCorpus.
  destruct data; repeat split.
Qed.

(** ** What a creation keeps *)

Section Shapes.
Context {PO : PathOps} {FS : FileSystem}.

Lemma range_rel {A} (f : A -> M fs_state A) (R : A -> A -> Prop) xs :
  All (fun x => forall s x' s' e, returns (f x) s x' s' e -> R x x') xs ->
  forall s xs' s' e, returns (range f xs) s xs' s' e -> Forall2 R xs xs'.
Proof.
  induction xs as [| x xs IH]; simpl; intros H s xs' s' e Hr.
  - unfold returns, ret in Hr. inversion Hr. constructor.
  - destruct H as [Hx Hxs].
    apply returns_bind_inv in Hr as (x' & s1 & e1 & e2 & Hfx & Hr & ->).
    apply returns_bind_inv in Hr as (r & s2 & e3 & e4 & Hrest & Hr & ->).
    unfold returns, ret in Hr. inversion Hr; subst.
    constructor; [exact (Hx _ _ _ _ Hfx) | exact (IH Hxs _ _ _ _ Hrest)].
Qed.

Lemma Forall2_map_eq {A B} (g : A -> B) xs xs' :
  Forall2 (fun x x' => g x' = g x) xs xs' -> map g xs' = map g xs.
Proof. induction 1; simpl; congruence. Qed.

Lemma Forall2_All {A} (P : A -> Prop) xs xs' :
  Forall2 (fun x x' => P x -> P x') xs xs' -> All P xs -> All P xs'.
Proof.
  induction 1; simpl; [auto |]. intros [Hx Hxs]. split; auto.
Qed.

Lemma Forall2_impl {A} (R R' : A -> A -> Prop) xs xs' :
  (forall x x', R x x' -> R' x x') -> Forall2 R xs xs' -> Forall2 R' xs xs'.
Proof. intros H. induction 1; constructor; auto. Qed.

Lemma FileFixture_Create_keeps_name t (ff : FileFixture) pf s (ff' : FileFixture)
    s' e :
  returns (FileFixture_Create t ff pf) s ff' s' e -> ff_Name ff' = ff_Name ff.
Proof.
  intros H. unfold FileFixture_Create in H. cbv zeta in H.
  apply returns_bind_inv in H as (d & s1 & e1 & e2 & Hd & H & ->).
  match type of H with
  | returns (FileFixture_createFile t ?x) _ _ _ _ =>
      destruct (FileFixture_createFile_returns t x s1) as (s2 & e3 & Hr & _);
      destruct (returns_fun _ _ _ _ _ _ _ _ H Hr) as (-> & _);
      destruct (createFile_result_fields x) as (_ & Hn & _); rewrite Hn
  end.
  reflexivity.
Qed.

Lemma range_files_keep_names t pf files s files' s' e :
  returns (range (fun file => FileFixture_Create t file pf) files) s files' s' e ->
  map (fun ff : FileFixture => ff_Name ff) files' =
  map (fun ff : FileFixture => ff_Name ff) files.
Proof.
  intros H. apply (Forall2_map_eq (fun ff : FileFixture => ff_Name ff)).
  eapply range_rel; cycle 1; [exact H |].
  apply All_Forall, Forall_forall. intros ff _ s0 ff' s1 e1.
  apply FileFixture_Create_keeps_name.
Qed.

(** A creation changes no name, adds or drops no fixture, keeps the order
    of the slices, and leaves every fixture its test context. *)
Lemma DirFixture_createWithParent_keeps df :
  forall t pf s df' s' e,
    returns (DirFixture_createWithParent t df pf) s df' s' e ->
    (forall b, DirFixture_shape b df' = DirFixture_shape b df) /\
    (DirFixture_has_t df -> DirFixture_has_t df').
Proof.
  induction df using DirFixture_tree_ind with
    (Q := fun c => forall t pf s c' s' e,
            returns (ChildFixture_createWithParent t c pf) s c' s' e ->
            ChildFixture_shape c' = ChildFixture_shape c /\
            (ChildFixture_has_t c -> ChildFixture_has_t c'))
    (R := fun rf => forall t pf s rf' s' e,
            returns (RepoFixture_createWithParent t rf pf) s rf' s' e ->
            RepoFixture_shape rf' = RepoFixture_shape rf /\
            (RepoFixture_has_t rf -> RepoFixture_has_t rf')).
  - rename H into IHchildren. intros t pf s df' s' e H.
    rewrite DirFixture_createWithParent_eq in H. cbv zeta in H.
    apply returns_bind_inv in H as (d1 & s1 & e1 & e1' & _ & H & ->).
    apply returns_bind_inv in H as (u1 & s2 & e2 & e2' & _ & H & ->).
    apply returns_bind_inv in H as (err & s3 & e3 & e3' & _ & H & ->).
    apply returns_bind_inv in H as (u2 & s4 & e4 & e4' & _ & H & ->).
    apply returns_bind_inv in H as (files & s5 & e5 & e5' & Hfiles & H & ->).
    apply returns_bind_inv in H as (children & s6 & e6 & e6' & Hchildren & H & ->).
    unfold returns, ret in H. inversion H; subst. clear H.
    destruct df as [n fs cs mt pm d0 par cr t0].
    cbn [df_FileFixtures df_ChildFixtures set_df_created set_df_dir df_Name
           df_ModifiedTime df_Permissions df_dir df_Parent df_created df_t]
      in Hfiles, Hchildren, IHchildren.
    apply range_files_keep_names in Hfiles.
    assert (Hrel : Forall2
                     (fun c c' =>
                        ChildFixture_shape c' = ChildFixture_shape c /\
                        (ChildFixture_has_t c -> ChildFixture_has_t c'))
                     cs children).
    { eapply range_rel; cycle 1; [exact Hchildren |].
      eapply All_impl; [| exact IHchildren].
      intros c _ Hc s0 c' s0' e0 Hr. exact (Hc _ _ _ _ _ _ Hr). }
    split.
    + intros b. cbn. f_equal; [exact Hfiles |].
      apply (Forall2_map_eq ChildFixture_shape).
      eapply Forall2_impl; [| exact Hrel]. intros c c' [Hs _]. exact Hs.
    + cbn. intros [Ht Hcs]. split; [exact Ht |].
      apply (Forall2_All ChildFixture_has_t cs children); [| exact Hcs].
      eapply Forall2_impl; [| exact Hrel]. intros c c' [_ Hh]. exact Hh.
  - intros t pf s c' s' e H. rewrite ChildFixture_createWithParent_eq in H.
    apply returns_bind_inv in H as (df' & s1 & e1 & e2 & Hr & H & ->).
    unfold returns, ret in H. inversion H; subst.
    destruct (IHdf _ _ _ _ _ _ Hr) as [Hs Hh]. split; [apply Hs | exact Hh].
  - intros t pf s c' s' e H. rewrite ChildFixture_createWithParent_eq in H.
    apply returns_bind_inv in H as (rf' & s1 & e1 & e2 & Hr & H & ->).
    unfold returns, ret in H. inversion H; subst.
    exact (IHdf _ _ _ _ _ _ Hr).
  - intros t pf s rf' s' e H. rewrite RepoFixture_createWithParent_eq in H.
    cbv zeta in H.
    apply returns_bind_inv in H as (df' & s1 & e1 & e2 & Hr & H & ->).
    apply returns_bind_inv in H as (err & s2 & e3 & e4 & _ & H & ->).
    apply returns_bind_inv in H as (u & s3 & e5 & e6 & _ & H & ->).
    unfold returns, ret in H. inversion H; subst.
    destruct rf as [df cr t0].
    cbn [repo_DirFixture set_repo_created set_repo_DirFixture] in *.
    destruct (IHdf _ _ _ _ _ _ Hr) as [Hs Hh].
    split; [exact (Hs true) | exact Hh].
Qed.

Lemma ChildFixture_createWithParent_keeps c t pf s c' s' e :
  returns (ChildFixture_createWithParent t c pf) s c' s' e ->
  ChildFixture_shape c' = ChildFixture_shape c /\
  (ChildFixture_has_t c -> ChildFixture_has_t c').
Proof.
  intros H. rewrite ChildFixture_createWithParent_eq in H.
  destruct c as [df | rf].
  - apply returns_bind_inv in H as (df' & s1 & e1 & e2 & Hr & H & ->).
    unfold returns, ret in H. inversion H; subst.
    destruct (DirFixture_createWithParent_keeps _ _ _ _ _ _ _ Hr) as [Hs Hh].
    split; [apply Hs | exact Hh].
  - apply returns_bind_inv in H as (rf' & s1 & e1 & e2 & Hr & H & ->).
    unfold returns, ret in H. inversion H; subst.
    rewrite RepoFixture_createWithParent_eq in Hr. cbv zeta in Hr.
    apply returns_bind_inv in Hr as (df' & s2 & e3 & e4 & Hd & Hr & ->).
    apply returns_bind_inv in Hr as (err & s3 & e5 & e6 & _ & Hr & ->).
    apply returns_bind_inv in Hr as (u & s4 & e7 & e8 & _ & Hr & ->).
    unfold returns, ret in Hr. inversion Hr; subst.
    destruct rf as [df cr t0].
    cbn [repo_DirFixture set_repo_created set_repo_DirFixture] in *.
    destruct (DirFixture_createWithParent_keeps _ _ _ _ _ _ _ Hd) as [Hs Hh].
    split; [exact (Hs true) | exact Hh].
Qed.

Lemma RootFixture_Create_keeps rf t s rf' s' e :
  returns (RootFixture_Create rf t) s rf' s' e ->
  map (fun ff : FileFixture => ff_Name ff) (rf_FileFixtures rf') =
    map (fun ff : FileFixture => ff_Name ff) (rf_FileFixtures rf) /\
  map ChildFixture_shape (rf_ChildFixtures rf') =
    map ChildFixture_shape (rf_ChildFixtures rf) /\
  (RootFixture_has_t rf -> RootFixture_has_t rf').
Proof.
  unfold RootFixture_Create. intros H.
  apply returns_bind_inv in H as (r & s1 & e1 & e2 & _ & H & ->).
  apply returns_bind_inv in H as (u & s2 & e3 & e4 & _ & H & ->).
  apply returns_bind_inv in H as (children & s3 & e5 & e6 & Hch & H & ->).
  apply returns_bind_inv in H as (files & s4 & e7 & e8 & Hfi & H & ->).
  unfold returns, ret in H. inversion H; subst. clear H.
  cbn [rf_FileFixtures rf_ChildFixtures set_rf_FileFixtures set_rf_ChildFixtures
         set_rf_cleanupFunc set_rf_tempDir set_rf_created] in *.
  apply range_files_keep_names in Hfi.
  assert (Hrel : Forall2
                   (fun c c' =>
                      ChildFixture_shape c' = ChildFixture_shape c /\
                      (ChildFixture_has_t c -> ChildFixture_has_t c'))
                   (rf_ChildFixtures rf) children).
  { eapply range_rel; cycle 1; [exact Hch |].
    apply All_Forall, Forall_forall. intros c _ s0 c' s1' e0.
    apply ChildFixture_createWithParent_keeps. }
  split; [exact Hfi |]. split.
  - apply (Forall2_map_eq ChildFixture_shape).
    eapply Forall2_impl; [| exact Hrel]. intros c c' [Hs _]. exact Hs.
  - unfold RootFixture_has_t. cbn. intros Hcs.
    apply (Forall2_All ChildFixture_has_t (rf_ChildFixtures rf) children);
      [| exact Hcs].
    eapply Forall2_impl; [| exact Hrel]. intros c c' [_ Hh]. exact Hh.
Qed.
End Shapes.

Section Repeated.
Context {PO : PathOps} {FS : FileSystem}.

(** X21. [Create] keeps the shape of the tree: in the root it returns the
    prefix is the same, and every directory and repository is there with
    its kind and name, the names of its file leaves and its children, in
    the order they were attached; every fixture still holds its test
    context. *)
Theorem Create_keeps_the_shape_of_the_tree rf t s :
  RootFixture_has_t rf ->
  exists rf' s' e,
    returns (RootFixture_Create rf t) s rf' s' e /\
    rf_DirPrefix rf' = rf_DirPrefix rf /\
    map (fun ff : FileFixture => ff_Name ff) (rf_FileFixtures rf') =
      map (fun ff : FileFixture => ff_Name ff) (rf_FileFixtures rf) /\
    map ChildFixture_shape (rf_ChildFixtures rf') =
      map ChildFixture_shape (rf_ChildFixtures rf) /\
    RootFixture_has_t rf'.
Proof.
  intros Ht.
  destruct (RootFixture_Create_explicit rf t s Ht) as (rf' & s' & e & Hr & _).
  destruct (RootFixture_Create_fields _ _ _ _ _ _ Hr) as (_ & _ & Hp & _).
  destruct (RootFixture_Create_keeps _ _ _ _ _ _ Hr) as (Hf & Hc & Hh).
  exists rf', s', e. repeat split; auto.
Qed.

(** X22. [Create] is not idempotent.  Called again on the root it
    returned, it asks [MkdirTemp] for another directory with the same
    pattern, resolves the tree under it and makes every call again; the
    first directory is no longer known to the fixture: [Cleanup] then
    removes the second one and makes no other call. *)
Theorem Create_again_makes_a_second_directory rf t t2 s :
  RootFixture_has_t rf ->
  exists rf1 s1 e1 rf2 s2 e2,
    returns (RootFixture_Create rf t) s rf1 s1 e1 /\
    returns (RootFixture_Create rf1 t2) s1 rf2 s2 e2 /\
    let tmp2 :=
      res_path (fst (fs_exec (MkdirTemp "" (rf_DirPrefix rf ++ "-*")%string) s1)) in
    rf_tempDir rf2 = tmp2 /\
    fs_calls e2 = RootFixture_calls rf1 t2 tmp2 /\
    forall s3, exists e3,
      returns (RootFixture_Cleanup rf2) s3 tt (snd (fs_exec (RemoveAll tmp2) s3)) e3 /\
      fs_calls e3 = [RemoveAll tmp2].
Proof.
  intros Ht.
  destruct (RootFixture_Create_explicit rf t s Ht) as (rf1 & s1 & e1 & Hr1 & _).
  destruct (RootFixture_Create_fields _ _ _ _ _ _ Hr1) as (_ & _ & Hp1 & _).
  destruct (RootFixture_Create_keeps _ _ _ _ _ _ Hr1) as (_ & _ & Hh).
  destruct (RootFixture_Create_explicit rf1 t2 s1 (Hh Ht))
    as (rf2 & s2 & e2 & Hr2 & Hc2).
  destruct (RootFixture_Create_fields _ _ _ _ _ _ Hr2)
    as (Hcr & Hf & _ & _ & Htmp).
  cbv zeta in Hc2. rewrite Hp1 in Hc2, Htmp.
  exists rf1, s1, e1, rf2, s2, e2.
  split; [exact Hr1 |]. split; [exact Hr2 |]. cbv zeta.
  split; [exact Htmp |]. split; [exact Hc2 |].
  intros s3. pose proof (RootFixture_Cleanup_run rf2 t2 s3 Hcr Hf) as Hrun.
  cbv zeta in Hrun. rewrite Htmp in Hrun.
  eexists. split; [exact Hrun |].
  change (?x :: ?l) with ([x] ++ l).
  rewrite fs_calls_app, fs_calls_report_if. reflexivity.
Qed.
End Repeated.

Lemma Create_keeps_the_shape_of_the_tree_witness :
  RootFixture_has_t Scenario.tree /\
  exists rf' s' e,
    returns (RootFixture_Create (PO := Unix.paths) (FS := Unix.fs)
               Scenario.tree Scenario.t) Unix.empty_disk rf' s' e /\
    rf_DirPrefix rf' = "my-test"%string /\
    map (fun ff : FileFixture => ff_Name ff) (rf_FileFixtures rf') =
      ["test.json"%string] /\
    map ChildFixture_shape (rf_ChildFixtures rf') =
      [ShapeDir true "proj" ["main.txt"%string]
         [ShapeDir false "src" ["missing.go"%string; "file-2.txt"%string] []]] /\
    RootFixture_has_t rf'.
Proof.
  split; [exact Scenario_tree_has_t |].
  exact (Create_keeps_the_shape_of_the_tree (PO := Unix.paths) (FS := Unix.fs)
           Scenario.tree Scenario.t Unix.empty_disk Scenario_tree_has_t).
Defined.

Lemma Create_again_makes_a_second_directory_witness :
  RootFixture_has_t Scenario.tree /\
  exists rf1 s1 e1 rf2 s2 e2,
    returns (RootFixture_Create (PO := Unix.paths) (FS := Unix.fs)
               Scenario.tree Scenario.t) Unix.empty_disk rf1 s1 e1 /\
    returns (RootFixture_Create (PO := Unix.paths) (FS := Unix.fs)
               rf1 Scenario.t) s1 rf2 s2 e2 /\
    rf_tempDir rf2 =
      res_path (fst (Unix.exec (MkdirTemp "" "my-test-*") s1)) /\
    fs_calls e2 =
      RootFixture_calls (PO := Unix.paths) rf1 Scenario.t
        (res_path (fst (Unix.exec (MkdirTemp "" "my-test-*") s1))) /\
    forall s3, exists e3,
      returns (RootFixture_Cleanup (FS := Unix.fs) rf2) s3 tt
        (snd (Unix.exec
                (RemoveAll (res_path (fst (Unix.exec (MkdirTemp "" "my-test-*") s1))))
                s3)) e3 /\
      fs_calls e3 =
        [RemoveAll (res_path (fst (Unix.exec (MkdirTemp "" "my-test-*") s1)))].
Proof.
  split; [exact Scenario_tree_has_t |].
  exact (Create_again_makes_a_second_directory (PO := Unix.paths) (FS := Unix.fs)
           Scenario.tree Scenario.t Scenario.t Unix.empty_disk
           Scenario_tree_has_t).
Defined.

(** On the disk in memory: after two runs of [Create] and a [Cleanup] the
    directory of the first run is still there. *)
Lemma Scenario_second_Create_leaks_the_first :
  let r1 := RootFixture_Create (PO := Unix.paths) (FS := Unix.fs)
              Scenario.tree Scenario.t Unix.empty_disk in
  let rf1 := match out r1 with Ok rf => rf | _ => Scenario.tree end in
  let r2 := RootFixture_Create (PO := Unix.paths) (FS := Unix.fs)
              rf1 Scenario.t (st r1) in
  let rf2 := match out r2 with Ok rf => rf | _ => Scenario.tree end in
  let c := RootFixture_Cleanup (FS := Unix.fs) rf2 (st r2) in
  rf_tempDir rf1 = "/tmp/my-test-0"%string /\
  rf_tempDir rf2 = "/tmp/my-test-1"%string /\
  fs_calls (evs c) = [RemoveAll "/tmp/my-test-1"] /\
  Unix.is_dir (st c) "/tmp/my-test-1" = false /\
  Unix.is_dir (st c) "/tmp/my-test-0/proj/.git" = true /\
  Unix.read (st c) "/tmp/my-test-0/proj/main.txt" = Some "hi"%string.
Proof. vm_compute. repeat split. Qed.

(** ** The steps of a leaf *)

Section LeafSteps.
Context {PO : PathOps} {FS : FileSystem}.

(** X23. A leaf that is to be written is made in three steps, in this
    order and whatever the file system answers: the directory of its path
    is asked for with the leaf's [DirPermissions]; the file is written with
    its [Permissions], the data being what the content function returns
    on the resolved leaf, or the literal [Content] where there is none;
    and, only where [ModifiedTime] is set, access and modification time
    are both set to it.  The leaf returned holds the data as its
    [Content], its path, its parent, and counts as created. *)
Theorem leaf_is_made_in_three_steps t (ff : FileFixture) pf s d :
  out (Fixture_Dir pf s) = Ok d ->
  ff_DoNotCreate ff = false ->
  let p := FilepathJoin d (ff_Name ff) in
  let data :=
    match ff_ContentFunc ff with
    | Some f => f (ff_data (FileFixture_resolved ff pf d))
    | None => ff_Content ff
    end in
  exists (ff' : FileFixture) s' e,
    returns (FileFixture_Create t ff pf) s ff' s' e /\
    fs_calls e =
      MkdirAll (Filepath_Dir p) (FileMode (ff_DirPermissions ff))
      :: WriteFile p data (FileMode (ff_Permissions ff))
      :: (if IsZero (ff_ModifiedTime ff) then []
          else [ChangeFileTimes p (ff_ModifiedTime ff) (ff_ModifiedTime ff)]) /\
    ff_Content ff' = data /\
    ff_Filepath ff' = p /\
    ff_Parent ff' = Some pf /\
    ff_created ff' = true.
Proof.
  intros Hd Hskip. cbv zeta.
  destruct (FileFixture_Create_returns t ff pf s d Hd) as (s' & e & Hr & Hc & _).
  do 3 eexists. split; [exact Hr |]. split.
  - rewrite Hc. unfold createFile_calls, FileFixture_content. cbn.
    rewrite Hskip. destruct (ff_ContentFunc ff); reflexivity.
  - unfold createFile_result. cbn. rewrite Hskip.
    destruct (ff_ContentFunc ff); repeat split.
Qed.
End LeafSteps.

Lemma leaf_is_made_in_three_steps_witness :
  let ff := newFileFixture Scenario.t "old.txt"
              (Some (mkFileFixtureArgs "" "x" None 1700000000 0 0 false None)) in
  out (Fixture_Dir (FS := Unix.fs) Scenario.created_root Scenario.my_test_disk)
    = Ok "/tmp/my-test-0"%string /\
  ff_DoNotCreate ff = false /\
  exists (ff' : FileFixture) s' e,
    returns (FileFixture_Create (PO := Unix.paths) (FS := Unix.fs) Scenario.t ff
               Scenario.created_root) Scenario.my_test_disk ff' s' e /\
    fs_calls e =
      [MkdirAll "/tmp/my-test-0" perm_0755;
       WriteFile "/tmp/my-test-0/old.txt" "x" perm_0644;
       ChangeFileTimes "/tmp/my-test-0/old.txt" 1700000000 1700000000] /\
    ff_Content ff' = "x"%string /\
    ff_Filepath ff' = "/tmp/my-test-0/old.txt"%string /\
    ff_Parent ff' = Some Scenario.created_root /\
    ff_created ff' = true.
Proof.
  cbv zeta. split; [reflexivity |]. split; [reflexivity |].
  exact (leaf_is_made_in_three_steps (PO := Unix.paths) (FS := Unix.fs)
           Scenario.t
           (newFileFixture Scenario.t "old.txt"
              (Some (mkFileFixtureArgs "" "x" None 1700000000 0 0 false None)))
           Scenario.created_root Scenario.my_test_disk "/tmp/my-test-0"
           eq_refl eq_refl).
Defined.

(** * From the tree given to the tree returned *)

(** ** Where the markers are *)

Section MarkerPaths.
Context {PO : PathOps} {FS : FileSystem}.

Lemma Forall2_flat_map_eq {A B} (g h : A -> list B) xs xs' :
  Forall2 (fun x x' => g x' = h x) xs xs' -> flat_map g xs' = flat_map h xs.
Proof. induction 1; simpl; congruence. Qed.

(** The directory a created fixture hands to what is created below it. *)
Lemma created_ptr_Dir n dir t0 par (s : fs_state) d :
  out (Fixture_Dir (DirFixturePtr n dir true t0 par) s) = Ok d -> d = dir.
Proof. destruct t0; cbn; intros H; [inversion H; reflexivity | discriminate]. Qed.

(** The markers of the repositories of a created tree are where the names
    of the tree it was created from put them. *)
Lemma DirFixture_createWithParent_marker_paths df :
  forall t pf s df' s' e,
    returns (DirFixture_createWithParent t df pf) s df' s' e ->
    exists d,
      out (Fixture_Dir pf s) = Ok d /\
      DirFixture_markers df' = DirFixture_marker_paths d df.
Proof.
  induction df using DirFixture_tree_ind with
    (Q := fun c => forall t pf s c' s' e,
            returns (ChildFixture_createWithParent t c pf) s c' s' e ->
            exists d,
              out (Fixture_Dir pf s) = Ok d /\
              ChildFixture_markers c' = ChildFixture_marker_paths d c)
    (R := fun rf => forall t pf s rf' s' e,
            returns (RepoFixture_createWithParent t rf pf) s rf' s' e ->
            exists d,
              out (Fixture_Dir pf s) = Ok d /\
              RepoFixture_markers rf' = RepoFixture_marker_paths d rf).
  - rename H into IHchildren. intros t pf s df' s' e H.
    rewrite DirFixture_createWithParent_eq in H. cbv zeta in H.
    apply returns_bind_inv in H as (d1 & s1 & e1 & e1' & Hdir & H & ->).
    apply returns_bind_inv in H as (u1 & s2 & e2 & e2' & _ & H & ->).
    apply returns_bind_inv in H as (err & s3 & e3 & e3' & _ & H & ->).
    apply returns_bind_inv in H as (u2 & s4 & e4 & e4' & _ & H & ->).
    apply returns_bind_inv in H as (files & s5 & e5 & e5' & _ & H & ->).
    apply returns_bind_inv in H as (children & s6 & e6 & e6' & Hchildren & H & ->).
    unfold returns, ret in H. inversion H; subst. clear H.
    exists d1. split; [unfold returns in Hdir; rewrite Hdir; reflexivity |].
    destruct df as [n fs cs mt pm d0 par cr t0].
    cbn [df_FileFixtures df_ChildFixtures set_df_created set_df_dir df_Name
           df_ModifiedTime df_Permissions df_dir df_Parent df_created df_t
           DirFixture_ptr]
      in Hchildren, IHchildren.
    cbn [DirFixture_markers DirFixture_marker_paths df_ChildFixtures df_Name
           set_df_ChildFixtures set_df_FileFixtures set_df_dir set_df_created].
    apply Forall2_flat_map_eq.
    eapply range_rel; cycle 1; [exact Hchildren |].
    eapply All_impl; [| exact IHchildren].
    intros c _ Hc s0 c' s0' e0 Hr.
    destruct (Hc _ _ _ _ _ _ Hr) as (d' & Hd' & Hm).
    apply created_ptr_Dir in Hd'. subst d'. exact Hm.
  - intros t pf s c' s' e H. rewrite ChildFixture_createWithParent_eq in H.
    apply returns_bind_inv in H as (df' & s1 & e1 & e2 & Hr & H & ->).
    unfold returns, ret in H. inversion H; subst.
    exact (IHdf _ _ _ _ _ _ Hr).
  - intros t pf s c' s' e H. rewrite ChildFixture_createWithParent_eq in H.
    apply returns_bind_inv in H as (rf' & s1 & e1 & e2 & Hr & H & ->).
    unfold returns, ret in H. inversion H; subst.
    exact (IHdf _ _ _ _ _ _ Hr).
  - intros t pf s rf' s' e H. rewrite RepoFixture_createWithParent_eq in H.
    cbv zeta in H.
    apply returns_bind_inv in H as (df' & s1 & e1 & e2 & Hr & H & ->).
    apply returns_bind_inv in H as (err & s2 & e3 & e4 & _ & H & ->).
    apply returns_bind_inv in H as (u & s3 & e5 & e6 & _ & H & ->).
    unfold returns, ret in H. inversion H; subst.
    destruct rf as [df cr t0].
    cbn [repo_DirFixture set_repo_created set_repo_DirFixture] in *.
    destruct (IHdf _ _ _ _ _ _ Hr) as (d & Hd & Hm).
    exists d. split; [exact Hd |].
    destruct (DirFixture_createWithParent_fields _ _ _ _ _ _ _ _ Hd Hr)
      as (Hdir & _).
    change (DirPathJoin (df_dir df') ".git" :: DirFixture_markers df' =
            DirPathJoin (DirPathJoin d (df_Name df)) ".git"
              :: DirFixture_marker_paths d df).
    rewrite Hdir, Hm. reflexivity.
Qed.

Lemma ChildFixture_createWithParent_marker_paths c t pf s c' s' e :
  returns (ChildFixture_createWithParent t c pf) s c' s' e ->
  exists d,
    out (Fixture_Dir pf s) = Ok d /\
    ChildFixture_markers c' = ChildFixture_marker_paths d c.
Proof.
  intros H. rewrite ChildFixture_createWithParent_eq in H.
  destruct c as [df | rf].
  - apply returns_bind_inv in H as (df' & s1 & e1 & e2 & Hr & H & ->).
    unfold returns, ret in H. inversion H; subst.
    exact (DirFixture_createWithParent_marker_paths _ _ _ _ _ _ _ Hr).
  - apply returns_bind_inv in H as (rf' & s1 & e1 & e2 & Hr & H & ->).
    unfold returns, ret in H. inversion H; subst.
    rewrite RepoFixture_createWithParent_eq in Hr. cbv zeta in Hr.
    apply returns_bind_inv in Hr as (df' & s2 & e3 & e4 & Hd & Hr & ->).
    apply returns_bind_inv in Hr as (err & s3 & e5 & e6 & _ & Hr & ->).
    apply returns_bind_inv in Hr as (u & s4 & e7 & e8 & _ & Hr & ->).
    unfold returns, ret in Hr. inversion Hr; subst.
    destruct rf as [df cr t0].
    cbn [repo_DirFixture set_repo_created set_repo_DirFixture] in *.
    destruct (DirFixture_createWithParent_marker_paths _ _ _ _ _ _ _ Hd)
      as (d & Hdir & Hm).
    exists d. split; [exact Hdir |].
    destruct (DirFixture_createWithParent_fields _ _ _ _ _ _ _ _ Hdir Hd)
      as (Hdd & _).
    change (DirPathJoin (df_dir df') ".git" :: DirFixture_markers df' =
            DirPathJoin (DirPathJoin d (df_Name df)) ".git"
              :: DirFixture_marker_paths d df).
    rewrite Hdd, Hm. reflexivity.
Qed.

Lemma RootFixture_Create_marker_paths rf t s rf' s' e :
  returns (RootFixture_Create rf t) s rf' s' e ->
  RootFixture_markers rf' =
    flat_map
      (ChildFixture_marker_paths
         (res_path (fst (fs_exec (MkdirTemp "" (rf_DirPrefix rf ++ "-*")%string) s))))
      (rf_ChildFixtures rf).
Proof.
  unfold RootFixture_Create. intros H.
  apply returns_bind_inv in H as (r & s1 & e1 & e2 & Hr & H & ->).
  destruct (returns_fun _ _ _ _ _ _ _ _ Hr (returns_dt_MkdirTemp _ _ _))
    as (-> & _ & _).
  apply returns_bind_inv in H as (u & s2 & e3 & e4 & _ & H & ->).
  apply returns_bind_inv in H as (children & s3 & e5 & e6 & Hch & H & ->).
  apply returns_bind_inv in H as (files & s4 & e7 & e8 & _ & H & ->).
  unfold returns, ret in H. inversion H; subst. clear H.
  cbn [rf_FileFixtures rf_ChildFixtures set_rf_FileFixtures set_rf_ChildFixtures
         set_rf_cleanupFunc set_rf_tempDir set_rf_created rf_DirPrefix fst]
    in *.
  unfold RootFixture_markers. cbn [rf_ChildFixtures].
  apply Forall2_flat_map_eq.
  eapply range_rel; cycle 1; [exact Hch |].
  apply All_Forall, Forall_forall. intros c _ s0 c' s0' e0 Hc.
  destruct (ChildFixture_createWithParent_marker_paths _ _ _ _ _ _ _ Hc)
    as (d & Hd & Hm).
  cbn in Hd. inversion Hd; subst. exact Hm.
Qed.
End MarkerPaths.

(** ** The claims on trees *)

Section TreeClaimsOnTheTreeGiven.
Context {PO : PathOps} {FS : FileSystem}.

(** C2. A tree built with the attach methods is created as a whole: the
    root [Create] returns stands on the directory [MkdirTemp] returned and
    holds every directory, repository and file of the tree it was given,
    with its kind, its name and its place; and in it every directory,
    repository and file has as its resolved path the resolved path of its
    parent joined with its name, and as its relative path the relative
    path of its parent joined with its name, the relative path of the
    root being [.]. *)
Theorem materialized_paths_follow_the_parent rf t s :
  RootFixture_attached rf ->
  exists rf' s' e,
    returns (RootFixture_Create rf t) s rf' s' e /\
    rf_tempDir rf' =
      res_path (fst (fs_exec (MkdirTemp "" (rf_DirPrefix rf ++ "-*")%string) s)) /\
    map (fun ff : FileFixture => ff_Name ff) (rf_FileFixtures rf') =
      map (fun ff : FileFixture => ff_Name ff) (rf_FileFixtures rf) /\
    map ChildFixture_shape (rf_ChildFixtures rf') =
      map ChildFixture_shape (rf_ChildFixtures rf) /\
    RootFixture_paths rf'.
Proof.
  intros Hatt.
  destruct (RootFixture_Create_spec rf t s Hatt) as (rf' & s' & e & Hr & Hp & _).
  destruct (RootFixture_Create_fields _ _ _ _ _ _ Hr) as (_ & _ & _ & _ & Htmp).
  destruct (RootFixture_Create_keeps _ _ _ _ _ _ Hr) as (Hf & Hc & _).
  exists rf', s', e. repeat split; try assumption; apply Hp.
Qed.

(** C4, as the code orders the calls.  In a tree built with the attach
    methods, every repository of the tree has its marker [.git] under its
    own resolved path, the directory of its parent joined with its name:
    the creation of that marker is asked for, with permissions 0755; a
    marker whose creation succeeded is a directory when the
    materialization ends, and one whose creation failed is reported at
    once with [t.Errorf].  At a repository the marker is the last call:
    the directory, its file leaves and its children come before it, and
    only the report of its failure can follow.  The methods that attach a
    repository make no call. *)
Theorem repository_marker_follows_its_tree rf t s repo pf d prel s0 :
  lawful ->
  RootFixture_attached rf ->
  out (Fixture_Dir pf s0) = Ok d ->
  RepoFixture_attached prel repo ->
  markers_made rf t s /\
  marker_is_last_call t repo pf d s0 /\
  attaching_makes_no_call rf repo t s.
Proof.
  intros Hlaw Hatt Hd Hrepo. split; [| split].
  - destruct (RootFixture_Create_spec rf t s Hatt)
      as (rf' & s' & e & Hr & _ & Hm).
    pose proof (RootFixture_Create_marker_paths _ _ _ _ _ _ Hr) as Hpaths.
    unfold markers_made. cbv zeta.
    exists rf', s', e. split; [exact Hr |]. split; [exact Hpaths |].
    intros p Hp. rewrite <- Hpaths in Hp.
    destruct (Hm p Hp) as (r & Hin). exists r.
    destruct (faithful_RootFixture_Create rf t s) as [Ht Hn].
    destruct (steady_RootFixture_Create rf t s) as [Ho _].
    unfold returns in Hr. rewrite Hr in Ht, Hn, Ho. cbn [st evs] in Ht, Hn, Ho.
    split; [exact Hin |]. split.
    + intros Herr.
      exact (trace_MkdirAll_stays _ _ _ _ _ _ Hlaw Ht Hn Hin Herr).
    + intros Herr. exact (orderly_failure_reported t e _ r Ho Hin Herr).
  - assert (Hrepo' : DirFixture_attached prel (repo_DirFixture repo))
      by (destruct repo; exact Hrepo).
    destruct (DirFixture_createWithParent_spec (repo_DirFixture repo) t pf d
                prel s0 Hd Hrepo') as (df' & s1 & e1 & Hr & _ & _).
    destruct (DirFixture_createWithParent_fields _ _ _ _ _ _ _ _ Hd Hr)
      as (Hdir & _).
    pose proof (RepoFixture_createWithParent_run _ _ _ _ _ _ _ Hr) as Hrun.
    rewrite Hdir in Hrun.
    unfold marker_is_last_call. cbv zeta.
    exists df', s1, e1. split; [exact Hr |]. split; [exact Hdir |].
    eexists. split; [exact Hrun |]. split; [reflexivity |].
    cbn [RepoFixture_markers repo_DirFixture]. rewrite Hdir. reflexivity.
  - intros name args. split; [| split]; eexists; reflexivity.
Qed.

(** C3, on the code.  Before [Create], a directory and a repository as the
    attach methods return them stop the test in [Dir], [MakeDir] and
    [GitPath], with [t.Fatalf].  The root does not: nothing assigns its
    field [t], which it has from [NewRootFixture] as nil and keeps through
    the attach methods, so that [Dir], [TempDir], [Cleanup] and both
    versions of [RemoveFiles] dereference nil on their way to [t.Fatalf]
    and the program panics.  And a file leaf is silent: its resolved path
    is the field [Filepath], which holds the empty path until [Create],
    and nothing stands between a reader and that field; only its relative
    path is there. *)
Theorem early_access_panics_at_the_root_and_is_silent_at_a_leaf
    dirPrefix name fname t dargs rargs fargs fp (s : fs_state) :
  exists rf1 df rf2 repo rf3 (ff : FileFixture),
    returns (RootFixture_AddDirFixture (NewRootFixture dirPrefix) t name dargs)
      s (rf1, df) s [] /\
    returns (RootFixture_AddRepoFixture (NewRootFixture dirPrefix) t name rargs)
      s (rf2, repo) s [] /\
    returns (RootFixture_AddFileFixture (NewRootFixture dirPrefix) t fname fargs)
      s (rf3, ff) s [] /\
    (DirFixture_Dir df s = stopped t "DirFixture" name s /\
     DirFixture_MakeDir df fp s = stopped t "DirFixture" name s /\
     RepoFixture_Dir repo s = stopped t "DirFixture" name s /\
     RepoFixture_GitPath repo s = stopped t "DirFixture" name s /\
     RepoFixture_MakeDir repo fp s = stopped t "RepoFixture" name s) /\
    (rf_t rf1 = None /\ rf_t rf2 = None /\ rf_t rf3 = None /\
     Forall (fun rf =>
               RootFixture_Dir rf s = panicked s /\
               RootFixture_TempDir rf s = panicked s /\
               RootFixture_Cleanup rf s = panicked s /\
               RootFixture_RemoveFiles rf t s = panicked s /\
               Revised.RootFixture_RemoveFiles rf t s = panicked s)
       [NewRootFixture dirPrefix; rf1; rf2; rf3]) /\
    (ff_created ff = false /\
     ff_Filepath ff = ""%string /\
     FileFixture_RelativePath ff = Some (FilepathJoin "." fname)).
Proof.
  do 6 eexists.
  split; [reflexivity |]. split; [reflexivity |]. split; [reflexivity |].
  split; [repeat split |]. split; [| repeat split].
  split; [reflexivity |]. split; [reflexivity |]. split; [reflexivity |].
  repeat constructor.
Qed.
End TreeClaimsOnTheTreeGiven.

Lemma materialized_paths_follow_the_parent_witness :
  RootFixture_attached (PO := Unix.paths) Scenario.tree /\
  exists rf' s' e,
    returns (RootFixture_Create (PO := Unix.paths) (FS := Unix.fs)
               Scenario.tree Scenario.t) Unix.empty_disk rf' s' e /\
    rf_tempDir rf' = "/tmp/my-test-0"%string /\
    map (fun ff : FileFixture => ff_Name ff) (rf_FileFixtures rf') =
      ["test.json"%string] /\
    map ChildFixture_shape (rf_ChildFixtures rf') =
      [ShapeDir true "proj" ["main.txt"%string]
         [ShapeDir false "src" ["missing.go"%string; "file-2.txt"%string] []]] /\
    RootFixture_paths (PO := Unix.paths) rf'.
Proof.
  split; [exact Scenario_tree_attached |].
  exact (materialized_paths_follow_the_parent (PO := Unix.paths) (FS := Unix.fs)
           Scenario.tree Scenario.t Unix.empty_disk Scenario_tree_attached).
Defined.

Lemma repository_marker_follows_its_tree_witness :
  lawful (FS := Unix.fs) /\
  RootFixture_attached (PO := Unix.paths) Scenario.tree /\
  out (Fixture_Dir (FS := Unix.fs) Scenario.created_root Scenario.my_test_disk)
    = Ok "/tmp/my-test-0"%string /\
  RepoFixture_attached (PO := Unix.paths) "." Scenario.proj /\
  markers_made (PO := Unix.paths) (FS := Unix.fs) Scenario.tree Scenario.t
    Unix.empty_disk /\
  marker_is_last_call (PO := Unix.paths) (FS := Unix.fs) Scenario.t Scenario.proj
    Scenario.created_root "/tmp/my-test-0" Scenario.my_test_disk /\
  attaching_makes_no_call (FS := Unix.fs) Scenario.tree
    Scenario.proj Scenario.t Unix.empty_disk.
Proof.
  assert (H3 : out (Fixture_Dir (FS := Unix.fs) Scenario.created_root
                      Scenario.my_test_disk) = Ok "/tmp/my-test-0"%string)
    by reflexivity.
  split; [exact Unix_fs_lawful |].
  split; [exact Scenario_tree_attached |].
  split; [exact H3 |].
  split; [exact Scenario_proj_attached |].
  exact (repository_marker_follows_its_tree (PO := Unix.paths) (FS := Unix.fs)
           Scenario.tree Scenario.t Unix.empty_disk Scenario.proj
           Scenario.created_root "/tmp/my-test-0" "." Scenario.my_test_disk
           Unix_fs_lawful Scenario_tree_attached H3 Scenario_proj_attached).
Defined.

(** ** Failures during the creation, and the removal *)

Section CreateAndCleanup.
Context {PO : PathOps} {FS : FileSystem}.

(** [Create] begins with [MkdirTemp]. *)
Lemma RootFixture_Create_asks_MkdirTemp rf t s :
  In (FsCalled (MkdirTemp "" (rf_DirPrefix rf ++ "-*")%string)
        (fst (fs_exec (MkdirTemp "" (rf_DirPrefix rf ++ "-*")%string) s)))
    (evs (RootFixture_Create rf t s)).
Proof.
  unfold RootFixture_Create. cbv zeta.
  rewrite (evs_bind _ _ _ _ _ _ (returns_dt_MkdirTemp _ _ _)).
  left. reflexivity.
Qed.

Lemma trace_MkdirTemp_stays s e s' d pat r :
  lawful -> MkdirTemp_lawful -> trace_ok s e s' -> no_removal e ->
  In (FsCalled (MkdirTemp d pat) r) e -> res_err r = None ->
  fs_IsDir s' (res_path r) = true.
Proof.
  intros Hlaw Htmp Ht. induction Ht as [s | s r0 e s' Ht IH | s c e s' Ht IH];
    intros Hn Hin Herr.
  - destruct Hin.
  - destruct Hin as [Heq | Hin]; [discriminate |].
    apply IH; auto. intros q r' Hq. apply (Hn q r'). right. exact Hq.
  - assert (Hn' : no_removal e)
      by (intros q r' Hq; apply (Hn q r'); right; exact Hq).
    destruct Hin as [Heq | Hin]; [| apply IH; auto].
    inversion Heq; subst.
    apply (trace_keeps_dirs _ _ _ _ Hlaw Ht Hn').
    apply Htmp. exact Herr.
Qed.

(** X1. [RootFixture.Create], on every tree and every file system: a call
    to the file system that fails is followed at once by a [t.Errorf] of
    the test that called [Create], and the creation goes on with the next
    step: where every directory and repository of the tree holds a test
    context, [Create] returns, and the calls made before the failed one,
    the failed one and the calls made after it are the calls the tree
    asks for, all of them, in their order. *)
Theorem Create_reports_each_failed_call_at_once rf t s c r :
  In (FsCalled c r) (evs (RootFixture_Create rf t s)) ->
  res_err r <> None ->
  exists e1 format args e2,
    evs (RootFixture_Create rf t s) =
      e1 ++ FsCalled c r :: Reported (mkReport false t format args) :: e2 /\
    (RootFixture_has_t rf ->
     (exists rf', out (RootFixture_Create rf t s) = Ok rf') /\
     fs_calls e1 ++ c :: fs_calls e2 =
       RootFixture_calls rf t
         (res_path
            (fst (fs_exec (MkdirTemp "" (rf_DirPrefix rf ++ "-*")%string) s)))).
Proof.
  intros Hin Herr.
  destruct (steady_RootFixture_Create rf t s) as [Ho _].
  destruct (orderly_failure_reported t _ c r Ho Hin Herr)
    as (e1 & format & args & e2 & He).
  exists e1, format, args, e2. split; [exact He |].
  intros Ht.
  destruct (RootFixture_Create_explicit rf t s Ht) as (rf' & s' & e & Hr & Hc).
  unfold returns in Hr. rewrite Hr in He. cbn [evs] in He.
  split; [exists rf'; rewrite Hr; reflexivity |].
  rewrite <- Hc, He.
  change (FsCalled c r :: Reported (mkReport false t format args) :: e2)
    with ([FsCalled c r; Reported (mkReport false t format args)] ++ e2).
  rewrite !fs_calls_app. reflexivity.
Qed.

(** X3. A [Create] that records no failure has had every one of its calls
    to the file system succeed; and on a lawful file system, where also a
    [MkdirTemp] that succeeds leaves a directory, the temporary directory,
    which is the [tempDir] of the root [Create] returns, and every
    directory [Create] asked for, the markers of the repositories among
    them, exist when [Create] ends. *)
Theorem Create_without_report_made_every_directory rf t s :
  failed (evs (RootFixture_Create rf t s)) = false ->
  (forall c q,
     In (FsCalled c q) (evs (RootFixture_Create rf t s)) -> res_err q = None) /\
  (lawful -> MkdirTemp_lawful ->
   fs_IsDir (st (RootFixture_Create rf t s))
     (res_path (fst (fs_exec (MkdirTemp "" (rf_DirPrefix rf ++ "-*")%string) s)))
     = true /\
   (forall rf', out (RootFixture_Create rf t s) = Ok rf' ->
                fs_IsDir (st (RootFixture_Create rf t s)) (rf_tempDir rf') = true) /\
   (forall p m q,
      In (FsCalled (MkdirAll p m) q) (evs (RootFixture_Create rf t s)) ->
      fs_IsDir (st (RootFixture_Create rf t s)) p = true)).
Proof.
  intros Hf.
  destruct (steady_RootFixture_Create rf t s) as [Ho _].
  assert (Hall : forall c q,
             In (FsCalled c q) (evs (RootFixture_Create rf t s)) ->
             res_err q = None)
    by (intros c q Hin; exact (orderly_silent t _ _ _ Ho Hf Hin)).
  split; [exact Hall |].
  intros Hlaw Htmp.
  destruct (faithful_RootFixture_Create rf t s) as [Ht Hn].
  assert (Hdir : fs_IsDir (st (RootFixture_Create rf t s))
                   (res_path
                      (fst (fs_exec
                              (MkdirTemp "" (rf_DirPrefix rf ++ "-*")%string) s)))
                 = true).
  { pose proof (RootFixture_Create_asks_MkdirTemp rf t s) as Hin.
    exact (trace_MkdirTemp_stays _ _ _ _ _ _ Hlaw Htmp Ht Hn Hin (Hall _ _ Hin)). }
  split; [exact Hdir |]. split.
  - intros rf' Hout.
    assert (Hr : returns (RootFixture_Create rf t) s rf'
                   (st (RootFixture_Create rf t s))
                   (evs (RootFixture_Create rf t s))).
    { unfold returns. destruct (RootFixture_Create rf t s) as [o s1 e1].
      cbn in Hout. subst o. reflexivity. }
    destruct (RootFixture_Create_fields _ _ _ _ _ _ Hr) as (_ & _ & _ & _ & Heq).
    rewrite Heq. exact Hdir.
  - intros p m q Hin.
    exact (trace_MkdirAll_stays _ _ _ _ _ _ Hlaw Ht Hn Hin (Hall _ _ Hin)).
Qed.

(** X8. [Cleanup] after [Create]: in whatever state it is called, a first
    or a second time, it makes one call, the removal of the directory that
    [MkdirTemp] returned to [Create], and it returns.  When the removal
    fails, the failure is reported with [t.Errorf] to the test that called
    [Create], right after the call, with the directory and the error;
    when it succeeds nothing is reported.  [Dir] and [TempDir] return that
    directory without any effect. *)
Theorem Cleanup_removes_the_directory_Create_made rf0 t0 s0 :
  RootFixture_has_t rf0 ->
  let tmp :=
    res_path (fst (fs_exec (MkdirTemp "" (rf_DirPrefix rf0 ++ "-*")%string) s0)) in
  exists rf s1 e0,
    returns (RootFixture_Create rf0 t0) s0 rf s1 e0 /\
    (forall s, returns (RootFixture_Dir rf) s tmp s [] /\
               returns (RootFixture_TempDir rf) s tmp s []) /\
    forall s,
      let r := fst (fs_exec (RemoveAll tmp) s) in
      let report :=
        Reported (mkReport false t0 "Failed to remove temp directory '%s'; %v"
                    [tmp; error_text (res_err r)]) in
      exists e,
        returns (RootFixture_Cleanup rf) s tt (snd (fs_exec (RemoveAll tmp) s)) e /\
        fs_calls e = [RemoveAll tmp] /\
        (forall rp, In (Reported rp) e -> rp_fatal rp = false /\ rp_t rp = t0) /\
        (res_err r <> None -> e = [FsCalled (RemoveAll tmp) r; report]) /\
        (res_err r = None -> e = [FsCalled (RemoveAll tmp) r]).
Proof.
  intros Ht. cbv zeta.
  destruct (RootFixture_Create_explicit rf0 t0 s0 Ht) as (rf & s1 & e0 & Hr & _).
  destruct (RootFixture_Create_fields _ _ _ _ _ _ Hr) as (Hcr & Hf & _ & _ & Htmp).
  exists rf, s1, e0. split; [exact Hr |]. split.
  - intros s. unfold RootFixture_Dir, RootFixture_TempDir,
      RootFixture_ensureCreated, RootFixture_ensureCreated'.
    rewrite Hcr, Htmp. split; reflexivity.
  - intros s. pose proof (RootFixture_Cleanup_run rf t0 s Hcr Hf) as Hrun.
    cbv zeta in Hrun. rewrite Htmp in Hrun.
    eexists. split; [exact Hrun |]. split; [| split; [| split]].
    + change (?x :: ?l) with ([x] ++ l).
      rewrite fs_calls_app, fs_calls_report_if. reflexivity.
    + intros rp [Heq | Hin]; [discriminate |].
      unfold report_if in Hin. destruct (negb _); [| destruct Hin].
      destruct Hin as [Heq | []]. inversion Heq; subst. split; reflexivity.
    + intros Herr. destruct (res_err _) eqn:E; [reflexivity | contradiction].
    + intros Herr. rewrite Herr. reflexivity.
Qed.
End CreateAndCleanup.

Lemma Unix_MkdirTemp_lawful : MkdirTemp_lawful (FS := Unix.fs).
Proof.
  intros dir pattern s. cbn. unfold Unix.exec, Unix.exec_in.
  destruct (Unix.has_slash pattern); cbn; [discriminate |].
  intros _. unfold Unix.is_dir. cbn. rewrite String.eqb_refl. reflexivity.
Qed.

Lemma Create_reports_each_failed_call_at_once_witness :
  let R := RootFixture_Create (PO := Unix.paths) (FS := Unix.fs)
             Scenario.nested_prefix Scenario.t Unix.empty_disk in
  let c := MkdirTemp "" "test/nested-*" in
  let r := Unix.fs_err "mkdirtemp" "test/nested-*"
             "pattern contains path separator" in
  In (FsCalled c r) (evs R) /\
  res_err r <> None /\
  RootFixture_has_t Scenario.nested_prefix /\
  exists e1 format args e2,
    evs R = e1 ++ FsCalled c r :: Reported (mkReport false Scenario.t format args)
                  :: e2 /\
    (exists rf', out R = Ok rf') /\
    fs_calls e1 ++ c :: fs_calls e2 =
      [MkdirTemp "" "test/nested-*"; MkdirAll "d" perm_0755].
Proof.
  cbv zeta.
  assert (Hin : In (FsCalled (MkdirTemp "" "test/nested-*")
                      (Unix.fs_err "mkdirtemp" "test/nested-*"
                         "pattern contains path separator"))
                  (evs (RootFixture_Create (PO := Unix.paths) (FS := Unix.fs)
                          Scenario.nested_prefix Scenario.t Unix.empty_disk))).
  { vm_compute. left. reflexivity. }
  assert (Herr : res_err (Unix.fs_err "mkdirtemp" "test/nested-*"
                            "pattern contains path separator") <> None)
    by discriminate.
  split; [exact Hin |]. split; [exact Herr |].
  split; [exact Scenario_nested_prefix_has_t |].
  destruct (Create_reports_each_failed_call_at_once (PO := Unix.paths)
              (FS := Unix.fs) Scenario.nested_prefix Scenario.t Unix.empty_disk
              _ _ Hin Herr) as (e1 & format & args & e2 & He & Hgo).
  exists e1, format, args, e2. split; [exact He |].
  exact (Hgo Scenario_nested_prefix_has_t).
Defined.

Lemma Create_without_report_made_every_directory_witness :
  let R := RootFixture_Create (PO := Unix.paths) (FS := Unix.fs)
             Scenario.tree Scenario.t Unix.empty_disk in
  failed (evs R) = false /\
  lawful (FS := Unix.fs) /\
  MkdirTemp_lawful (FS := Unix.fs) /\
  (forall c q, In (FsCalled c q) (evs R) -> res_err q = None) /\
  fs_IsDir (FileSystem := Unix.fs) (st R) "/tmp/my-test-0" = true /\
  (forall rf', out R = Ok rf' ->
               fs_IsDir (FileSystem := Unix.fs) (st R) (rf_tempDir rf') = true) /\
  (forall p m q,
     In (FsCalled (MkdirAll p m) q) (evs R) ->
     fs_IsDir (FileSystem := Unix.fs) (st R) p = true).
Proof.
  cbv zeta. split; [reflexivity |].
  split; [exact Unix_fs_lawful |]. split; [exact Unix_MkdirTemp_lawful |].
  destruct (Create_without_report_made_every_directory (PO := Unix.paths)
              (FS := Unix.fs) Scenario.tree Scenario.t Unix.empty_disk eq_refl)
    as [Hall Hdirs].
  split; [exact Hall |].
  exact (Hdirs Unix_fs_lawful Unix_MkdirTemp_lawful).
Defined.

Lemma Cleanup_removes_the_directory_Create_made_witness :
  RootFixture_has_t Scenario.tree /\
  exists rf s1 e0,
    returns (RootFixture_Create (PO := Unix.paths) (FS := Unix.denying_fs)
               Scenario.tree Scenario.t) Unix.empty_disk rf s1 e0 /\
    (forall s, returns (RootFixture_Dir (FS := Unix.denying_fs) rf) s
                 "/tmp/my-test-0"%string s [] /\
               returns (RootFixture_TempDir (FS := Unix.denying_fs) rf) s
                 "/tmp/my-test-0"%string s []) /\
    forall s,
      let r := Unix.fs_err "unlinkat" "/tmp/my-test-0" "permission denied" in
      let report :=
        Reported (mkReport false Scenario.t
                    "Failed to remove temp directory '%s'; %v"
                    ["/tmp/my-test-0"%string; error_text (res_err r)]) in
      exists e,
        returns (RootFixture_Cleanup (FS := Unix.denying_fs) rf) s tt s e /\
        fs_calls e = [RemoveAll "/tmp/my-test-0"] /\
        (forall rp, In (Reported rp) e ->
                    rp_fatal rp = false /\ rp_t rp = Scenario.t) /\
        (res_err r <> None ->
         e = [FsCalled (RemoveAll "/tmp/my-test-0") r; report]) /\
        (res_err r = None -> e = [FsCalled (RemoveAll "/tmp/my-test-0") r]).
Proof.
  split; [exact Scenario_tree_has_t |].
  exact (Cleanup_removes_the_directory_Create_made (PO := Unix.paths)
           (FS := Unix.denying_fs) Scenario.tree Scenario.t Unix.empty_disk
           Scenario_tree_has_t).
Defined.
